(** * jobTracker: the jobs API routes and the board's client state

    A shallow embedding of
    - [src/app/api/jobs/route.ts]       (GET, POST; module [JobsRoute]),
    - [src/app/api/jobs/[id]/route.ts]  (PATCH, DELETE; module [JobIdRoute]),
    - [src/app/page.tsx]                (the board and its handlers; modules
                                         [Page], [Board] and [App]),
    over a model of the JavaScript values the handlers inspect (module [JS])
    and of the Prisma record store they call (module [Prisma]). *)

From Stdlib Require Import ZArith String Ascii List Bool Lia.
From Stdlib Require Import Numbers.DecimalString.
From Stdlib Require Import Floats.PrimFloat Floats.FloatOps Floats.SpecFloat Floats.FloatAxioms.
From Stdlib Require Import Numbers.Cyclic.Int63.Uint63.
From stdpp Require Import base option list gmap strings sorting.

Set Warnings "-register-all".
Local Open Scope string_scope.
Local Open Scope Z_scope.

(** ** JavaScript values *)

Module JS.

(** *** Strings

    A string is held as the bytes of its UTF-8 encoding: that is how a request
    carries it and how the store compares it.  (A string with an unpaired
    surrogate has no such encoding and is outside this model.) *)

Definition utf8 (bytes : list nat) : string :=
  fold_right (fun b s => String (ascii_of_nat b) s) EmptyString bytes.

(** The white space of ECMAScript: [WhiteSpace] (TAB, VT, FF, SP, NBSP, ZWNBSP
    and the other space separators) and [LineTerminator] (LF, CR, LS, PS),
    each as its encoding. *)
Definition white_space : list string :=
  utf8 <$> [[9]; [10]; [11]; [12]; [13]; [32];       (* U+0009 to U+000D, U+0020 *)
            [194; 160];                               (* U+00A0 *)
            [225; 154; 128];                          (* U+1680 *)
            [226; 128; 128]; [226; 128; 129]; [226; 128; 130]; [226; 128; 131];
            [226; 128; 132]; [226; 128; 133]; [226; 128; 134]; [226; 128; 135];
            [226; 128; 136]; [226; 128; 137]; [226; 128; 138];  (* U+2000 to U+200A *)
            [226; 128; 168]; [226; 128; 169];         (* U+2028, U+2029 *)
            [226; 128; 175];                          (* U+202F *)
            [226; 129; 159];                          (* U+205F *)
            [227; 128; 128];                          (* U+3000 *)
            [239; 187; 191]]%nat.                     (* U+FEFF *)

(** [s] without its first [n] bytes *)
Fixpoint skip (n : nat) (s : string) : string :=
  match n, s with
  | S n', String _ rest => skip n' rest
  | _, _ => s
  end.

(** [s] without the white space character it starts with, if it starts with
    one. *)
Definition strip_white (s : string) : option string :=
  match List.find (fun w => String.prefix w s) white_space with
  | Some w => Some (skip (String.length w) s)
  | None => None
  end.

(** [n] bounds the number of characters to drop: the length of [s] will do. *)
Fixpoint trimStart_upto (n : nat) (s : string) : string :=
  match n with
  | O => s
  | S n' =>
      match strip_white s with
      | Some rest => trimStart_upto n' rest
      | None => s
      end
  end.

Definition trimStart (s : string) : string := trimStart_upto (String.length s) s.

(** The part of [s] before its longest suffix of white space. *)
Fixpoint trimEnd (s : string) : string :=
  match s with
  | EmptyString => EmptyString
  | String c rest =>
      match trimStart s with
      | EmptyString => EmptyString
      | _ => String c (trimEnd rest)
      end
  end.

(** [s.trim()] *)
Definition trim (s : string) : string := trimEnd (trimStart s).

Definition upper_char (c : ascii) : ascii :=
  let n := nat_of_ascii c in
  if ((97 <=? n) && (n <=? 122))%nat then ascii_of_nat (n - 32) else c.

(** The characters outside ASCII whose upper-case form is made of ASCII
    letters. *)
Definition upper_special : list (string * string) :=
  [(utf8 [195; 159]%nat, "SS");         (* U+00DF, sharp s *)
   (utf8 [196; 177]%nat, "I");          (* U+0131, dotless i *)
   (utf8 [197; 191]%nat, "S");          (* U+017F, long s *)
   (utf8 [239; 172; 128]%nat, "FF");    (* U+FB00 to U+FB06, the ligatures *)
   (utf8 [239; 172; 129]%nat, "FI");
   (utf8 [239; 172; 130]%nat, "FL");
   (utf8 [239; 172; 131]%nat, "FFI");
   (utf8 [239; 172; 132]%nat, "FFL");
   (utf8 [239; 172; 133]%nat, "ST");
   (utf8 [239; 172; 134]%nat, "ST")].

Fixpoint toUpperCase_upto (n : nat) (s : string) : string :=
  match n, s with
  | S n', String c rest =>
      match List.find (fun p => String.prefix (fst p) s) upper_special with
      | Some p => (snd p ++ toUpperCase_upto n' (skip (String.length (fst p)) s))%string
      | None => String (upper_char c) (toUpperCase_upto n' rest)
      end
  | _, _ => EmptyString
  end.

(** [s.toUpperCase()], as far as the handlers use it: they compare the result
    with names in ASCII letters.  The letters a-z are mapped, and so are the
    characters of [upper_special].  Any other character outside ASCII has an
    upper-case form with a character outside ASCII in it; it stays as it is
    here, which leaves every comparison with an ASCII name as it is. *)
Definition toUpperCase (s : string) : string := toUpperCase_upto (String.length s) s.

(** [!s] for a string *)
Definition is_empty (s : string) : bool :=
  match s with EmptyString => true | _ => false end.

(** *** Parsed JSON

    What [req.json()] yields.  A number is an integer here, one that a double
    holds exactly and that [String] prints in full (magnitude below 2^53); a
    fraction or a larger number is outside this model.  An object is the list
    of its members as the text has them; of two members with one name the
    later one counts, as in [JSON.parse]. *)

Inductive Value : Type :=
| Null
| Bool (b : bool)
| Num (n : Z)
| Str (s : string)
| Arr (items : list Value)
| Obj (members : list (string * Value)).

(** A value that may be [undefined]: [None]. *)
Definition MaybeUndefined := option Value.

Fixpoint member (k : string) (ms : list (string * Value)) : MaybeUndefined :=
  match ms with
  | [] => None
  | (k', v) :: rest =>
      match member k rest with
      | Some later => Some later
      | None => if String.eqb k k' then Some v else None
      end
  end.

Definition number_to_string (n : Z) : string :=
  NilZero.string_of_int (Z.to_int n).

(** [v ? ... : ...] *)
Definition truthy (v : MaybeUndefined) : bool :=
  match v with
  | None | Some Null => false
  | Some (Bool b) => b
  | Some (Num n) => negb (n =? 0)
  | Some (Str s) => negb (is_empty s)
  | Some (Arr _) | Some (Obj _) => true
  end.

(** [v ?? ""] *)
Definition or_empty (v : MaybeUndefined) : Value :=
  match v with
  | None | Some Null => Str ""
  | Some x => x
  end.

(** *** Exceptions *)

Inductive Exn : Type :=
| SyntaxError            (* req.json() on a body that is not JSON *)
| TypeError              (* a property read on null; a value with no primitive *)
| PrismaValidationError  (* an argument the client refuses *)
| PrismaNotFound         (* P2025: the record to update or delete is absent *)
| PrismaUniqueViolation. (* P2002 *)

Definition Exc (A : Type) : Type := Exn + A.
Definition ret {A} (a : A) : Exc A := inr a.
Definition throw {A} (e : Exn) : Exc A := inl e.
Definition bind {A B} (m : Exc A) (k : A -> Exc B) : Exc B :=
  match m with
  | inl e => inl e
  | inr a => k a
  end.

Declare Scope exc_scope.
Delimit Scope exc_scope with exc.
Notation "'let*' x := m 'in' k" := (bind m (fun x => k))
  (at level 10, x name, m at level 100, k at level 200,
   format "'[v' 'let*'  x  :=  m  'in' '/' k ']'") : exc_scope.

(** [body.k]: a TypeError on null, undefined on a value without that
    property.  None of the names the handlers read is a property of a
    boolean, a number, a string or an array. *)
Definition get (body : Value) (k : string) : Exc MaybeUndefined :=
  match body with
  | Null => throw TypeError
  | Obj ms => ret (member k ms)
  | _ => ret None
  end.

(** *** Conversion to a string

    [String(v)] asks an object for its [toString].  A parsed object has the
    inherited one, which answers "[object Object]", unless it has a member of
    that name: the member is found first, no parsed value can be called, the
    inherited [valueOf] gives back the object, and the conversion ends in a
    TypeError.  An array joins the conversions of its items (none for a null
    item), and throws when one of them does. *)

Fixpoint unprintable (v : Value) : bool :=
  match v with
  | Obj ms => match member "toString" ms with Some _ => true | None => false end
  | Arr items =>
      (fix any (l : list Value) : bool :=
         match l with
         | [] => false
         | x :: rest => unprintable x || any rest
         end) items
  | _ => false
  end.

(** The string [String(v)] returns, when it returns. *)
Fixpoint printed (v : Value) : string :=
  match v with
  | Null => "null"
  | Bool true => "true"
  | Bool false => "false"
  | Num n => number_to_string n
  | Str s => s
  | Arr items =>
      (fix join (l : list Value) : string :=
         match l with
         | [] => ""
         | x :: rest =>
             let e := match x with Null => "" | _ => printed x end in
             match rest with
             | [] => e
             | _ => e ++ "," ++ join rest
             end
         end) items
  | Obj _ => "[object Object]"
  end.

(** [String(v)] *)
Definition ToString (v : Value) : Exc string :=
  if unprintable v then throw TypeError else ret (printed v).

(** *** Dates

    A [Date] holds a time value in milliseconds, or is invalid. *)

Inductive Date : Type :=
| TimeValue (t : Z)
| InvalidDate.

Definition max_time : Z := 8640000000000000.

Definition TimeClip (t : Z) : Date :=
  if Z.abs t <=? max_time then TimeValue t else InvalidDate.

Section NewDate.
(** [Date.parse] on a string; [None] is NaN.  Which texts beside the ISO
    format parse is up to the engine. *)
Variable Date_parse : string -> option Z.

Definition parsed_Date (s : string) : Date :=
  match Date_parse s with Some t => TimeClip t | None => InvalidDate end.

(** The date [new Date(v)] makes, when it makes one. *)
Definition date_value (v : Value) : Date :=
  match v with
  | Str s => parsed_Date s
  | Num n => TimeClip n
  | Bool b => TimeValue (if b then 1 else 0)
  | Null => TimeValue 0
  | Arr _ | Obj _ => parsed_Date (printed v)
  end.

(** [new Date(v)] for a parsed JSON value.  An object or an array is first
    made a primitive, which is its conversion to a string, and throws where
    that does. *)
Definition new_Date (v : Value) : Exc Date :=
  if unprintable v then throw TypeError else ret (date_value v).
End NewDate.

(** *** Numbers: [Math.round]

    The interview rate is computed on doubles. *)

Definition of_Z (z : Z) : float :=
  if z <? 0 then PrimFloat.opp (PrimFloat.of_uint63 (Uint63.of_Z (- z)))
  else PrimFloat.of_uint63 (Uint63.of_Z z).

(** The integer closest to [x], the larger one of two equally close. *)
Definition Math_round (x : float) : float :=
  match Prim2SF x with
  | S754_finite neg m e =>
      let n := if neg then Z.neg m else Z.pos m in
      if 0 <=? e then x
      else
        let r := (2 * n + 2 ^ (- e)) / 2 ^ (- e + 1) in
        if (r =? 0) && neg then PrimFloat.opp PrimFloat.zero else of_Z r
  | _ => x
  end.

End JS.
(** ** The Job table *)

Module Job.

(** Modelled from the spec: the [JobStatus] enum of [prisma/schema.prisma],
    which is not among the sources.  [page.tsx] declares the same five values
    as its [Status]. *)
Inductive Status : Type := SAVED | APPLIED | INTERVIEW | OFFER | REJECTED.

Global Instance Status_eq_dec : EqDecision Status.
Proof. solve_decision. Defined.

Definition name (s : Status) : string :=
  match s with
  | SAVED => "SAVED"
  | APPLIED => "APPLIED"
  | INTERVIEW => "INTERVIEW"
  | OFFER => "OFFER"
  | REJECTED => "REJECTED"
  end.

(** [Object.values(JobStatus)] *)
Definition values : list Status := [SAVED; APPLIED; INTERVIEW; OFFER; REJECTED].

(** [Object.values(JobStatus).includes(v) ? (v as JobStatus) : null] *)
Definition of_name (v : string) : option Status :=
  List.find (fun s => String.eqb (name s) v) values.

(** Modelled from the spec: the columns of the Job model of
    [prisma/schema.prisma], which is not among the sources.  [page.tsx]
    declares the same fields for its [Job].  A timestamp is a time value in
    milliseconds. *)
Record t : Type := mk {
  id : string;
  company : string;
  role : string;
  status : Status;
  location : option string;
  url : option string;
  salary : option string;
  notes : option string;
  nextAction : option string;
  nextActionAt : option Z;
  createdAt : Z;
  updatedAt : Z;
}.

Global Instance t_eq_dec : EqDecision t.
Proof. solve_decision. Defined.

(** [{ ...j, status: s }] *)
Definition with_status (j : t) (s : Status) : t :=
  mk (id j) (company j) (role j) s (location j) (url j) (salary j) (notes j)
     (nextAction j) (nextActionAt j) (createdAt j) (updatedAt j).

End Job.

(** ** The record store *)

(** The calls the handlers make on the Prisma client of [@/lib/prisma], over
    the table as a map from identifier to row.  [update] and [delete] of an
    absent identifier throw, as does a [Date] argument that is invalid.  The
    clock and the identifier that a [create] generates are inputs.

    Modelled from the spec: [prisma/schema.prisma] is not among the sources.
    The migrations under [prisma/migrations] are SQLite's, and the page names
    SQLite as its store; the client here is the one generated for that
    connector. *)
Module Prisma.

Abbreviation Store := (gmap string Job.t).

Module JobCreateInput.
Record t : Type := mk {
  company : string;
  role : string;
  status : Job.Status;
  location : option string;
  url : option string;
  salary : option string;
  notes : option string;
  nextAction : option string;
  nextActionAt : option JS.Date;
}.
End JobCreateInput.

(** A key of [data] that is absent (or [undefined]) is [None]; a key set to
    [null] is [Some None]. *)
Module JobUpdateInput.
Record t : Type := mk {
  company : option string;
  role : option string;
  status : option Job.Status;
  location : option (option string);
  url : option (option string);
  salary : option (option string);
  notes : option (option string);
  nextAction : option (option string);
  nextActionAt : option (option JS.Date);
}.

(** [data] has no key. *)
Definition is_empty (data : t) : bool :=
  match data with
  | mk None None None None None None None None None => true
  | _ => false
  end.
End JobUpdateInput.

Definition date_column (d : option JS.Date) : JS.Exc (option Z) :=
  match d with
  | None => JS.ret None
  | Some (JS.TimeValue t) => JS.ret (Some t)
  | Some JS.InvalidDate => JS.throw JS.PrismaValidationError
  end.

(** Modelled from the spec: the defaults of [prisma/schema.prisma], which is
    not among the sources.  The row a [create] inserts has the generated
    identifier, and the current time as [createdAt] and [updatedAt]. *)
Definition new_row (now : Z) (newId : string) (data : JobCreateInput.t)
    (at_ : option Z) : Job.t :=
  Job.mk newId
    (JobCreateInput.company data) (JobCreateInput.role data)
    (JobCreateInput.status data) (JobCreateInput.location data)
    (JobCreateInput.url data) (JobCreateInput.salary data)
    (JobCreateInput.notes data) (JobCreateInput.nextAction data)
    at_ now now.

(** [prisma.job.create({ data })] *)
Definition create (now : Z) (newId : string) (data : JobCreateInput.t)
    (db : Store) : JS.Exc (Job.t * Store) :=
  JS.bind (date_column (JobCreateInput.nextActionAt data)) (fun at_ =>
    match db !! newId with
    | Some _ => JS.throw JS.PrismaUniqueViolation
    | None =>
        let job := new_row now newId data at_ in
        JS.ret (job, <[newId := job]> db)
    end).

Definition date_change (d : option (option JS.Date)) : JS.Exc (option (option Z)) :=
  match d with
  | None => JS.ret None
  | Some x => JS.bind (date_column x) (fun c => JS.ret (Some c))
  end.

(** Modelled from the spec: the [updatedAt] column of [prisma/schema.prisma],
    which is not among the sources, is refreshed by an update that writes: one
    whose [data] has a key.  With no key in [data] nothing is written, and the
    row is returned as it is.  In the row an [update] leaves, the columns that
    [data] sets take the new value and the others keep theirs. *)
Definition merged (now : Z) (old : Job.t) (data : JobUpdateInput.t)
    (at_ : option (option Z)) : Job.t :=
  Job.mk (Job.id old)
    (default (Job.company old) (JobUpdateInput.company data))
    (default (Job.role old) (JobUpdateInput.role data))
    (default (Job.status old) (JobUpdateInput.status data))
    (default (Job.location old) (JobUpdateInput.location data))
    (default (Job.url old) (JobUpdateInput.url data))
    (default (Job.salary old) (JobUpdateInput.salary data))
    (default (Job.notes old) (JobUpdateInput.notes data))
    (default (Job.nextAction old) (JobUpdateInput.nextAction data))
    (default (Job.nextActionAt old) at_)
    (Job.createdAt old)
    (if JobUpdateInput.is_empty data then Job.updatedAt old else now).

(** [prisma.job.update({ where: { id }, data })] *)
Definition update (now : Z) (id : string) (data : JobUpdateInput.t)
    (db : Store) : JS.Exc (Job.t * Store) :=
  JS.bind (date_change (JobUpdateInput.nextActionAt data)) (fun at_ =>
    match db !! id with
    | None => JS.throw JS.PrismaNotFound
    | Some old =>
        let job := merged now old data at_ in
        JS.ret (job, <[id := job]> db)
    end).

(** [prisma.job.delete({ where: { id } })] *)
Definition delete (id : string) (db : Store) : JS.Exc (Job.t * Store) :=
  match db !! id with
  | None => JS.throw JS.PrismaNotFound
  | Some old => JS.ret (old, base.delete id db)
  end.

(** *** Queries *)

Inductive StringColumn : Type := col_company | col_role | col_notes | col_nextAction.

Definition column (c : StringColumn) (j : Job.t) : option string :=
  match c with
  | col_company => Some (Job.company j)
  | col_role => Some (Job.role j)
  | col_notes => Job.notes j
  | col_nextAction => Job.nextAction j
  end.

(** [{ c: { contains: q, mode: "insensitive" } }], the one string filter the
    handlers build. *)
Record StringFilter : Type := Contains { on : StringColumn; contains : string }.

(** [where]: each key that is present restricts the result. *)
Record JobWhereInput : Type := Where {
  where_status : option Job.Status;
  where_OR : option (list StringFilter);
}.

(** The restriction [where.status] puts on a row. *)
Definition matches (w : JobWhereInput) (j : Job.t) : bool :=
  match where_status w with
  | None => true
  | Some s => bool_decide (Job.status j = s)
  end.

Inductive SortOrder : Type := asc | desc.
Inductive OrderColumn : Type := by_updatedAt | by_createdAt | by_company.
Record OrderBy : Type := Order { by_ : OrderColumn; dir : SortOrder }.

Definition before (o : OrderBy) (a b : Job.t) : Prop :=
  match by_ o, dir o with
  | by_updatedAt, asc => Job.updatedAt a <= Job.updatedAt b
  | by_updatedAt, desc => Job.updatedAt b <= Job.updatedAt a
  | by_createdAt, asc => Job.createdAt a <= Job.createdAt b
  | by_createdAt, desc => Job.createdAt b <= Job.createdAt a
  | by_company, asc => String.le (Job.company a) (Job.company b)
  | by_company, desc => String.le (Job.company b) (Job.company a)
  end.

Global Instance before_dec o : RelDecision (before o).
Proof. intros a b. unfold before. destruct (by_ o), (dir o); apply _. Defined.

Definition rows (db : Store) : list Job.t := (map_to_list db).*2.

(** [prisma.job.findMany({ where, orderBy })].  The client of the SQLite
    connector has no [mode] argument for a string filter and refuses a query
    that carries one; an [OR] with no alternative holds of no row.  Rows that
    [orderBy] does not tell apart come in an order of the store's choosing,
    here that of their identifiers. *)
Definition findMany (w : JobWhereInput) (o : OrderBy) (db : Store)
    : JS.Exc (list Job.t) :=
  match where_OR w with
  | Some (_ :: _) => JS.throw JS.PrismaValidationError
  | Some [] => JS.ret []
  | None => JS.ret (merge_sort (before o) (filter (fun j => matches w j) (rows db)))
  end.

End Prisma.

(** ** Responses *)

Module NextResponse.

Inductive Body : Type :=
| Jobs (jobs : list Job.t)      (* { jobs } *)
| JobOf (job : Job.t)           (* { job } *)
| Ok                            (* { ok: true } *)
| Error (error : string)        (* { error } *)
| Unhandled.                    (* no JSON: the handler threw *)

Record t : Type := mk { body : Body; status : Z }.

(** [NextResponse.json(body)] and [NextResponse.json(body, { status })] *)
Definition json (b : Body) : t := mk b 200.
Definition json_with (b : Body) (s : Z) : t := mk b s.

(** What the framework answers when a handler lets an exception through. *)
Definition unhandled : t := mk Unhandled 500.

(** [res.ok] *)
Definition ok (r : t) : bool := (200 <=? status r) && (status r <=? 299).

End NextResponse.

(** A request body: what [await req.json()] gives, or the exception it throws. *)
Definition Request : Type := JS.Exc JS.Value.

(** ** The expressions both routes use *)

Module Field.

Import JS.
Local Open Scope exc_scope.

(** [String(v ?? "").trim()] *)
Definition trimmed (v : MaybeUndefined) : Exc string :=
  let* s := ToString (or_empty v) in
  ret (trim s).

(** [v ? String(v).trim() : null] *)
Definition text_or_null (v : MaybeUndefined) : Exc (option string) :=
  match v with
  | Some x =>
      if truthy v then
        let* s := ToString x in
        ret (Some (trim s))
      else ret None
  | None => ret None
  end.

(** [v ? new Date(v) : null] *)
Definition date_or_null (Date_parse : string -> option Z) (v : MaybeUndefined)
    : Exc (option Date) :=
  match v with
  | Some x =>
      if truthy v then
        let* d := new_Date Date_parse x in
        ret (Some d)
      else ret None
  | None => ret None
  end.

End Field.

(** ** [/api/jobs]: GET and POST *)

Module JobsRoute.

Import JS.
Local Open Scope exc_scope.

(** [normalizeStatus(input)]: the call, which throws where [String(input)]
    does, and what it returns when it returns. *)
Definition normalizeStatus_call (input : MaybeUndefined) : Exc (option Job.Status) :=
  let* text := ToString (or_empty input) in
  let v := toUpperCase (trim text) in
  if is_empty v || String.eqb v "ALL" then ret None
  else ret (Job.of_name v).

Definition normalizeStatus (input : MaybeUndefined) : option Job.Status :=
  let v := toUpperCase (trim (printed (or_empty input))) in
  if is_empty v || String.eqb v "ALL" then None
  else Job.of_name v.

Definition allowed : list string :=
  ["updated_desc"; "updated_asc"; "created_desc"; "created_asc";
   "company_asc"; "company_desc"].

(** [normalizeSort(input)]: the call, and what it returns when it returns. *)
Definition normalizeSort_call (input : MaybeUndefined) : Exc string :=
  let* text := ToString (or_empty input) in
  let v := trim text in
  ret (if bool_decide (v ∈ allowed) then v else "updated_desc").

Definition normalizeSort (input : MaybeUndefined) : string :=
  let v := trim (printed (or_empty input)) in
  if bool_decide (v ∈ allowed) then v else "updated_desc".

(** [url.searchParams.get(name)]: a string, or null *)
Definition searchParam (p : option string) : MaybeUndefined :=
  match p with
  | Some s => Some (Str s)
  | None => Some Null
  end.

Definition where_ (status : option Job.Status) (q : string) : Prisma.JobWhereInput :=
  Prisma.Where status
    (if is_empty q then None
     else Some [Prisma.Contains Prisma.col_company q;
                Prisma.Contains Prisma.col_role q;
                Prisma.Contains Prisma.col_notes q;
                Prisma.Contains Prisma.col_nextAction q]).

Definition orderBy (sort : string) : Prisma.OrderBy :=
  if String.eqb sort "updated_asc" then Prisma.Order Prisma.by_updatedAt Prisma.asc
  else if String.eqb sort "created_desc" then Prisma.Order Prisma.by_createdAt Prisma.desc
  else if String.eqb sort "created_asc" then Prisma.Order Prisma.by_createdAt Prisma.asc
  else if String.eqb sort "company_asc" then Prisma.Order Prisma.by_company Prisma.asc
  else if String.eqb sort "company_desc" then Prisma.Order Prisma.by_company Prisma.desc
  else Prisma.Order Prisma.by_updatedAt Prisma.desc.

(** The body of GET.  The three query parameters are [None] when the URL does
    not carry them. *)
Definition GET_body (q status sort : option string) (db : Prisma.Store)
    : Exc (NextResponse.t * Prisma.Store) :=
  let q := trim (default "" q) in                  (* (get("q") || "").trim() *)
  let* status := normalizeStatus_call (searchParam status) in
  let* sort := normalizeSort_call (searchParam sort) in
  let* jobs := Prisma.findMany (where_ status q) (orderBy sort) db in
  ret (NextResponse.json (NextResponse.Jobs jobs), db).

(** GET has no [try]: an exception leaves the handler, and the framework
    answers for it.  The handler reads the store and returns it untouched. *)
Definition GET (q status sort : option string) (db : Prisma.Store)
    : NextResponse.t * Prisma.Store :=
  match GET_body q status sort db with
  | inr done => done
  | inl _ => (NextResponse.unhandled, db)
  end.

Section Post.
Variable Date_parse : string -> option Z.

(** The body of the [try] block. *)
Definition POST_try (now : Z) (newId : string) (req : Request) (db : Prisma.Store)
    : Exc (NextResponse.t * Prisma.Store) :=
  let* body := req in
  let* c := get body "company" in
  let* company := Field.trimmed c in
  let* r := get body "role" in
  let* role := Field.trimmed r in
  if is_empty company || is_empty role then
    ret (NextResponse.json_with (NextResponse.Error "Company and role are required") 400, db)
  else
    let* s := get body "status" in
    let* normalized := normalizeStatus_call s in
    let status := default Job.SAVED normalized in
    let* l := get body "location" in
    let* location := Field.text_or_null l in
    let* u := get body "url" in
    let* url := Field.text_or_null u in
    let* sa := get body "salary" in
    let* salary := Field.text_or_null sa in
    let* n := get body "notes" in
    let* notes := Field.text_or_null n in
    let* na := get body "nextAction" in
    let* nextAction := Field.text_or_null na in
    let* at_ := get body "nextActionAt" in
    let* nextActionAt := Field.date_or_null Date_parse at_ in
    let* created :=
      Prisma.create now newId
        (Prisma.JobCreateInput.mk company role status location url salary notes
           nextAction nextActionAt) db in
    ret (NextResponse.json_with (NextResponse.JobOf (fst created)) 201, snd created).

Definition POST (now : Z) (newId : string) (req : Request) (db : Prisma.Store)
    : NextResponse.t * Prisma.Store :=
  match POST_try now newId req db with
  | inr done => done
  | inl _ => (NextResponse.json_with (NextResponse.Error "Failed to create job") 500, db)
  end.
End Post.

End JobsRoute.

(** ** [/api/jobs/[id]]: PATCH and DELETE *)

Module JobIdRoute.

Import JS.
Local Open Scope exc_scope.

(** [normalizeStatus(input)]: the call, which throws where [String(input)]
    does, and what it returns when it returns. *)
Definition normalizeStatus_call (input : MaybeUndefined) : Exc (option Job.Status) :=
  let* text := ToString (or_empty input) in
  let v := toUpperCase (trim text) in
  ret (Job.of_name v).

Definition normalizeStatus (input : MaybeUndefined) : option Job.Status :=
  let v := toUpperCase (trim (printed (or_empty input))) in
  Job.of_name v.

(** [if (v !== undefined) data.k = e] *)
Definition when_defined {A} (v : MaybeUndefined) (e : A) : option A :=
  match v with
  | Some _ => Some e
  | None => None
  end.

(** [if (v !== undefined) data.k = e], where evaluating [e] may throw *)
Definition set_when_defined {A} (v : MaybeUndefined) (e : Exc A) : Exc (option A) :=
  match v with
  | Some _ => let* x := e in ret (Some x)
  | None => ret None
  end.

(** [data.k !== undefined && !data.k] *)
Definition set_but_empty (k : option string) : bool :=
  match k with
  | Some s => is_empty s
  | None => false
  end.

Section Patch.
Variable Date_parse : string -> option Z.

(** The assignments to [data], from [const data: any = {}] on. *)
Definition data_of (body : Value) : Exc Prisma.JobUpdateInput.t :=
  let* c := get body "company" in
  let* company := set_when_defined c (Field.trimmed c) in
  let* r := get body "role" in
  let* role := set_when_defined r (Field.trimmed r) in
  let* s := get body "status" in
  let* status := match s with
                 | Some _ => normalizeStatus_call s    (* if (st) data.status = st *)
                 | None => ret None
                 end in
  let* l := get body "location" in
  let* location := set_when_defined l (Field.text_or_null l) in
  let* u := get body "url" in
  let* url := set_when_defined u (Field.text_or_null u) in
  let* sa := get body "salary" in
  let* salary := set_when_defined sa (Field.text_or_null sa) in
  let* n := get body "notes" in
  let* notes := set_when_defined n (Field.text_or_null n) in
  let* na := get body "nextAction" in
  let* nextAction := set_when_defined na (Field.text_or_null na) in
  let* at_ := get body "nextActionAt" in
  let* nextActionAt := set_when_defined at_ (Field.date_or_null Date_parse at_) in
  ret (Prisma.JobUpdateInput.mk company role status location url salary notes
         nextAction nextActionAt).

Definition PATCH_try (now : Z) (id : string) (req : Request) (db : Prisma.Store)
    : Exc (NextResponse.t * Prisma.Store) :=
  if is_empty id then
    ret (NextResponse.json_with (NextResponse.Error "Missing job id") 400, db)
  else
    let* body := req in
    let* data := data_of body in
    if set_but_empty (Prisma.JobUpdateInput.company data) then
      ret (NextResponse.json_with (NextResponse.Error "Company cannot be empty") 400, db)
    else if set_but_empty (Prisma.JobUpdateInput.role data) then
      ret (NextResponse.json_with (NextResponse.Error "Role cannot be empty") 400, db)
    else
      let* updated := Prisma.update now id data db in
      ret (NextResponse.json (NextResponse.JobOf (fst updated)), snd updated).

Definition PATCH (now : Z) (id : string) (req : Request) (db : Prisma.Store)
    : NextResponse.t * Prisma.Store :=
  match PATCH_try now id req db with
  | inr done => done
  | inl _ => (NextResponse.json_with (NextResponse.Error "Failed to update job") 500, db)
  end.
End Patch.

Definition DELETE_try (id : string) (db : Prisma.Store)
    : Exc (NextResponse.t * Prisma.Store) :=
  if is_empty id then
    ret (NextResponse.json_with (NextResponse.Error "Missing job id") 400, db)
  else
    let* deleted := Prisma.delete id db in
    ret (NextResponse.json NextResponse.Ok, snd deleted).

Definition DELETE (id : string) (db : Prisma.Store) : NextResponse.t * Prisma.Store :=
  match DELETE_try id db with
  | inr done => done
  | inl _ => (NextResponse.json_with (NextResponse.Error "Failed to delete job") 500, db)
  end.

End JobIdRoute.

(** ** [page.tsx]: the board's state *)

Module Page.

Inductive ToastKind : Type := success | danger | warning | info.

Record ToastMsg : Type := Toast {
  toast_id : string;
  kind : ToastKind;
  title : string;
  message : string;
}.

(** The part of the component's state that [stats], [moveJob] and [onDrop]
    read or write.  The jobs are those of the last response (which carries
    the timestamps as ISO texts; they play no part here).  [overCol] is a
    status or the empty string ([None]). *)
Record State : Type := mkState {
  jobs : list Job.t;
  toasts : list ToastMsg;
  dragId : string;
  overCol : option Job.Status;
}.

Definition setJobs (f : list Job.t -> list Job.t) (st : State) : State :=
  mkState (f (jobs st)) (toasts st) (dragId st) (overCol st).

Definition setToasts (f : list ToastMsg -> list ToastMsg) (st : State) : State :=
  mkState (jobs st) (f (toasts st)) (dragId st) (overCol st).

Definition setDragId (d : string) (st : State) : State :=
  mkState (jobs st) (toasts st) d (overCol st).

Definition setOverCol (c : option Job.Status) (st : State) : State :=
  mkState (jobs st) (toasts st) (dragId st) c.

(** [pushToast]; [uid] is the identifier [uid()] draws.  The timer that
    dismisses the toast 3.5 s later is the separate step [dismissToast]. *)
Definition pushToast (uid : string) (k : ToastKind) (title message : string)
    (st : State) : State :=
  setToasts (fun prev => take 4 (Toast uid k title message :: prev)) st.

Definition dismissToast (id : string) (st : State) : State :=
  setToasts (fun prev => filter (fun t => toast_id t ≠ id) prev) st.

(** *** Derived statistics *)

Module Counts.
Record t : Type := mk {
  SAVED : nat;
  APPLIED : nat;
  INTERVIEW : nat;
  OFFER : nat;
  REJECTED : nat;
}.
End Counts.

(** [counts[s]++] *)
Definition incr (c : Counts.t) (s : Job.Status) : Counts.t :=
  match s with
  | Job.SAVED =>
      Counts.mk (S (Counts.SAVED c)) (Counts.APPLIED c) (Counts.INTERVIEW c)
        (Counts.OFFER c) (Counts.REJECTED c)
  | Job.APPLIED =>
      Counts.mk (Counts.SAVED c) (S (Counts.APPLIED c)) (Counts.INTERVIEW c)
        (Counts.OFFER c) (Counts.REJECTED c)
  | Job.INTERVIEW =>
      Counts.mk (Counts.SAVED c) (Counts.APPLIED c) (S (Counts.INTERVIEW c))
        (Counts.OFFER c) (Counts.REJECTED c)
  | Job.OFFER =>
      Counts.mk (Counts.SAVED c) (Counts.APPLIED c) (Counts.INTERVIEW c)
        (S (Counts.OFFER c)) (Counts.REJECTED c)
  | Job.REJECTED =>
      Counts.mk (Counts.SAVED c) (Counts.APPLIED c) (Counts.INTERVIEW c)
        (Counts.OFFER c) (S (Counts.REJECTED c))
  end.

Record Stats : Type := mkStats {
  counts : Counts.t;
  total : nat;
  interviewRate : float;
}.

Definition number (n : nat) : float := JS.of_Z (Z.of_nat n).

(** [applied > 0 ? Math.round((interview / applied) * 100) : 0] *)
Definition rate (interview applied : nat) : float :=
  if (0 <? applied)%nat
  then JS.Math_round (PrimFloat.mul (PrimFloat.div (number interview) (number applied)) 100)
  else 0%float.

Definition stats (jobs : list Job.t) : Stats :=
  let counts :=
    fold_left (fun c j => incr c (Job.status j)) jobs (Counts.mk 0 0 0 0 0) in
  let applied := Counts.APPLIED counts in
  let interview := Counts.INTERVIEW counts in
  mkStats counts (length jobs) (rate interview applied).

(** *** The optimistic stage move

    [moveJob] runs up to its [await fetch(...)], and resumes when the fetch
    settles.  [Pending] holds what the suspended call keeps: its snapshot
    [prev] and its arguments. *)

Record Pending : Type := mkPending {
  prev : list Job.t;
  moved : string;
  newStatus : Job.Status;
}.

(** How a [fetch] settles: with a response, or by rejecting (no response
    arrived). *)
Inductive Settled : Type :=
| Resolved (res : NextResponse.t)
| Rejected.

(** The body [JSON.stringify({ status: newStatus })] sends. *)
Definition moveJob_body (s : Job.Status) : Request :=
  inr (JS.Obj [("status", JS.Str (Job.name s))]).

(** [moveJob], up to the [await]. *)
Definition moveJob (id : string) (s : Job.Status) (st : State) : State * Pending :=
  let prev := jobs st in
  (setJobs (fun p => (fun j => if bool_decide (Job.id j = id)
                               then Job.with_status j s else j) <$> p) st,
   mkPending prev id s).

(** [moveJob], from the [await] on.  A rejected fetch throws out of the
    function: nothing below the [await] runs. *)
Definition moveJob_resume (p : Pending) (uid : string) (r : Settled) (st : State)
    : State :=
  match r with
  | Rejected => st
  | Resolved res =>
      if negb (NextResponse.ok res) then
        pushToast uid danger "Failed" "Could not move job. Please try again."
          (setJobs (fun _ => prev p) st)
      else
        pushToast uid success "Updated"
          ("Moved to " ++ Job.name (newStatus p) ++ ".") st
  end.

(** [onDrop(col)]: the state when the handler returns, and the move it
    started, if any. *)
Definition onDrop (col : Job.Status) (st : State) : State * option Pending :=
  if JS.is_empty (dragId st) then (st, None)
  else
    let started := moveJob (dragId st) col st in
    (setOverCol None (setDragId "" (fst started)), Some (snd started)).

End Page.

(** * The vocabulary of the properties *)

(** ** Strings *)

(** A sequence of white space characters. *)
Inductive White : string -> Prop :=
| White_nil : White ""
| White_cons (w s : string) : w ∈ JS.white_space -> White s -> White (w ++ s)%string.

Definition starts_white (s : string) : Prop :=
  exists w rest, w ∈ JS.white_space /\ s = (w ++ rest)%string.

Definition ends_white (s : string) : Prop :=
  exists w init, w ∈ JS.white_space /\ s = (init ++ w)%string.

(** [t] is [s] without the white space around it: what is left out on either
    side is white space, and [t] neither starts nor ends with a white space
    character. *)
Definition trim_of (s t : string) : Prop :=
  (exists l r, s = (l ++ t ++ r)%string /\ White l /\ White r)
  /\ ~ starts_white t /\ ~ ends_white t.

(** ** Payloads *)

(** [body.k] for a body that is not null. *)
Definition field (body : JS.Value) (k : string) : JS.MaybeUndefined :=
  match body with
  | JS.Obj ms => JS.member k ms
  | _ => None
  end.

(** The names of the payload fields the handlers read. *)
Definition payload_keys : list string :=
  ["company"; "role"; "status"; "location"; "url"; "salary"; "notes";
   "nextAction"; "nextActionAt"].

(** [String(v)] (and [new Date(v)]) returns for the value of a field: the
    field is not there, or holds no object with a [toString] member. *)
Definition printable (v : JS.MaybeUndefined) : bool :=
  match v with
  | Some x => negb (JS.unprintable x)
  | None => true
  end.

(** The handlers convert the fields of [body] without an exception. *)
Definition convertible (body : JS.Value) : Prop :=
  forall k, k ∈ payload_keys -> printable (field body k) = true.

Definition converts (body : JS.Value) : bool :=
  forallb (fun k => printable (field body k)) payload_keys.

(** What [String(v ?? "").trim()], [v ? String(v).trim() : null] and
    [v ? new Date(v) : null] give for a printable [v]. *)
Definition trimmed (v : JS.MaybeUndefined) : string :=
  JS.trim (JS.printed (JS.or_empty v)).

Definition text_or_null (v : JS.MaybeUndefined) : option string :=
  match v with
  | Some x => if JS.truthy v then Some (JS.trim (JS.printed x)) else None
  | None => None
  end.

Definition date_or_null (Date_parse : string -> option Z) (v : JS.MaybeUndefined)
    : option JS.Date :=
  match v with
  | Some x => if JS.truthy v then Some (JS.date_value Date_parse x) else None
  | None => None
  end.

(** A payload value that is null or the empty string. *)
Definition empty_or_null (v : JS.Value) : Prop := v = JS.Null \/ v = JS.Str "".

(** The payload without its member [k]. *)
Definition without (k : string) (body : JS.Value) : JS.Value :=
  match body with
  | JS.Obj ms => JS.Obj (filter (fun m => fst m <> k) ms)
  | v => v
  end.

(** The [data] that PATCH builds from a body that is not null and whose fields
    it converts. *)
Definition patch_data (Date_parse : string -> option Z) (body : JS.Value)
    : Prisma.JobUpdateInput.t :=
  Prisma.JobUpdateInput.mk
    (JobIdRoute.when_defined (field body "company") (trimmed (field body "company")))
    (JobIdRoute.when_defined (field body "role") (trimmed (field body "role")))
    (match field body "status" with
     | Some _ => JobIdRoute.normalizeStatus (field body "status")
     | None => None
     end)
    (JobIdRoute.when_defined (field body "location") (text_or_null (field body "location")))
    (JobIdRoute.when_defined (field body "url") (text_or_null (field body "url")))
    (JobIdRoute.when_defined (field body "salary") (text_or_null (field body "salary")))
    (JobIdRoute.when_defined (field body "notes") (text_or_null (field body "notes")))
    (JobIdRoute.when_defined (field body "nextAction") (text_or_null (field body "nextAction")))
    (JobIdRoute.when_defined (field body "nextActionAt")
       (date_or_null Date_parse (field body "nextActionAt"))).

(** The [data] that POST hands to [create]. *)
Definition post_data (Date_parse : string -> option Z) (body : JS.Value)
    : Prisma.JobCreateInput.t :=
  Prisma.JobCreateInput.mk
    (trimmed (field body "company")) (trimmed (field body "role"))
    (default Job.SAVED (JobsRoute.normalizeStatus (field body "status")))
    (text_or_null (field body "location")) (text_or_null (field body "url"))
    (text_or_null (field body "salary")) (text_or_null (field body "notes"))
    (text_or_null (field body "nextAction"))
    (date_or_null Date_parse (field body "nextActionAt")).

(** The payload asks for a creation that the handler carries out: it is not
    null, its fields convert, company and role are not empty once trimmed,
    and [nextActionAt], if it is there and truthy, makes a valid date. *)
Definition creatable (Date_parse : string -> option Z) (body : JS.Value) : Prop :=
  body <> JS.Null /\ convertible body
  /\ trimmed (field body "company") <> "" /\ trimmed (field body "role") <> ""
  /\ date_or_null Date_parse (field body "nextActionAt") <> Some JS.InvalidDate.

(** [v] is supplied and trims to the empty string. *)
Definition supplied_blank (v : JS.MaybeUndefined) : bool :=
  match v with
  | Some _ => JS.is_empty (trimmed v)
  | None => false
  end.

(** The payload asks for an update that the handler carries out on a record
    that is there: it is not null, its fields convert, it supplies no company
    or role that trims to the empty string, and [nextActionAt], if it is there
    and truthy, makes a valid date. *)
Definition patchable (Date_parse : string -> option Z) (body : JS.Value) : Prop :=
  body <> JS.Null /\ convertible body
  /\ supplied_blank (field body "company") = false
  /\ supplied_blank (field body "role") = false
  /\ date_or_null Date_parse (field body "nextActionAt") <> Some JS.InvalidDate.

(** The payload has a company and a role that convert, and lacks one of them:
    it trims to the empty string. *)
Definition nameless (body : JS.Value) : Prop :=
  body <> JS.Null
  /\ printable (field body "company") = true /\ printable (field body "role") = true
  /\ (trimmed (field body "company") = "" \/ trimmed (field body "role") = "").

(** The update writes: the [data] PATCH builds from the payload has a key. *)
Definition writes (Date_parse : string -> option Z) (body : JS.Value) : bool :=
  negb (Prisma.JobUpdateInput.is_empty (patch_data Date_parse body)).

(** ** Responses and stores *)

Definition error_response (msg : string) (code : Z) : NextResponse.t :=
  NextResponse.json_with (NextResponse.Error msg) code.

(** The jobs of a [{ jobs }] response. *)
Definition listed (res : NextResponse.t) : list Job.t :=
  match NextResponse.body res with
  | NextResponse.Jobs l => l
  | _ => []
  end.

Definition stored (db : Prisma.Store) (j : Job.t) : Prop := exists k, db !! k = Some j.

(** The request carries no search text: [q] is absent, or white space only. *)
Definition blank (q : option string) : Prop := JS.trim (default "" q) = "".

(** [text] contains [q]. *)
Definition substring (q text : string) : Prop :=
  exists pre post, text = (pre ++ q ++ post)%string.

(** The restriction the [status] parameter puts on a job. *)
Definition status_allows (status : option string) (j : Job.t) : Prop :=
  forall s, JobsRoute.normalizeStatus (JobsRoute.searchParam status) = Some s -> Job.status j = s.

(** The payload names of the text columns, with the column each one sets. *)
Definition name_columns : list (string * (Job.t -> string)) :=
  [("company", Job.company); ("role", Job.role)].

Definition text_columns : list (string * (Job.t -> option string)) :=
  [("location", Job.location); ("url", Job.url); ("salary", Job.salary);
   ("notes", Job.notes); ("nextAction", Job.nextAction)].

(** What an update with payload [body] makes of the row [old]. *)
Definition updates_only_supplied (body : JS.Value) (old job : Job.t) : Prop :=
  (forall k col, (k, col) ∈ name_columns ->
     (field body k = None -> col job = col old)
     /\ (forall s, field body k = Some (JS.Str s) -> trim_of s (col job)))
  /\ (forall k col, (k, col) ∈ text_columns ->
        (field body k = None -> col job = col old)
        /\ (forall v, field body k = Some v -> empty_or_null v -> col job = None)
        /\ (forall s, field body k = Some (JS.Str s) -> s <> "" ->
              exists t, col job = Some t /\ trim_of s t))
  /\ (field body "status" = None -> Job.status job = Job.status old)
  /\ (field body "nextActionAt" = None -> Job.nextActionAt job = Job.nextActionAt old)
  /\ (forall v, field body "nextActionAt" = Some v -> empty_or_null v ->
        Job.nextActionAt job = None)
  /\ Job.id job = Job.id old
  /\ Job.createdAt job = Job.createdAt old.



(** A call of one of the four handlers, with what it draws from outside (the
    clock, the identifier a create generates). *)
Inductive Call : Type :=
| CallGET (q status sort : option string)
| CallPOST (now : Z) (newId : string) (req : Request)
| CallPATCH (now : Z) (id : string) (req : Request)
| CallDELETE (id : string).

Definition serve (Date_parse : string -> option Z) (c : Call) (db : Prisma.Store)
    : NextResponse.t * Prisma.Store :=
  match c with
  | CallGET q status sort => JobsRoute.GET q status sort db
  | CallPOST now newId req => JobsRoute.POST Date_parse now newId req db
  | CallPATCH now id req => JobIdRoute.PATCH Date_parse now id req db
  | CallDELETE id => JobIdRoute.DELETE id db
  end.

(** The store after a sequence of calls. *)
Definition run (Date_parse : string -> option Z) (calls : list Call) (db : Prisma.Store)
    : Prisma.Store :=
  fold_left (fun db c => snd (serve Date_parse c db)) calls db.

(** ** The board *)

(** The number of jobs of a list in stage [s]. *)
Definition count (s : Job.Status) (jobs : list Job.t) : nat :=
  length (filter (fun j => Job.status j = s) jobs).

(** The toasts [moveJob] pushes. *)
Definition move_failed (uid : string) : Page.ToastMsg :=
  Page.Toast uid Page.danger "Failed" "Could not move job. Please try again.".

Definition move_done (uid : string) (s : Job.Status) : Page.ToastMsg :=
  Page.Toast uid Page.success "Updated" ("Moved to " ++ Job.name s ++ ".").

(** ** Sample data *)

(** A [Date.parse] that knows two ISO texts; the examples hand it no other
    text that an engine would parse. *)
Definition sample_Date_parse (s : string) : option Z :=
  if String.eqb s "1970-01-01T00:00:00.000Z" then Some 0
  else if String.eqb s "2026-02-04T17:06:24.000Z" then Some 1770224784000
  else None.

Definition acme : Job.t :=
  Job.mk "job1" "Acme" "Engineer" Job.SAVED None None None (Some "Referral") None None 10 10.

Definition beta : Job.t :=
  Job.mk "job2" "Beta" "Developer" Job.APPLIED (Some "Leeds") None None None
         (Some "Call back") (Some 0) 20 30.

Definition db1 : Prisma.Store := {[ "job1" := acme ]}.
Definition db2 : Prisma.Store := <[ "job2" := beta ]> db1.

(** A board showing Acme (SAVED) and Beta (APPLIED), with Acme's card being
    dragged. *)
Definition board : Page.State := Page.mkState [acme; beta] [] "job1" (Some Job.APPLIED).

(** The body [moveJob] sends for a drop onto APPLIED. *)
Definition to_applied : Request := inr (JS.Obj [("status", JS.Str "APPLIED")]).

(** A payload that clears [notes], sets [location] and leaves the rest out. *)
Definition clear_notes : JS.Value :=
  JS.Obj [("notes", JS.Null); ("location", JS.Str "  Leeds ")].

(** Payloads for Create: a plain one, and one whose [nextActionAt] is a number
    past the largest time value (8.64e15 ms). *)
Definition create_acme : Request :=
  inr (JS.Obj [("company", JS.Str " Acme "); ("role", JS.Str "Engineer")]).

Definition create_late : JS.Value :=
  JS.Obj [("company", JS.Str "Acme"); ("role", JS.Str "Engineer");
          ("nextActionAt", JS.Num 9000000000000000)].

(** A payload whose role is an object with a [toString] member, which [String]
    cannot convert. *)
Definition create_odd : JS.Value :=
  JS.Obj [("company", JS.Str ""); ("role", JS.Obj [("toString", JS.Num 1)])].

(** A payload with a status outside the enum, and a note. *)
Definition to_pending : JS.Value :=
  JS.Obj [("status", JS.Str "pending"); ("notes", JS.Str "rang them")].

(** Payloads for Update with a member that [String] cannot convert: the
    status of the first, a note beside the empty company of the second. *)
Definition odd : JS.Value := JS.Obj [("toString", JS.Num 1)].

Definition to_odd_status : JS.Value :=
  JS.Obj [("status", odd); ("notes", JS.Str "rang them")].


(** ** The interview rate *)








(** * More of the code: vocabulary *)

(** ** The store *)

(** Every row is stored under its own identifier. *)
Definition keyed (db : Prisma.Store) : Prop :=
  forall k j, db !! k = Some j -> Job.id j = k.

(** The identifier a call writes under, if it writes at all. *)
Definition target (c : Call) : option string :=
  match c with
  | CallGET _ _ _ => None
  | CallPOST _ newId _ => Some newId
  | CallPATCH _ id _ => Some id
  | CallDELETE id => Some id
  end.

(** ** Payloads and rows *)

(** A payload that is not null and has none of the fields the handlers read:
    [{}], or a number, a string, an array. *)
Definition fieldless (body : JS.Value) : Prop :=
  body <> JS.Null /\ forall k, k ∈ payload_keys -> field body k = None.

(** [j] with [updatedAt] set to [now]. *)
Definition touched (j : Job.t) (now : Z) : Job.t :=
  Job.mk (Job.id j) (Job.company j) (Job.role j) (Job.status j) (Job.location j)
         (Job.url j) (Job.salary j) (Job.notes j) (Job.nextAction j)
         (Job.nextActionAt j) (Job.createdAt j) now.

(** What a create with payload [body] stores in the optional columns. *)
Definition optional_columns_of (body : JS.Value) (job : Job.t) : Prop :=
  (forall k col, (k, col) ∈ text_columns ->
     (field body k = None -> col job = None)
     /\ (forall v, field body k = Some v -> empty_or_null v -> col job = None)
     /\ (forall s, field body k = Some (JS.Str s) -> s <> "" ->
           exists t, col job = Some t /\ trim_of s t))
  /\ (field body "nextActionAt" = None -> Job.nextActionAt job = None)
  /\ (forall v, field body "nextActionAt" = Some v -> empty_or_null v ->
        Job.nextActionAt job = None)
  /\ (forall t, field body "nextActionAt" = Some (JS.Num t) -> t <> 0 ->
        Z.abs t <= JS.max_time -> Job.nextActionAt job = Some t).

(** ** Orders *)

(** The order that each sort key asks for, as a relation between a row and a
    later row of the answer. *)
Definition key_order (k : string) (a b : Job.t) : Prop :=
  if String.eqb k "updated_desc" then Job.updatedAt b <= Job.updatedAt a
  else if String.eqb k "updated_asc" then Job.updatedAt a <= Job.updatedAt b
  else if String.eqb k "created_desc" then Job.createdAt b <= Job.createdAt a
  else if String.eqb k "created_asc" then Job.createdAt a <= Job.createdAt b
  else if String.eqb k "company_asc" then String.le (Job.company a) (Job.company b)
  else if String.eqb k "company_desc" then String.le (Job.company b) (Job.company a)
  else False.

(** ** [page.tsx]: the columns and the toasts *)

Module Board.

(** An entry of [COLS]. *)
Record Col : Type := mkCol { key : Job.Status; title : string; badgeCls : string }.

Definition COLS : list Col :=
  [mkCol Job.SAVED "Saved" "badge-saved";
   mkCol Job.APPLIED "Applied" "badge-applied";
   mkCol Job.INTERVIEW "Interview" "badge-interview";
   mkCol Job.OFFER "Offer" "badge-offer";
   mkCol Job.REJECTED "Rejected" "badge-rejected"].

(** A [Map<Status, Job[]>]: its entries in insertion order. *)
Definition StatusMap : Type := list (Job.Status * list Job.t).

(** [m.get(k)] *)
Fixpoint get (m : StatusMap) (k : Job.Status) : option (list Job.t) :=
  match m with
  | [] => None
  | (k', v) :: rest => if decide (k' = k) then Some v else get rest k
  end.

(** [m.set(k, v)]: a key that is there keeps its place. *)
Fixpoint set (m : StatusMap) (k : Job.Status) (v : list Job.t) : StatusMap :=
  match m with
  | [] => [(k, v)]
  | (k', v') :: rest => if decide (k' = k) then (k', v) :: rest else (k', v') :: set rest k v
  end.

(** [m.get(k)?.push(j)] *)
Definition push (m : StatusMap) (k : Job.Status) (j : Job.t) : StatusMap :=
  match get m k with
  | Some l => set m k (l ++ [j])%list
  | None => m
  end.

(** [grouped] *)
Definition grouped (jobs : list Job.t) : StatusMap :=
  let m := fold_left (fun m c => set m (key c) []) COLS [] in
  fold_left (fun m j => push m (Job.status j) j) jobs m.

(** [grouped.get(col.key) ?? []], the list a column renders. *)
Definition column (jobs : list Job.t) (k : Job.Status) : list Job.t :=
  default [] (get (grouped jobs) k).

(** A toast is pushed, or dismissed (by its button or by its timer). *)
Inductive ToastEvent : Type :=
| Push (uid : string) (k : Page.ToastKind) (title message : string)
| Dismiss (id : string).

Definition toast_step (st : Page.State) (e : ToastEvent) : Page.State :=
  match e with
  | Push uid k title message => Page.pushToast uid k title message st
  | Dismiss id => Page.dismissToast id st
  end.

End Board.

(** ** [page.tsx]: loading and the confirmed mutations *)

Module App.

(** The values of the sort select. *)
Inductive SortKey : Type :=
| updated_desc | updated_asc | created_desc | created_asc | company_asc | company_desc.

Definition sort_text (k : SortKey) : string :=
  match k with
  | updated_desc => "updated_desc"
  | updated_asc => "updated_asc"
  | created_desc => "created_desc"
  | created_asc => "created_asc"
  | company_asc => "company_asc"
  | company_desc => "company_desc"
  end.

(** The state of [Page]: the part [Page.State] holds (jobs, toasts, drag
    state) and the rest of its [useState] cells.  [filterStatus] is a status
    or "ALL" ([None]). *)
Record State : Type := mk {
  board : Page.State;
  loading : bool;
  busy : bool;
  errorMsg : string;
  q : string;
  filterStatus : option Job.Status;
  sort : SortKey;
  company : string;
  role : string;
  notes : string;
  status : Job.Status;
  editOpen : bool;
  editJob : option Job.t;
  confirmOpen : bool;
  confirmJob : option Job.t;
}.

(** The initial values of the cells. *)
Definition init : State :=
  mk (Page.mkState [] [] "" None) true false "" "" None updated_desc
     "" "" "" Job.APPLIED false None false None.


Definition setBoard (v : Page.State) (st : State) : State :=
  mk v (loading st) (busy st) (errorMsg st) (q st) (filterStatus st) (sort st)
    (company st) (role st) (notes st) (status st) (editOpen st) (editJob st)
    (confirmOpen st) (confirmJob st).

Definition setLoading (v : bool) (st : State) : State :=
  mk (board st) v (busy st) (errorMsg st) (q st) (filterStatus st) (sort st)
    (company st) (role st) (notes st) (status st) (editOpen st) (editJob st)
    (confirmOpen st) (confirmJob st).

Definition setBusy (v : bool) (st : State) : State :=
  mk (board st) (loading st) v (errorMsg st) (q st) (filterStatus st) (sort st)
    (company st) (role st) (notes st) (status st) (editOpen st) (editJob st)
    (confirmOpen st) (confirmJob st).

Definition setErrorMsg (v : string) (st : State) : State :=
  mk (board st) (loading st) (busy st) v (q st) (filterStatus st) (sort st) (company st)
    (role st) (notes st) (status st) (editOpen st) (editJob st) (confirmOpen st)
    (confirmJob st).

Definition setQ (v : string) (st : State) : State :=
  mk (board st) (loading st) (busy st) (errorMsg st) v (filterStatus st) (sort st)
    (company st) (role st) (notes st) (status st) (editOpen st) (editJob st)
    (confirmOpen st) (confirmJob st).

Definition setFilterStatus (v : option Job.Status) (st : State) : State :=
  mk (board st) (loading st) (busy st) (errorMsg st) (q st) v (sort st) (company st)
    (role st) (notes st) (status st) (editOpen st) (editJob st) (confirmOpen st)
    (confirmJob st).

Definition setSort (v : SortKey) (st : State) : State :=
  mk (board st) (loading st) (busy st) (errorMsg st) (q st) (filterStatus st) v
    (company st) (role st) (notes st) (status st) (editOpen st) (editJob st)
    (confirmOpen st) (confirmJob st).

Definition setCompany (v : string) (st : State) : State :=
  mk (board st) (loading st) (busy st) (errorMsg st) (q st) (filterStatus st) (sort st)
    v (role st) (notes st) (status st) (editOpen st) (editJob st) (confirmOpen st)
    (confirmJob st).

Definition setRole (v : string) (st : State) : State :=
  mk (board st) (loading st) (busy st) (errorMsg st) (q st) (filterStatus st) (sort st)
    (company st) v (notes st) (status st) (editOpen st) (editJob st) (confirmOpen st)
    (confirmJob st).

Definition setNotes (v : string) (st : State) : State :=
  mk (board st) (loading st) (busy st) (errorMsg st) (q st) (filterStatus st) (sort st)
    (company st) (role st) v (status st) (editOpen st) (editJob st) (confirmOpen st)
    (confirmJob st).

Definition setStatus (v : Job.Status) (st : State) : State :=
  mk (board st) (loading st) (busy st) (errorMsg st) (q st) (filterStatus st) (sort st)
    (company st) (role st) (notes st) v (editOpen st) (editJob st) (confirmOpen st)
    (confirmJob st).

Definition setEditOpen (v : bool) (st : State) : State :=
  mk (board st) (loading st) (busy st) (errorMsg st) (q st) (filterStatus st) (sort st)
    (company st) (role st) (notes st) (status st) v (editJob st) (confirmOpen st)
    (confirmJob st).

Definition setEditJob (v : option Job.t) (st : State) : State :=
  mk (board st) (loading st) (busy st) (errorMsg st) (q st) (filterStatus st) (sort st)
    (company st) (role st) (notes st) (status st) (editOpen st) v (confirmOpen st)
    (confirmJob st).

Definition setConfirmOpen (v : bool) (st : State) : State :=
  mk (board st) (loading st) (busy st) (errorMsg st) (q st) (filterStatus st) (sort st)
    (company st) (role st) (notes st) (status st) (editOpen st) (editJob st) v
    (confirmJob st).

Definition setConfirmJob (v : option Job.t) (st : State) : State :=
  mk (board st) (loading st) (busy st) (errorMsg st) (q st) (filterStatus st) (sort st)
    (company st) (role st) (notes st) (status st) (editOpen st) (editJob st)
    (confirmOpen st) v.

Definition jobs (st : State) : list Job.t := Page.jobs (board st).
Definition toasts (st : State) : list Page.ToastMsg := Page.toasts (board st).

Definition setJobs (l : list Job.t) (st : State) : State :=
  setBoard (Page.setJobs (fun _ => l) (board st)) st.

Definition pushToast (uid : string) (k : Page.ToastKind) (title message : string)
    (st : State) : State :=
  setBoard (Page.pushToast uid k title message (board st)) st.

(** A request the page sends with [fetch]. *)
Inductive Fetch : Type :=
| FetchJobs (q status sort : option string)   (* GET /api/jobs?... *)
| FetchCreate (body : JS.Value)               (* POST /api/jobs *)
| FetchUpdate (id : string) (body : JS.Value) (* PATCH /api/jobs/id *)
| FetchDelete (id : string).                  (* DELETE /api/jobs/id *)

(** An async function of the page, as the steps it takes: state updates, and
    fetches it awaits.  [Throw] is a rejection that nothing catches: the steps
    after it do not run. *)
Inductive Task : Type :=
| Done
| Throw
| Update (f : State -> State) (next : Task)
| Await (req : Fetch) (k : Page.Settled -> Task).

(** [await t1(); t2] *)
Fixpoint then_ (t1 t2 : Task) : Task :=
  match t1 with
  | Done => t2
  | Throw => Throw
  | Update f next => Update f (then_ next t2)
  | Await req k => Await req (fun r => then_ (k r) t2)
  end.

(** The state a task leaves when its fetches settle as [net] says, one after
    the other; with fewer settlements than fetches, the state in which the
    task waits. *)
Fixpoint run (t : Task) (net : list Page.Settled) (st : State) : State :=
  match t with
  | Done | Throw => st
  | Update f next => run next net (f st)
  | Await req k =>
      match net with
      | [] => st
      | r :: net' => run (k r) net' st
      end
  end.

(** The requests the task has sent by then. *)
Fixpoint sent (t : Task) (net : list Page.Settled) : list Fetch :=
  match t with
  | Done | Throw => []
  | Update f next => sent next net
  | Await req k =>
      req :: match net with
             | [] => []
             | r :: net' => sent (k r) net'
             end
  end.

(** [loadJobs]; [st0] is the state of the render the function closes over. *)
Definition loadJobs (st0 : State) : Task :=
  Update (setLoading true) (
  Update (setErrorMsg "") (
  let q := JS.trim (q st0) in
  let params_q := if JS.is_empty q then None else Some q in
  let params_status := Job.name <$> filterStatus st0 in
  let params_sort := Some (sort_text (sort st0)) in
  Await (FetchJobs params_q params_status params_sort) (fun r =>
    match r with
    | Page.Rejected => Throw
    | Page.Resolved res =>
        if negb (NextResponse.ok res) then
          Update (setJobs []) (
          Update (setErrorMsg
                    "Failed to load jobs. Check your API route and database connection.") (
          Update (setLoading false) Done))
        else
          Update (setJobs (listed res)) (
          Update (setLoading false) Done)
    end))).

(** The body [addJob] sends. *)
Definition addJob_body (c r : string) (s : Job.Status) (notes : string) : JS.Value :=
  JS.Obj [("company", JS.Str c); ("role", JS.Str r); ("status", JS.Str (Job.name s));
          ("notes", if JS.is_empty (JS.trim notes) then JS.Null else JS.Str (JS.trim notes))].

(** [addJob]; [uid] is the identifier of the toast it pushes. *)
Definition addJob (uid : string) (st0 : State) : Task :=
  let c := JS.trim (company st0) in
  let r := JS.trim (role st0) in
  if JS.is_empty c || JS.is_empty r then
    Update (pushToast uid Page.warning "Missing info" "Please enter company and role.") Done
  else
    Update (setBusy true) (
    Await (FetchCreate (addJob_body c r (status st0) (notes st0))) (fun res =>
      match res with
      | Page.Rejected => Throw
      | Page.Resolved res =>
          if negb (NextResponse.ok res) then
            Update (pushToast uid Page.danger "Failed" "Could not add job. Please try again.") (
            Update (setBusy false) Done)
          else
            Update (setCompany "") (
            Update (setRole "") (
            Update (setNotes "") (
            Update (setStatus Job.APPLIED) (
            Update (pushToast uid Page.success "Added" "Job added successfully.") (
            then_ (loadJobs st0) (
            Update (setBusy false) Done))))))
      end)).

(** [onDragStart], [openEdit], [askDelete] *)
Definition onDragStart (id : string) (st : State) : State :=
  setBoard (Page.setDragId id (board st)) st.

Definition openEdit (job : Job.t) (st : State) : State :=
  setEditOpen true (setEditJob (Some job) st).

Definition askDelete (job : Job.t) (st : State) : State :=
  setConfirmOpen true (setConfirmJob (Some job) st).

(** [saveEdit(updated)] *)
Definition saveEdit (uid : string) (updated : JS.Value) (st0 : State) : Task :=
  match editJob st0 with
  | None => Done
  | Some job =>
      Update (setBusy true) (
      Await (FetchUpdate (Job.id job) updated) (fun res =>
        match res with
        | Page.Rejected => Throw
        | Page.Resolved res =>
            if negb (NextResponse.ok res) then
              Update (pushToast uid Page.danger "Failed" "Could not save changes.") (
              Update (setBusy false) Done)
            else
              Update (setEditOpen false) (
              Update (setEditJob None) (
              Update (pushToast uid Page.success "Saved" "Job updated.") (
              then_ (loadJobs st0) (
              Update (setBusy false) Done))))
        end))
  end.

(** [confirmDelete] *)
Definition confirmDelete (uid : string) (st0 : State) : Task :=
  match confirmJob st0 with
  | None => Done
  | Some job =>
      Update (setBusy true) (
      Await (FetchDelete (Job.id job)) (fun res =>
        match res with
        | Page.Rejected => Throw
        | Page.Resolved res =>
            if negb (NextResponse.ok res) then
              Update (pushToast uid Page.danger "Failed" "Could not delete job.") (
              Update (setBusy false) Done)
            else
              Update (setConfirmOpen false) (
              Update (setConfirmJob None) (
              Update (pushToast uid Page.success "Deleted" "Job deleted.") (
              then_ (loadJobs st0) (
              Update (setBusy false) Done))))
        end))
  end.

End App.

(** ** The page against the service *)

(** The service's answer to a request of the page, with the clock and the
    identifier a create would draw. *)
Definition answer (Date_parse : string -> option Z) (now : Z) (newId : string)
    (f : App.Fetch) (db : Prisma.Store) : NextResponse.t * Prisma.Store :=
  match f with
  | App.FetchJobs q status sort => JobsRoute.GET q status sort db
  | App.FetchCreate body => JobsRoute.POST Date_parse now newId (inr body) db
  | App.FetchUpdate id body => JobIdRoute.PATCH Date_parse now id (inr body) db
  | App.FetchDelete id => JobIdRoute.DELETE id db
  end.

(** A task run against the service, every fetch settling with the service's
    answer; [env] gives the clock and the fresh identifier for each fetch. *)
Fixpoint run_against (Date_parse : string -> option Z) (t : App.Task)
    (env : list (Z * string)) (db : Prisma.Store) (st : App.State)
    : App.State * Prisma.Store :=
  match t with
  | App.Done | App.Throw => (st, db)
  | App.Update f next => run_against Date_parse next env db (f st)
  | App.Await req k =>
      match env with
      | [] => (st, db)
      | (now, newId) :: env' =>
          let out := answer Date_parse now newId req db in
          run_against Date_parse (k (Page.Resolved (fst out))) env' (snd out) st
      end
  end.

(** ** States of the page, compared *)

(** The add form of [a] is that of [b]. *)
Definition same_form (a b : App.State) : Prop :=
  App.company a = App.company b /\ App.role a = App.role b
  /\ App.notes a = App.notes b /\ App.status a = App.status b.

(** The modals of [a] are those of [b]. *)
Definition same_modals (a b : App.State) : Prop :=
  App.editOpen a = App.editOpen b /\ App.editJob a = App.editJob b
  /\ App.confirmOpen a = App.confirmOpen b /\ App.confirmJob a = App.confirmJob b.

(** The request [loadJobs] sends from the render [st0]. *)
Definition reload (st0 : App.State) : App.Fetch :=
  App.FetchJobs (if JS.is_empty (JS.trim (App.q st0)) then None else Some (JS.trim (App.q st0)))
                (Job.name <$> App.filterStatus st0)
                (Some (App.sort_text (App.sort st0))).

(** The text the page shows when a load fails. *)
Definition load_failed : string :=
  "Failed to load jobs. Check your API route and database connection.".

(** The toasts of the confirmed mutations. *)
Definition toast_missing (uid : string) : Page.ToastMsg :=
  Page.Toast uid Page.warning "Missing info" "Please enter company and role.".

Definition toast_failed (uid message : string) : Page.ToastMsg :=
  Page.Toast uid Page.danger "Failed" message.

(** What the page holds after a reload that was answered with [res2]: the
    list and the error text. *)
Definition reloaded (res2 : NextResponse.t) : list Job.t * string :=
  if NextResponse.ok res2 then (listed res2, "") else ([], load_failed).

(** * Properties *)

(** ** Strings *)

Section Strings.

Import JS.

Lemma append_cons a (s t : string) : (String a s ++ t)%string = String a (s ++ t)%string.
Proof. reflexivity. Qed.

Lemma append_empty_l (t : string) : ("" ++ t)%string = t.
Proof. reflexivity. Qed.

Lemma append_empty_r (s : string) : (s ++ "")%string = s.
Proof. induction s as [|a s IH]; [reflexivity|]. rewrite append_cons. by f_equal. Qed.

Lemma append_assoc (s t u : string) : ((s ++ t) ++ u)%string = (s ++ (t ++ u))%string.
Proof. induction s as [|a s IH]; [reflexivity|]. rewrite !append_cons. by f_equal. Qed.

Lemma append_length (s t : string) :
  String.length (s ++ t) = (String.length s + String.length t)%nat.
Proof. induction s as [|a s IH]; [reflexivity|]. rewrite append_cons. simpl. by rewrite IH. Qed.

Lemma append_empty (s t : string) : (s ++ t)%string = "" -> s = "" /\ t = "".
Proof. destruct s; [by rewrite append_empty_l|done]. Qed.

Lemma is_empty_true (s : string) : is_empty s = true <-> s = "".
Proof. destruct s; simpl; split; congruence. Qed.

Lemma is_empty_false (s : string) : is_empty s = false <-> s <> "".
Proof. destruct s; simpl; split; congruence. Qed.

Lemma prefix_spec (p s : string) :
  String.prefix p s = true <-> exists post, s = (p ++ post)%string.
Proof.
  revert s. induction p as [|a p IH]; intros s; simpl.
  - split; [by exists s|by destruct s].
  - destruct s as [|b s]; [split; [done|by intros [? ?]]|].
    change (String.prefix (String a p) (String b s))
      with (if ascii_dec a b then String.prefix p s else false).
    destruct (ascii_dec a b) as [->|Hne].
    + rewrite IH. split; intros [post H]; exists post.
      * rewrite append_cons. by f_equal.
      * rewrite append_cons in H. by injection H.
    + split; [done|]. intros [post H]. rewrite append_cons in H. congruence.
Qed.

(** Of two prefixes of one string, one is a prefix of the other. *)
Lemma prefix_both (p q s t : string) :
  (p ++ s)%string = (q ++ t)%string -> String.prefix p q = true \/ String.prefix q p = true.
Proof.
  revert q. induction p as [|a p IH]; intros q H.
  - left. by destruct q.
  - destruct q as [|b q]; [by right|].
    rewrite !append_cons in H. injection H as -> H.
    change (String.prefix (String b p) (String b q))
      with (if ascii_dec b b then String.prefix p q else false).
    change (String.prefix (String b q) (String b p))
      with (if ascii_dec b b then String.prefix q p else false).
    destruct (ascii_dec b b); [|done]. by apply IH.
Qed.

Lemma skip_append (w rest : string) : skip (String.length w) (w ++ rest) = rest.
Proof. induction w as [|a w IH]; [by destruct rest|]. by rewrite append_cons. Qed.

(** *** White space *)

Lemma white_space_not_empty (w : string) : w ∈ white_space -> w <> "".
Proof.
  intros Hw ->. revert Hw. rewrite list_elem_of_In.
  assert (forallb (fun w => negb (is_empty w)) white_space = true) as H
    by (vm_compute; reflexivity).
  rewrite forallb_forall in H. intros Hin. by apply H in Hin.
Qed.

(** No white space character's encoding starts another's. *)
Lemma white_space_prefix_free (w w' : string) :
  w ∈ white_space -> w' ∈ white_space -> String.prefix w w' = true -> w = w'.
Proof.
  rewrite !list_elem_of_In. intros Hw Hw' Hp.
  assert (forallb (fun w => forallb (fun w' =>
            implb (String.prefix w w') (String.eqb w w')) white_space) white_space = true)
    as H by (vm_compute; reflexivity).
  rewrite forallb_forall in H. specialize (H w Hw).
  rewrite forallb_forall in H. specialize (H w' Hw').
  rewrite Hp in H. by apply String.eqb_eq.
Qed.

Lemma strip_white_Some (s rest : string) :
  strip_white s = Some rest <-> exists w, w ∈ white_space /\ s = (w ++ rest)%string.
Proof.
  unfold strip_white. split.
  - destruct (List.find _ white_space) as [w|] eqn:Hf; [|done].
    intros [= <-]. apply find_some in Hf as [Hw [post ->]%prefix_spec].
    exists w. by rewrite skip_append, list_elem_of_In.
  - intros (w & Hw & ->).
    destruct (List.find _ white_space) as [w'|] eqn:Hf.
    + apply find_some in Hf as [Hw' [post Hpost]%prefix_spec].
      apply list_elem_of_In in Hw'.
      assert (w = w') as <-.
      { destruct (prefix_both _ _ _ _ Hpost) as [H|H].
        - by apply white_space_prefix_free.
        - symmetry. by apply white_space_prefix_free. }
      by rewrite skip_append.
    + apply list_elem_of_In in Hw.
      pose proof (find_none _ _ Hf w Hw) as H. cbv beta in H.
      assert (String.prefix w (w ++ rest) = true) as Hp by (apply prefix_spec; by exists rest).
      congruence.
Qed.

Lemma strip_white_None (s : string) : strip_white s = None <-> ~ starts_white s.
Proof.
  split.
  - intros H (w & rest & Hw & ->).
    assert (strip_white (w ++ rest) = Some rest) as H' by (apply strip_white_Some; eauto).
    congruence.
  - intros H. destruct (strip_white s) as [rest|] eqn:E; [|done].
    apply strip_white_Some in E as (w & Hw & ->). destruct H. by exists w, rest.
Qed.

Lemma empty_not_white : ~ starts_white "" /\ ~ ends_white "".
Proof.
  split.
  - intros (w & rest & Hw & H). symmetry in H. apply append_empty in H as [-> _].
    by apply white_space_not_empty in Hw.
  - intros (w & init & Hw & H). symmetry in H. apply append_empty in H as [_ ->].
    by apply white_space_not_empty in Hw.
Qed.

Lemma White_app (l r : string) : White l -> White r -> White (l ++ r).
Proof.
  induction 1 as [|w s Hw Hs IH]; intros Hr; [done|].
  rewrite append_assoc. constructor; auto.
Qed.

Lemma White_one (w : string) : w ∈ white_space -> White w.
Proof.
  intros Hw. pose proof (White_cons w "" Hw White_nil) as H. by rewrite append_empty_r in H.
Qed.

(** A sequence of white space is empty or ends with a white space
    character. *)
Lemma White_ends (s : string) : White s -> s = "" \/ ends_white s.
Proof.
  induction 1 as [|w s Hw Hs [-> | (w' & init & Hw' & ->)]]; [by left|right..].
  - exists w, "". by rewrite append_empty_r.
  - exists w', (w ++ init)%string. by rewrite append_assoc.
Qed.

(** [trimStart] drops the white space [s] starts with, and no more. *)
Lemma trimStart_upto_spec (n : nat) (s : string) :
  (String.length s <= n)%nat ->
  exists l, s = (l ++ trimStart_upto n s)%string /\ White l
            /\ ~ starts_white (trimStart_upto n s).
Proof.
  revert s. induction n as [|n IH]; intros s Hn.
  - destruct s; [|simpl in Hn; lia]. exists "". split_and!; [done|constructor|].
    apply empty_not_white.
  - simpl. destruct (strip_white s) as [rest|] eqn:E.
    + apply strip_white_Some in E as (w & Hw & ->).
      pose proof (white_space_not_empty _ Hw) as Hne.
      rewrite append_length in Hn.
      destruct (IH rest) as (l & Hl & HW & Hst).
      { destruct w; [done|]. simpl in Hn. lia. }
      exists (w ++ l)%string. rewrite append_assoc, <- Hl. split_and!; [done| |done].
      by constructor.
    + exists "". split_and!; [done|constructor|]. by apply strip_white_None.
Qed.

Lemma trimStart_spec (s : string) :
  exists l, s = (l ++ trimStart s)%string /\ White l /\ ~ starts_white (trimStart s).
Proof. by apply trimStart_upto_spec. Qed.

Lemma trimStart_upto_White (n : nat) (s : string) :
  White s -> (String.length s <= n)%nat -> trimStart_upto n s = "".
Proof.
  intros H. revert n. induction H as [|w s Hw Hs IH]; intros n Hn.
  - by destruct n.
  - pose proof (white_space_not_empty _ Hw) as Hne. rewrite append_length in Hn.
    destruct n as [|n]; [destruct w; [done|simpl in Hn; lia]|].
    simpl. assert (strip_white (w ++ s) = Some s) as -> by (apply strip_white_Some; eauto).
    apply IH. destruct w; [done|]. simpl in Hn. lia.
Qed.

(** A string is white space throughout exactly when [trimStart] leaves
    nothing of it. *)
Lemma White_trimStart (s : string) : White s <-> trimStart s = "".
Proof.
  split.
  - intros H. by apply trimStart_upto_White.
  - intros H. destruct (trimStart_spec s) as (l & Hs & Hl & _).
    rewrite H, append_empty_r in Hs. by subst.
Qed.

Lemma trimStart_fixed (s : string) : ~ starts_white s -> trimStart s = s.
Proof.
  intros H%strip_white_None. unfold trimStart.
  destruct (String.length s); [done|]. simpl. by rewrite H.
Qed.

Lemma trimEnd_cons (c : ascii) (rest : string) :
  trimEnd (String c rest)
  = if is_empty (trimStart (String c rest)) then "" else String c (trimEnd rest).
Proof. simpl. by destruct (trimStart (String c rest)). Qed.

(** [trimEnd] drops the white space [s] ends with, and no more. *)
Lemma trimEnd_spec (s : string) :
  exists r, s = (trimEnd s ++ r)%string /\ White r /\ ~ ends_white (trimEnd s).
Proof.
  induction s as [|c s (r & Hs & Hr & Hen)].
  - exists "". split_and!; [done|constructor|]. apply empty_not_white.
  - rewrite trimEnd_cons. destruct (is_empty (trimStart (String c s))) eqn:E.
    + apply is_empty_true, White_trimStart in E.
      exists (String c s). split_and!; [done|done|]. apply empty_not_white.
    + exists r. rewrite append_cons, <- Hs. split_and!; [done|done|].
      intros (w & init & Hw & H). destruct init as [|d init].
      * rewrite append_empty_l in H.
        assert (White (String c s)) as HW.
        { rewrite Hs, <- append_cons, H. by constructor. }
        apply White_trimStart in HW. by rewrite HW in E.
      * rewrite append_cons in H. injection H as _ H. destruct Hen. by exists w, init.
Qed.

Lemma trimEnd_starts (s : string) : ~ starts_white s -> ~ starts_white (trimEnd s).
Proof.
  intros H (w & rest & Hw & Ht). destruct (trimEnd_spec s) as (r & Hs & _).
  destruct H. exists w, (rest ++ r)%string. by rewrite Hs, Ht, append_assoc.
Qed.

Lemma trimEnd_fixed (s : string) : ~ ends_white s -> trimEnd s = s.
Proof.
  intros H. destruct (trimEnd_spec s) as (r & Hs & Hr & _).
  destruct (White_ends r Hr) as [-> | (w & init & Hw & ->)].
  - by rewrite append_empty_r in Hs.
  - destruct H. exists w, (trimEnd s ++ init)%string. by rewrite append_assoc.
Qed.

(** [trim] removes white space on both sides and nothing else. *)
Lemma trim_spec (s : string) : trim_of s (trim s).
Proof.
  destruct (trimStart_spec s) as (l & Hs & Hl & Hst).
  destruct (trimEnd_spec (trimStart s)) as (r & Hs' & Hr & Hen).
  unfold trim. split_and!; [|by apply trimEnd_starts|done].
  exists l, r. by rewrite <- Hs'.
Qed.

(** A string trims to the empty string exactly when it is white space
    throughout. *)
Lemma trim_empty (s : string) : trim s = "" <-> White s.
Proof.
  split.
  - intros H. destruct (trim_spec s) as [(l & r & Hs & Hl & Hr) _].
    rewrite H, append_empty_l in Hs. subst. by apply White_app.
  - intros H%White_trimStart. unfold trim. by rewrite H.
Qed.

Lemma trim_fixed (s : string) : ~ starts_white s -> ~ ends_white s -> trim s = s.
Proof. intros H1 H2. unfold trim. by rewrite (trimStart_fixed _ H1), trimEnd_fixed. Qed.

Lemma trim_idempotent (s : string) : trim (trim s) = trim s.
Proof. destruct (trim_spec s) as (_ & H1 & H2). by apply trim_fixed. Qed.

(** *** The enum *)

Lemma of_name_name (s : Job.Status) : Job.of_name (Job.name s) = Some s.
Proof. by destruct s. Qed.

Lemma of_name_Some (v : string) (s : Job.Status) : Job.of_name v = Some s -> v = Job.name s.
Proof.
  unfold Job.of_name. intros H. apply find_some in H as [_ H].
  symmetry. by apply String.eqb_eq.
Qed.

Lemma of_name_None (v : string) :
  Job.of_name v = None <-> v ∉ Job.name <$> Job.values.
Proof.
  split.
  - intros H (s & -> & _)%list_elem_of_fmap. by rewrite of_name_name in H.
  - intros H. destruct (Job.of_name v) as [s|] eqn:E; [|done].
    apply of_name_Some in E as ->. destruct H.
    apply list_elem_of_fmap. exists s. split; [done|]. destruct s; set_solver.
Qed.

End Strings.

(** ** Derived statistics *)

Section Statistics.

Import Page.

Lemma count_cons (s : Job.Status) (j : Job.t) (jobs : list Job.t) :
  count s (j :: jobs) = ((if decide (Job.status j = s) then 1 else 0) + count s jobs)%nat.
Proof. unfold count. rewrite filter_cons. by destruct (decide (Job.status j = s)). Qed.

(** The loop [for (const j of jobs) counts[j.status]++] adds, to each counter,
    the number of jobs in that stage. *)
Lemma counting_loop (jobs : list Job.t) (c : Counts.t) :
  fold_left (fun c j => incr c (Job.status j)) jobs c
  = Counts.mk (Counts.SAVED c + count Job.SAVED jobs)
              (Counts.APPLIED c + count Job.APPLIED jobs)
              (Counts.INTERVIEW c + count Job.INTERVIEW jobs)
              (Counts.OFFER c + count Job.OFFER jobs)
              (Counts.REJECTED c + count Job.REJECTED jobs).
Proof.
  revert c. induction jobs as [|j jobs IH]; intros c.
  - destruct c. simpl. unfold count. simpl. f_equal; lia.
  - simpl. rewrite IH, !count_cons.
    destruct c, (Job.status j); simpl; f_equal; lia.
Qed.

Lemma stats_counts (jobs : list Job.t) :
  counts (stats jobs)
  = Counts.mk (count Job.SAVED jobs) (count Job.APPLIED jobs) (count Job.INTERVIEW jobs)
              (count Job.OFFER jobs) (count Job.REJECTED jobs).
Proof. unfold stats. simpl. by rewrite counting_loop. Qed.


(** [Math.round] on a few doubles: halves go up. *)
Example Math_round_halves :
  JS.Math_round 14.5 = 15%float /\ JS.Math_round 2.5 = 3%float
  /\ JS.Math_round (-2.5) = (-2)%float /\ JS.Math_round 0.25 = 0%float
  /\ JS.Math_round 50 = 50%float.
Proof. repeat split; vm_compute; reflexivity. Qed.

(** The quotient and the product are those of doubles: with 29 interviews for
    200 applications the product is just below 14.5, and the rate is 14. *)
Example rate_29_of_200 :
  PrimFloat.mul (PrimFloat.div (number 29) (number 200)) 100 = 0x1.cffffffffffffp+3%float
  /\ rate 29 200 = 14%float.
Proof. split; vm_compute; reflexivity. Qed.





End Statistics.


(** ** The handlers, case by case *)

Section Handlers.

Variable Date_parse : string -> option Z.

Lemma null_or_not (body : JS.Value) : body = JS.Null \/ body <> JS.Null.
Proof. destruct body; auto. Qed.

Lemma get_field (body : JS.Value) (k : string) :
  body <> JS.Null -> JS.get body k = inr (field body k).
Proof. by destruct body. Qed.

(** *** Conversions: the call, and its value where it returns *)

Lemma converts_spec (body : JS.Value) : converts body = true <-> convertible body.
Proof.
  unfold converts, convertible. rewrite forallb_forall.
  split; intros H k Hk; apply H; by apply list_elem_of_In.
Qed.

Lemma converts_false (body : JS.Value) : converts body = false <-> ~ convertible body.
Proof. rewrite <- converts_spec. by destruct (converts body). Qed.

Lemma ToString_or_empty (v : JS.MaybeUndefined) :
  JS.ToString (JS.or_empty v)
  = if printable v then inr (JS.printed (JS.or_empty v)) else inl JS.TypeError.
Proof.
  unfold JS.ToString. destruct v as [x|]; [|done].
  destruct x; try done; cbn [JS.or_empty printable]; by destruct (JS.unprintable _).
Qed.

Lemma Field_trimmed (v : JS.MaybeUndefined) :
  Field.trimmed v = if printable v then inr (trimmed v) else inl JS.TypeError.
Proof. unfold Field.trimmed. rewrite ToString_or_empty. by destruct (printable v). Qed.

Lemma Field_text_or_null (v : JS.MaybeUndefined) :
  Field.text_or_null v = if printable v then inr (text_or_null v) else inl JS.TypeError.
Proof.
  destruct v as [x|]; [|done]. unfold Field.text_or_null, text_or_null, JS.ToString.
  cbn [printable]. destruct (JS.unprintable x) eqn:Hx; cbn [negb].
  - by destruct x.
  - by destruct (JS.truthy (Some x)).
Qed.

Lemma Field_date_or_null (v : JS.MaybeUndefined) :
  Field.date_or_null Date_parse v
  = if printable v then inr (date_or_null Date_parse v) else inl JS.TypeError.
Proof.
  destruct v as [x|]; [|done]. unfold Field.date_or_null, date_or_null, JS.new_Date.
  cbn [printable]. destruct (JS.unprintable x) eqn:Hx; cbn [negb].
  - by destruct x.
  - by destruct (JS.truthy (Some x)).
Qed.

Lemma JobsRoute_normalizeStatus_call (v : JS.MaybeUndefined) :
  JobsRoute.normalizeStatus_call v
  = if printable v then inr (JobsRoute.normalizeStatus v) else inl JS.TypeError.
Proof.
  unfold JobsRoute.normalizeStatus_call, JobsRoute.normalizeStatus.
  rewrite ToString_or_empty. destruct (printable v); [|done]. cbn [JS.bind]. cbv zeta.
  by destruct (_ || _).
Qed.

Lemma JobsRoute_normalizeSort_call (v : JS.MaybeUndefined) :
  JobsRoute.normalizeSort_call v
  = if printable v then inr (JobsRoute.normalizeSort v) else inl JS.TypeError.
Proof.
  unfold JobsRoute.normalizeSort_call, JobsRoute.normalizeSort.
  rewrite ToString_or_empty. by destruct (printable v).
Qed.

Lemma JobIdRoute_normalizeStatus_call (v : JS.MaybeUndefined) :
  JobIdRoute.normalizeStatus_call v
  = if printable v then inr (JobIdRoute.normalizeStatus v) else inl JS.TypeError.
Proof.
  unfold JobIdRoute.normalizeStatus_call, JobIdRoute.normalizeStatus.
  rewrite ToString_or_empty. by destruct (printable v).
Qed.

Lemma set_when_defined_spec {A} (v : JS.MaybeUndefined) (e : JS.Exc A) (a : A) :
  e = (if printable v then inr a else inl JS.TypeError) ->
  JobIdRoute.set_when_defined v e
  = if printable v then inr (JobIdRoute.when_defined v a) else inl JS.TypeError.
Proof. intros ->. destruct v as [x|]; [|done]. cbn. by destruct (JS.unprintable x). Qed.

(** A query parameter is a string or null: its conversion returns. *)
Lemma printable_searchParam (p : option string) : printable (JobsRoute.searchParam p) = true.
Proof. by destruct p. Qed.

(** *** POST *)

(** POST on a body that is not JSON, or is [null]: the exception is caught. *)
Lemma POST_throws now newId (req : Request) db :
  (exists e, req = inl e) \/ req = inr JS.Null ->
  JobsRoute.POST Date_parse now newId req db = (error_response "Failed to create job" 500, db).
Proof. by intros [[e ->]| ->]. Qed.

Lemma POST_non_null now newId (body : JS.Value) db :
  body <> JS.Null ->
  JobsRoute.POST Date_parse now newId (inr body) db
  = if printable (field body "company") && printable (field body "role") then
      if JS.is_empty (trimmed (field body "company")) || JS.is_empty (trimmed (field body "role"))
      then (error_response "Company and role are required" 400, db)
      else if converts body then
        match Prisma.create now newId (post_data Date_parse body) db with
        | inr created =>
            (NextResponse.json_with (NextResponse.JobOf (fst created)) 201, snd created)
        | inl _ => (error_response "Failed to create job" 500, db)
        end
      else (error_response "Failed to create job" 500, db)
    else (error_response "Failed to create job" 500, db).
Proof.
  intros Hb. unfold JobsRoute.POST, JobsRoute.POST_try.
  cbn [JS.bind]. rewrite !(get_field _ _ Hb). cbn [JS.bind].
  rewrite !Field_trimmed, !Field_text_or_null, Field_date_or_null,
    JobsRoute_normalizeStatus_call.
  unfold converts, payload_keys. cbn [forallb].
  destruct (printable (field body "company")); [|reflexivity].
  destruct (printable (field body "role")); [|reflexivity].
  cbn [JS.bind andb]. destruct (_ || _); [reflexivity|].
  destruct (printable (field body "status")); [|reflexivity].
  destruct (printable (field body "location")); [|reflexivity].
  destruct (printable (field body "url")); [|reflexivity].
  destruct (printable (field body "salary")); [|reflexivity].
  destruct (printable (field body "notes")); [|reflexivity].
  destruct (printable (field body "nextAction")); [|reflexivity].
  destruct (printable (field body "nextActionAt")); [|reflexivity].
  cbn [JS.bind andb]. unfold post_data.
  by destruct (Prisma.create _ _ _ _).
Qed.

(** *** PATCH *)

Lemma data_of_non_null (body : JS.Value) :
  body <> JS.Null ->
  JobIdRoute.data_of Date_parse body
  = if converts body then inr (patch_data Date_parse body) else inl JS.TypeError.
Proof.
  intros Hb. unfold JobIdRoute.data_of.
  rewrite !(get_field _ _ Hb). cbn [JS.bind].
  rewrite !(set_when_defined_spec _ _ _ (Field_trimmed _)),
    !(set_when_defined_spec _ _ _ (Field_text_or_null _)),
    (set_when_defined_spec _ _ _ (Field_date_or_null _)).
  unfold converts, payload_keys. cbn [forallb].
  destruct (printable (field body "company")); [|reflexivity].
  destruct (printable (field body "role")); [|reflexivity].
  cbn [JS.bind andb].
  assert (match field body "status" with
          | Some _ => JobIdRoute.normalizeStatus_call (field body "status")
          | None => JS.ret None
          end
          = if printable (field body "status")
            then inr (match field body "status" with
                      | Some _ => JobIdRoute.normalizeStatus (field body "status")
                      | None => None
                      end)
            else inl JS.TypeError) as ->.
  { destruct (field body "status") as [x|]; [|done]. apply JobIdRoute_normalizeStatus_call. }
  destruct (printable (field body "status")); [|reflexivity].
  destruct (printable (field body "location")); [|reflexivity].
  destruct (printable (field body "url")); [|reflexivity].
  destruct (printable (field body "salary")); [|reflexivity].
  destruct (printable (field body "notes")); [|reflexivity].
  destruct (printable (field body "nextAction")); [|reflexivity].
  destruct (printable (field body "nextActionAt")); [|reflexivity].
  reflexivity.
Qed.

Lemma PATCH_no_id now (req : Request) db :
  JobIdRoute.PATCH Date_parse now "" req db = (error_response "Missing job id" 400, db).
Proof. reflexivity. Qed.

Lemma PATCH_throws now id (req : Request) db :
  id <> "" -> (exists e, req = inl e) \/ req = inr JS.Null ->
  JobIdRoute.PATCH Date_parse now id req db = (error_response "Failed to update job" 500, db).
Proof.
  intros Hid%is_empty_false H. unfold JobIdRoute.PATCH, JobIdRoute.PATCH_try.
  rewrite Hid. by destruct H as [[e ->]| ->].
Qed.

Lemma PATCH_non_null now id (body : JS.Value) db :
  id <> "" -> body <> JS.Null ->
  JobIdRoute.PATCH Date_parse now id (inr body) db
  = if converts body then
      let data := patch_data Date_parse body in
      if JobIdRoute.set_but_empty (Prisma.JobUpdateInput.company data)
      then (error_response "Company cannot be empty" 400, db)
      else if JobIdRoute.set_but_empty (Prisma.JobUpdateInput.role data)
      then (error_response "Role cannot be empty" 400, db)
      else match Prisma.update now id data db with
           | inr updated => (NextResponse.json (NextResponse.JobOf (fst updated)), snd updated)
           | inl _ => (error_response "Failed to update job" 500, db)
           end
    else (error_response "Failed to update job" 500, db).
Proof.
  intros Hid%is_empty_false Hb. unfold JobIdRoute.PATCH, JobIdRoute.PATCH_try.
  rewrite Hid. unfold JS.bind at 1. rewrite (data_of_non_null _ Hb).
  destruct (converts body); [|reflexivity].
  unfold JS.bind at 1. cbv zeta.
  destruct (JobIdRoute.set_but_empty _); [reflexivity|].
  destruct (JobIdRoute.set_but_empty _); [reflexivity|].
  unfold JS.bind. by destruct (Prisma.update _ _ _ _).
Qed.

(** *** DELETE *)

Lemma DELETE_no_id db :
  JobIdRoute.DELETE "" db = (error_response "Missing job id" 400, db).
Proof. reflexivity. Qed.

Lemma DELETE_unknown id db :
  id <> "" -> db !! id = None ->
  JobIdRoute.DELETE id db = (error_response "Failed to delete job" 500, db).
Proof.
  intros Hid%is_empty_false Hdb. unfold JobIdRoute.DELETE, JobIdRoute.DELETE_try.
  rewrite Hid. unfold Prisma.delete. by rewrite Hdb.
Qed.

Lemma DELETE_known id db (old : Job.t) :
  id <> "" -> db !! id = Some old ->
  JobIdRoute.DELETE id db = (NextResponse.json NextResponse.Ok, delete id db).
Proof.
  intros Hid%is_empty_false Hdb. unfold JobIdRoute.DELETE, JobIdRoute.DELETE_try.
  rewrite Hid. unfold Prisma.delete. by rewrite Hdb.
Qed.

(** [update] of an absent identifier throws, whatever the data. *)
Lemma update_unknown now id data db :
  db !! id = None -> exists e, Prisma.update now id data db = inl e.
Proof.
  intros Hdb. unfold Prisma.update.
  destruct (Prisma.date_change _) as [e|at_]; cbn [JS.bind]; [by exists e|].
  rewrite Hdb. by eexists.
Qed.

(** *** GET *)

(** The rows [findMany] hands back when no string filter is asked for. *)
Lemma findMany_no_filter (status : option Job.Status) o (db : Prisma.Store) :
  Prisma.findMany (JobsRoute.where_ status "") o db
  = inr (merge_sort (Prisma.before o)
           (filter (fun j => Prisma.matches (Prisma.Where status None) j) (Prisma.rows db))).
Proof. reflexivity. Qed.

Lemma findMany_filter (status : option Job.Status) (q : string) o (db : Prisma.Store) :
  q <> "" -> Prisma.findMany (JobsRoute.where_ status q) o db = inl JS.PrismaValidationError.
Proof. by destruct q. Qed.

(** GET with no search text answers with the rows of the wanted status, in
    the wanted order; GET with a search text fails in [findMany], and the
    framework answers. *)
Lemma GET_cases (q status sort : option string) (db : Prisma.Store) :
  JobsRoute.GET q status sort db
  = if JS.is_empty (JS.trim (default "" q)) then
      (NextResponse.json
         (NextResponse.Jobs
            (merge_sort (Prisma.before (JobsRoute.orderBy
                                          (JobsRoute.normalizeSort (JobsRoute.searchParam sort))))
               (filter (fun j => Prisma.matches
                                   (Prisma.Where
                                      (JobsRoute.normalizeStatus (JobsRoute.searchParam status))
                                      None) j)
                  (Prisma.rows db)))), db)
    else (NextResponse.unhandled, db).
Proof.
  unfold JobsRoute.GET, JobsRoute.GET_body. cbv zeta.
  rewrite JobsRoute_normalizeStatus_call, JobsRoute_normalizeSort_call,
    !printable_searchParam. cbn [JS.bind].
  destruct (JS.trim (default "" q)) as [|c rest] eqn:E; [reflexivity|].
  by rewrite findMany_filter.
Qed.

End Handlers.

(** ** What a response tells about the request *)

Section Outcomes.

Variable Date_parse : string -> option Z.

Lemma date_column_valid (d : option JS.Date) :
  d <> Some JS.InvalidDate -> exists at_, Prisma.date_column d = inr at_.
Proof. destruct d as [[t|]|]; [by exists (Some t)|done|by exists None]. Qed.

Lemma date_column_inr (d : option JS.Date) at_ :
  Prisma.date_column d = inr at_ -> d <> Some JS.InvalidDate.
Proof. by destruct d as [[t|]|]. Qed.

Lemma update_known now id data db (old : Job.t) at_ :
  db !! id = Some old ->
  Prisma.date_change (Prisma.JobUpdateInput.nextActionAt data) = inr at_ ->
  Prisma.update now id data db
  = inr (Prisma.merged now old data at_, <[id := Prisma.merged now old data at_]> db).
Proof. intros Hdb Hat. unfold Prisma.update. rewrite Hat. cbn [JS.bind]. by rewrite Hdb. Qed.

Lemma update_inv now id data db (job : Job.t) db' :
  Prisma.update now id data db = inr (job, db') ->
  exists old at_,
    db !! id = Some old
    /\ Prisma.date_change (Prisma.JobUpdateInput.nextActionAt data) = inr at_
    /\ job = Prisma.merged now old data at_ /\ db' = <[id := job]> db.
Proof.
  unfold Prisma.update.
  destruct (Prisma.date_change _) as [e|at_]; cbn [JS.bind]; [done|].
  destruct (db !! id) as [old|]; [|done].
  intros [= <- <-]. by exists old, at_.
Qed.

Lemma create_fresh now newId data db at_ :
  db !! newId = None ->
  Prisma.date_column (Prisma.JobCreateInput.nextActionAt data) = inr at_ ->
  Prisma.create now newId data db
  = inr (Prisma.new_row now newId data at_, <[newId := Prisma.new_row now newId data at_]> db).
Proof. intros Hdb Hat. unfold Prisma.create. rewrite Hat. cbn [JS.bind]. by rewrite Hdb. Qed.

Lemma create_inv now newId data db (job : Job.t) db' :
  Prisma.create now newId data db = inr (job, db') ->
  exists at_,
    db !! newId = None
    /\ Prisma.date_column (Prisma.JobCreateInput.nextActionAt data) = inr at_
    /\ job = Prisma.new_row now newId data at_ /\ db' = <[newId := job]> db.
Proof.
  unfold Prisma.create.
  destruct (Prisma.date_column _) as [e|at_]; cbn [JS.bind]; [done|].
  destruct (db !! newId); [done|].
  intros [= <- <-]. by exists at_.
Qed.

Lemma create_invalid_date now newId data db :
  Prisma.JobCreateInput.nextActionAt data = Some JS.InvalidDate ->
  Prisma.create now newId data db = inl JS.PrismaValidationError.
Proof. intros H. unfold Prisma.create. by rewrite H. Qed.

(** A 200 from PATCH: the body was an object (or another value that is not
    null) whose fields convert, the record was there, and the response
    carries the merged row. *)
Lemma PATCH_ok_inv now id (req : Request) db (res : NextResponse.t) db' :
  JobIdRoute.PATCH Date_parse now id req db = (res, db') ->
  NextResponse.status res = 200 ->
  exists body old at_,
    req = inr body /\ body <> JS.Null /\ id <> "" /\ db !! id = Some old
    /\ JobIdRoute.set_but_empty (Prisma.JobUpdateInput.company (patch_data Date_parse body)) = false
    /\ JobIdRoute.set_but_empty (Prisma.JobUpdateInput.role (patch_data Date_parse body)) = false
    /\ Prisma.date_change (Prisma.JobUpdateInput.nextActionAt (patch_data Date_parse body)) = inr at_
    /\ res = NextResponse.json (NextResponse.JobOf (Prisma.merged now old (patch_data Date_parse body) at_))
    /\ db' = <[id := Prisma.merged now old (patch_data Date_parse body) at_]> db
    /\ convertible body.
Proof.
  destruct (decide (id = "")) as [->|Hid].
  { rewrite PATCH_no_id. by intros [= <- <-]. }
  destruct req as [e|body].
  { rewrite PATCH_throws by eauto. by intros [= <- <-]. }
  destruct (null_or_not body) as [->|Hb].
  { rewrite PATCH_throws by eauto. by intros [= <- <-]. }
  rewrite (PATCH_non_null _ _ _ _ _ Hid Hb). cbv zeta.
  destruct (converts body) eqn:Hv.
  2: { by intros [= <- <-]. }
  apply converts_spec in Hv.
  destruct (JobIdRoute.set_but_empty (Prisma.JobUpdateInput.company _)) eqn:Hc.
  { by intros [= <- <-]. }
  destruct (JobIdRoute.set_but_empty (Prisma.JobUpdateInput.role _)) eqn:Hr.
  { by intros [= <- <-]. }
  destruct (Prisma.update _ _ _ _) as [e|[job db'']] eqn:Hu.
  { by intros [= <- <-]. }
  intros [= <- <-] _. apply update_inv in Hu as (old & at_ & Hold & Hat & -> & ->).
  by exists body, old, at_.
Qed.

(** A 201 from POST. *)
Lemma POST_created_inv now newId (req : Request) db (res : NextResponse.t) db' :
  JobsRoute.POST Date_parse now newId req db = (res, db') ->
  NextResponse.status res = 201 ->
  exists body at_,
    req = inr body /\ body <> JS.Null
    /\ trimmed (field body "company") <> "" /\ trimmed (field body "role") <> ""
    /\ db !! newId = None
    /\ Prisma.date_column (date_or_null Date_parse (field body "nextActionAt")) = inr at_
    /\ res = NextResponse.json_with
               (NextResponse.JobOf (Prisma.new_row now newId (post_data Date_parse body) at_)) 201
    /\ db' = <[newId := Prisma.new_row now newId (post_data Date_parse body) at_]> db
    /\ convertible body.
Proof.
  destruct req as [e|body].
  { rewrite POST_throws by eauto. by intros [= <- <-]. }
  destruct (null_or_not body) as [->|Hb].
  { rewrite POST_throws by eauto. by intros [= <- <-]. }
  rewrite (POST_non_null _ _ _ _ _ Hb).
  destruct (printable (field body "company") && printable (field body "role")).
  2: { by intros [= <- <-]. }
  destruct (JS.is_empty (trimmed (field body "company"))) eqn:Hc.
  { by intros [= <- <-]. }
  destruct (JS.is_empty (trimmed (field body "role"))) eqn:Hr.
  { by intros [= <- <-]. }
  cbn [orb]. destruct (converts body) eqn:Hv.
  2: { by intros [= <- <-]. }
  apply converts_spec in Hv.
  destruct (Prisma.create _ _ _ _) as [e|[job db'']] eqn:Hcr.
  { by intros [= <- <-]. }
  intros [= <- <-] _. apply create_inv in Hcr as (at_ & Hnew & Hat & -> & ->).
  apply is_empty_false in Hc, Hr. by exists body, at_.
Qed.

(** The handlers answer 200, 201, 400 or 500, and nothing else. *)
Lemma POST_status now newId (req : Request) db :
  NextResponse.status (fst (JobsRoute.POST Date_parse now newId req db)) ∈ [201; 400; 500].
Proof.
  destruct req as [e|body]; [rewrite POST_throws by eauto; set_solver|].
  destruct (null_or_not body) as [->|Hb]; [rewrite POST_throws by eauto; set_solver|].
  rewrite (POST_non_null _ _ _ _ _ Hb).
  destruct (_ && _); [|set_solver].
  destruct (_ || _); [set_solver|]. destruct (converts body); [|set_solver].
  destruct (Prisma.create _ _ _ _); set_solver.
Qed.

Lemma PATCH_status now id (req : Request) db :
  NextResponse.status (fst (JobIdRoute.PATCH Date_parse now id req db)) ∈ [200; 400; 500].
Proof.
  destruct (decide (id = "")) as [->|Hid]; [rewrite PATCH_no_id; set_solver|].
  destruct req as [e|body]; [rewrite PATCH_throws by eauto; set_solver|].
  destruct (null_or_not body) as [->|Hb]; [rewrite PATCH_throws by eauto; set_solver|].
  rewrite (PATCH_non_null _ _ _ _ _ Hid Hb). cbv zeta.
  destruct (converts body); [|set_solver].
  destruct (JobIdRoute.set_but_empty _); [set_solver|].
  destruct (JobIdRoute.set_but_empty _); [set_solver|].
  destruct (Prisma.update _ _ _ _); set_solver.
Qed.

Lemma DELETE_status id db :
  NextResponse.status (fst (JobIdRoute.DELETE id db)) ∈ [200; 400; 500].
Proof.
  destruct (decide (id = "")) as [->|Hid]; [rewrite DELETE_no_id; set_solver|].
  destruct (db !! id) as [old|] eqn:Hdb.
  - rewrite (DELETE_known _ _ _ Hid Hdb). set_solver.
  - rewrite (DELETE_unknown _ _ Hid Hdb). set_solver.
Qed.

Lemma GET_status q status sort (db : Prisma.Store) :
  NextResponse.status (fst (JobsRoute.GET q status sort db))
  = if JS.is_empty (JS.trim (default "" q)) then 200 else 500.
Proof. rewrite GET_cases. by destruct (JS.is_empty _). Qed.

End Outcomes.

(** ** C1: an unknown identifier *)

Section UnknownId.

Variable Date_parse : string -> option Z.

(** C1 as amended: a Delete of a non-empty identifier that the store does not
    hold fails with the generic 500 response and leaves the store as it was; an
    Update of such an identifier leaves the store as it was and fails with that
    500 response too, unless the payload is turned down first with 400 (a
    supplied company or role that trims to the empty string); after a Delete
    that succeeded, a second Delete of the same identifier gets the 500
    response. *)
Theorem C1_unknown_id_fails (now : Z) (id : string) (req : Request) (db : Prisma.Store) :
  id <> "" -> db !! id = None ->
  JobIdRoute.DELETE id db = (error_response "Failed to delete job" 500, db)
  /\ (JobIdRoute.PATCH Date_parse now id req db = (error_response "Failed to update job" 500, db)
      \/ (exists body msg,
            req = inr body /\ body <> JS.Null
            /\ (JobIdRoute.set_but_empty (Prisma.JobUpdateInput.company (patch_data Date_parse body))
                || JobIdRoute.set_but_empty (Prisma.JobUpdateInput.role (patch_data Date_parse body))
                = true)
            /\ JobIdRoute.PATCH Date_parse now id req db = (error_response msg 400, db)))
  /\ (forall db0 : Prisma.Store,
        fst (JobIdRoute.DELETE id db0) = NextResponse.json NextResponse.Ok ->
        JobIdRoute.DELETE id (snd (JobIdRoute.DELETE id db0))
        = (error_response "Failed to delete job" 500, snd (JobIdRoute.DELETE id db0))).
Proof.
  intros Hid Hdb. split; [by apply DELETE_unknown|]. split.
  - destruct req as [e|body].
    { left. apply PATCH_throws; eauto. }
    destruct (null_or_not body) as [->|Hb].
    { left. apply PATCH_throws; eauto. }
    rewrite (PATCH_non_null _ _ _ _ _ Hid Hb). cbv zeta.
    destruct (converts body); [|by left].
    destruct (JobIdRoute.set_but_empty (Prisma.JobUpdateInput.company _)) eqn:Hc.
    { right. exists body, "Company cannot be empty". by rewrite Hc. }
    destruct (JobIdRoute.set_but_empty (Prisma.JobUpdateInput.role _)) eqn:Hr.
    { right. exists body, "Role cannot be empty". by rewrite Hc, Hr. }
    left. destruct (update_unknown now id (patch_data Date_parse body) db Hdb) as [e ->].
    reflexivity.
  - intros db0 Hok. destruct (db0 !! id) as [old|] eqn:Hold.
    + rewrite (DELETE_known _ _ _ Hid Hold). cbn [snd].
      apply DELETE_unknown; [done|]. apply lookup_delete_eq.
    + rewrite (DELETE_unknown _ _ Hid Hold) in Hok. discriminate Hok.
Qed.

End UnknownId.

(** C1 as stated fails: no path of the handlers answers 404.  With job1 in the
    store, its Delete succeeds and the second Delete of job1 is answered 500;
    so are the Delete and the Update of an identifier never stored. *)
Lemma C1_counterexample :
  db1 !! "ghost" = None
  /\ NextResponse.status (fst (JobIdRoute.DELETE "ghost" db1)) = 500
  /\ NextResponse.status (fst (JobIdRoute.PATCH sample_Date_parse 40 "ghost" to_applied db1)) = 500
  /\ NextResponse.status (fst (JobIdRoute.DELETE "job1" db1)) = 200
  /\ NextResponse.status
       (fst (JobIdRoute.DELETE "job1" (snd (JobIdRoute.DELETE "job1" db1)))) = 500
  /\ (500 <> 404)%Z.
Proof. repeat split; try (vm_compute; reflexivity). discriminate. Qed.

Lemma C1_witness :
  "ghost" <> "" /\ db1 !! "ghost" = None
  /\ JobIdRoute.DELETE "ghost" db1 = (error_response "Failed to delete job" 500, db1).
Proof.
  split; [discriminate|]. split; [vm_compute; reflexivity|].
  apply (C1_unknown_id_fails sample_Date_parse 40 "ghost" to_applied db1).
  - discriminate.
  - vm_compute. reflexivity.
Defined.

(** ** C2: a partial update *)

Section PartialUpdate.

Variable Date_parse : string -> option Z.

Local Arguments text_or_null : simpl never.
Local Arguments date_or_null : simpl never.

Lemma text_or_null_empty (v : JS.Value) : empty_or_null v -> text_or_null (Some v) = None.
Proof. by intros [-> | ->]. Qed.

Lemma text_or_null_Str (s : string) : s <> "" -> text_or_null (Some (JS.Str s)) = Some (JS.trim s).
Proof. by destruct s. Qed.

Lemma date_or_null_empty (v : JS.Value) :
  empty_or_null v -> date_or_null Date_parse (Some v) = None.
Proof. by intros [-> | ->]. Qed.

Lemma merged_only_supplied now (body : JS.Value) (old : Job.t) at_ :
  Prisma.date_change (Prisma.JobUpdateInput.nextActionAt (patch_data Date_parse body)) = inr at_ ->
  updates_only_supplied body old (Prisma.merged now old (patch_data Date_parse body) at_).
Proof.
  intros Hat. unfold updates_only_supplied. split_and!; try reflexivity.
  - intros k col Hin. unfold name_columns in Hin.
    repeat (apply elem_of_cons in Hin as [[= -> ->]|Hin]); [..|by apply elem_of_nil in Hin];
      (split; [intros Hk; cbn; by rewrite Hk|intros s Hk]);
      cbn; rewrite Hk; cbn; apply trim_spec.
  - intros k col Hin. unfold text_columns in Hin.
    repeat (apply elem_of_cons in Hin as [[= -> ->]|Hin]); [..|by apply elem_of_nil in Hin];
      (split; [intros Hk; cbn; by rewrite Hk|]);
      (split; [intros v Hk Hv; cbn; rewrite Hk; cbn; by rewrite (text_or_null_empty _ Hv)|]);
      intros s Hk Hs; exists (JS.trim s); (split; [|apply trim_spec]);
      cbn; rewrite Hk; cbn; by rewrite (text_or_null_Str _ Hs).
  - intros Hk. cbn. by rewrite Hk.
  - intros Hk. cbn in Hat |- *. rewrite Hk in Hat. cbn in Hat. by injection Hat as <-.
  - intros v Hk Hv. cbn in Hat |- *. rewrite Hk in Hat. cbn in Hat.
    rewrite (date_or_null_empty _ Hv) in Hat. cbn in Hat. by injection Hat as <-.
Qed.

(** An update whose [data] has no key leaves the row as it is; one that has
    a key refreshes [updatedAt]. *)
Lemma merged_nothing now (old : Job.t) data at_ :
  Prisma.JobUpdateInput.is_empty data = true ->
  Prisma.date_change (Prisma.JobUpdateInput.nextActionAt data) = inr at_ ->
  Prisma.merged now old data at_ = old.
Proof.
  intros He Hat. unfold Prisma.merged. rewrite He.
  destruct data as [[?|] [?|] [?|] [?|] [?|] [?|] [?|] [?|] [?|]]; try discriminate He.
  cbn in Hat. injection Hat as <-. by destruct old.
Qed.

Lemma merged_updatedAt now (old : Job.t) data at_ :
  Prisma.JobUpdateInput.is_empty data = false ->
  Job.updatedAt (Prisma.merged now old data at_) = now.
Proof. intros He. unfold Prisma.merged. cbn [Job.updatedAt]. by rewrite He. Qed.

Lemma set_but_empty_supplied (v : JS.MaybeUndefined) :
  JobIdRoute.set_but_empty (JobIdRoute.when_defined v (trimmed v)) = supplied_blank v.
Proof. by destruct v. Qed.

Lemma date_change_valid (v : JS.MaybeUndefined) :
  date_or_null Date_parse v <> Some JS.InvalidDate ->
  exists at_,
    Prisma.date_change (JobIdRoute.when_defined v (date_or_null Date_parse v)) = inr at_.
Proof.
  intros H. destruct v as [x|]; [|by exists None]. cbn [JobIdRoute.when_defined Prisma.date_change].
  destruct (date_column_valid _ H) as [c ->]. by exists (Some c).
Qed.

Lemma date_change_inr (v : JS.MaybeUndefined) at_ :
  Prisma.date_change (JobIdRoute.when_defined v (date_or_null Date_parse v)) = inr at_ ->
  date_or_null Date_parse v <> Some JS.InvalidDate.
Proof.
  destruct v as [x|]; [|done]. cbn [JobIdRoute.when_defined Prisma.date_change].
  intros H Hd. by rewrite Hd in H.
Qed.

(** A 200 from PATCH comes from a payload as [patchable] describes. *)
Lemma PATCH_ok_patchable now id (req : Request) db :
  NextResponse.status (fst (JobIdRoute.PATCH Date_parse now id req db)) = 200 ->
  id <> "" /\ exists body, req = inr body /\ patchable Date_parse body /\ is_Some (db !! id).
Proof.
  intros H200.
  destruct (PATCH_ok_inv Date_parse now id req db
              (fst (JobIdRoute.PATCH Date_parse now id req db))
              (snd (JobIdRoute.PATCH Date_parse now id req db)))
    as (body & old & at_ & -> & Hb & Hid & Hold & Hc & Hr & Hat & _ & _ & Hv);
    [apply surjective_pairing|done|].
  split; [done|]. exists body. split; [done|]. split; [|by exists old].
  unfold patch_data in Hc, Hr, Hat.
  cbn [Prisma.JobUpdateInput.company Prisma.JobUpdateInput.role
       Prisma.JobUpdateInput.nextActionAt] in Hc, Hr, Hat.
  rewrite set_but_empty_supplied in Hc, Hr. apply date_change_inr in Hat.
  by split_and!.
Qed.

(** What PATCH does with a payload it accepts, on a record that is there. *)
Lemma PATCH_accepts now id (body : JS.Value) db (old : Job.t) :
  id <> "" -> db !! id = Some old -> patchable Date_parse body ->
  exists at_,
    Prisma.date_change (Prisma.JobUpdateInput.nextActionAt (patch_data Date_parse body)) = inr at_
    /\ JobIdRoute.PATCH Date_parse now id (inr body) db
       = (NextResponse.json
            (NextResponse.JobOf (Prisma.merged now old (patch_data Date_parse body) at_)),
          <[id := Prisma.merged now old (patch_data Date_parse body) at_]> db).
Proof.
  intros Hid Hold (Hb & Hv%converts_spec & Hc & Hr & Hd).
  destruct (date_change_valid _ Hd) as [at_ Hat].
  exists at_. split; [done|].
  rewrite (PATCH_non_null _ _ _ _ _ Hid Hb), Hv. cbv zeta.
  unfold patch_data at 1 2.
  cbn [Prisma.JobUpdateInput.company Prisma.JobUpdateInput.role].
  rewrite !set_but_empty_supplied, Hc, Hr.
  by rewrite (update_known now id (patch_data Date_parse body) db old at_ Hold Hat).
Qed.

(** C2: an Update of a record that is there, with a payload that the handler
    accepts, succeeds; it answers with, and stores under the identifier, a
    row in which every column whose payload field is omitted has the value it
    had; [location], [url], [salary], [notes], [nextAction] and
    [nextActionAt] are null where the payload has null or the empty string;
    and a string supplied for a text column is stored without the white space
    around it.  An update that writes a column refreshes [updatedAt]; one that
    writes none (no field supplied but, at most, a status that is not
    recognized) leaves the row as it is. *)
Theorem C2_partial_update now id (body : JS.Value) (db : Prisma.Store) (old : Job.t) :
  id <> "" -> db !! id = Some old -> patchable Date_parse body ->
  exists job,
    JobIdRoute.PATCH Date_parse now id (inr body) db
    = (NextResponse.json (NextResponse.JobOf job), <[id := job]> db)
    /\ updates_only_supplied body old job
    /\ (writes Date_parse body = true -> Job.updatedAt job = now)
    /\ (writes Date_parse body = false -> job = old).
Proof.
  intros Hid Hold Hp.
  destruct (PATCH_accepts now id body db old Hid Hold Hp) as (at_ & Hat & HPATCH).
  exists (Prisma.merged now old (patch_data Date_parse body) at_).
  split_and!; [done|by apply merged_only_supplied|..].
  - intros Hw%negb_true_iff. by apply merged_updatedAt.
  - intros Hw%negb_false_iff. by apply merged_nothing.
Qed.

End PartialUpdate.

Lemma C2_witness :
  "job1" <> "" /\ db1 !! "job1" = Some acme /\ patchable sample_Date_parse clear_notes
  /\ exists job,
       JobIdRoute.PATCH sample_Date_parse 40 "job1" (inr clear_notes) db1
       = (NextResponse.json (NextResponse.JobOf job), <["job1" := job]> db1)
       /\ updates_only_supplied clear_notes acme job
       /\ (writes sample_Date_parse clear_notes = true -> Job.updatedAt job = 40)
       /\ (writes sample_Date_parse clear_notes = false -> job = acme).
Proof.
  assert (patchable sample_Date_parse clear_notes) as Hp.
  { split_and!; [discriminate|apply converts_spec; reflexivity|reflexivity..|discriminate]. }
  split; [discriminate|]. split; [vm_compute; reflexivity|]. split; [exact Hp|].
  apply (C2_partial_update sample_Date_parse 40 "job1" clear_notes db1 acme).
  - discriminate.
  - vm_compute. reflexivity.
  - exact Hp.
Defined.

(** The payload [{ notes: null, location: "  Leeds " }] on Acme: the note is
    cleared, the location is stored as "Leeds", [updatedAt] is the time of the
    update; and the payload [{}] leaves Acme as it is. *)
Example clear_notes_result :
  fst (JobIdRoute.PATCH sample_Date_parse 40 "job1" (inr clear_notes) db1)
  = NextResponse.json (NextResponse.JobOf
      (Job.mk "job1" "Acme" "Engineer" Job.SAVED (Some "Leeds") None None None None None 10 40))
  /\ JobIdRoute.PATCH sample_Date_parse 40 "job1" (inr (JS.Obj [])) db1
     = (NextResponse.json (NextResponse.JobOf acme), db1).
Proof. split; vm_compute; reflexivity. Qed.

(** ** C3: what List returns *)

Section Listing.

Lemma elem_of_rows (db : Prisma.Store) (j : Job.t) : j ∈ Prisma.rows db <-> stored db j.
Proof.
  unfold Prisma.rows, stored. rewrite list_elem_of_fmap. split.
  - intros ([k j'] & -> & H%elem_of_map_to_list). by exists k.
  - intros [k H]. exists (k, j). split; [done|]. by apply elem_of_map_to_list.
Qed.

Lemma matches_spec (status : option Job.Status) (j : Job.t) :
  Prisma.matches (Prisma.Where status None) j = true
  <-> forall s, status = Some s -> Job.status j = s.
Proof.
  unfold Prisma.matches. cbn [Prisma.where_status].
  destruct status as [s|].
  - rewrite bool_decide_eq_true. split; [by intros -> ? [= <-]|auto].
  - split; [done|auto].
Qed.

Lemma GET_reads_only q status sort (db : Prisma.Store) :
  snd (JobsRoute.GET q status sort db) = db.
Proof. rewrite GET_cases. by destruct (JS.is_empty _). Qed.

(** What GET lists: nothing for a request with a search text; for one without,
    the stored records of the wanted status. *)
Lemma elem_of_listed q status sort (db : Prisma.Store) (j : Job.t) :
  j ∈ listed (fst (JobsRoute.GET q status sort db))
  <-> blank q /\ stored db j /\ status_allows status j.
Proof.
  rewrite GET_cases. unfold blank, status_allows.
  destruct (JS.trim (default "" q)) as [|c rest]; cbn [JS.is_empty fst listed
    NextResponse.body NextResponse.json NextResponse.unhandled].
  - rewrite merge_sort_Permutation, list_elem_of_filter, elem_of_rows, Is_true_true, matches_spec.
    tauto.
  - rewrite elem_of_nil. split; [done|]. by intros [? _].
Qed.

Lemma GET_search_fails q status sort (db : Prisma.Store) :
  ~ blank q -> JobsRoute.GET q status sort db = (NextResponse.unhandled, db).
Proof.
  intros H. rewrite GET_cases. unfold blank in H.
  by destruct (JS.trim (default "" q)).
Qed.

Lemma normalizeStatus_name (s : Job.Status) :
  JobsRoute.normalizeStatus (JobsRoute.searchParam (Some (Job.name s))) = Some s.
Proof. by destruct s. Qed.

Lemma blank_spec (q : option string) :
  blank q <-> q = None \/ exists text, q = Some text /\ White text.
Proof.
  unfold blank. destruct q as [text|]; cbn [default from_option id].
  - rewrite trim_empty. split; [eauto|]. by intros [?|(? & [= <-] & ?)].
  - split; [auto|done].
Qed.

(** C3 as amended: List writes nothing.  When [q] is absent or white space
    only, a stored record is in the result exactly when it has the status that
    the [status] parameter names, if it names one.  A parameter that is one of
    the five enum values names that value; an absent one and "all" name
    none. *)
Theorem C3_list_matching (q status sort : option string) (db : Prisma.Store) :
  snd (JobsRoute.GET q status sort db) = db
  /\ (blank q <-> q = None \/ exists text, q = Some text /\ White text)
  /\ (blank q ->
      forall j,
        j ∈ listed (fst (JobsRoute.GET q status sort db))
        <-> stored db j /\ status_allows status j)
  /\ (forall s j, status = Some (Job.name s) -> status_allows status j <-> Job.status j = s)
  /\ (status = None \/ status = Some "all" -> forall j, status_allows status j).
Proof.
  split_and!.
  - apply GET_reads_only.
  - apply blank_spec.
  - intros Hq j. rewrite elem_of_listed. tauto.
  - intros s j ->. unfold status_allows. rewrite normalizeStatus_name.
    split; [auto|by intros -> ? [= <-]].
  - intros [-> | ->] j s; by cbv.
Qed.

End Listing.

(** A text that contains a space splits at one. *)
Lemma substring_space (text : string) :
  substring " " text -> exists pre post, text = (pre ++ String " " post)%string.
Proof. intros (pre & post & ->). by exists pre, post. Qed.

(** C3 as stated fails: [q] is trimmed before it is used.  A [q] of one space
    is present, none of the four columns of Acme contains a space, and Acme is
    listed. *)
Lemma C3_counterexample :
  acme ∈ listed (fst (JobsRoute.GET (Some " ") None None db1))
  /\ (forall c text, Prisma.column c acme = Some text -> ~ substring " " text).
Proof.
  split.
  - vm_compute. apply list_elem_of_here.
  - intros c text Hc (pre & post & ->)%substring_space.
    destruct c; cbn in Hc; try discriminate Hc; injection Hc as Hc;
      repeat (destruct pre as [|? pre]; [discriminate Hc|injection Hc as _ Hc]);
      destruct pre; discriminate Hc.
Qed.

(** A request with a search text: Acme is stored, "acme" is its company
    letter case apart, and List fails. *)
Example search_for_acme :
  JS.toUpperCase (Job.company acme) = JS.toUpperCase "acme"
  /\ JobsRoute.GET (Some "acme") None None db1 = (NextResponse.unhandled, db1)
  /\ NextResponse.status NextResponse.unhandled = 500.
Proof. split_and!; reflexivity. Qed.

(** ** C4: Create *)

Section Create.

Variable Date_parse : string -> option Z.

Lemma POST_accepts now newId (body : JS.Value) db :
  db !! newId = None -> creatable Date_parse body ->
  exists at_,
    Prisma.date_column (date_or_null Date_parse (field body "nextActionAt")) = inr at_
    /\ JobsRoute.POST Date_parse now newId (inr body) db
       = (NextResponse.json_with
            (NextResponse.JobOf (Prisma.new_row now newId (post_data Date_parse body) at_)) 201,
          <[newId := Prisma.new_row now newId (post_data Date_parse body) at_]> db).
Proof.
  intros Hnew (Hb & Hv & Hc%is_empty_false & Hr%is_empty_false & Hd).
  destruct (date_column_valid _ Hd) as [at_ Hat]. exists at_. split; [done|].
  rewrite (POST_non_null _ _ _ _ _ Hb), Hc, Hr.
  rewrite (Hv "company"), (Hv "role") by (unfold payload_keys; set_solver).
  apply converts_spec in Hv. rewrite Hv. cbn [orb andb].
  by rewrite (create_fresh now newId (post_data Date_parse body) db at_ Hnew Hat).
Qed.

Lemma POST_nameless now newId (body : JS.Value) db :
  nameless body ->
  JobsRoute.POST Date_parse now newId (inr body) db
  = (error_response "Company and role are required" 400, db).
Proof.
  intros (Hb & Hpc & Hpr & H). rewrite (POST_non_null _ _ _ _ _ Hb), Hpc, Hpr. cbn [andb].
  destruct H as [-> | ->]; [done|]. by rewrite orb_true_r.
Qed.

Lemma POST_400_inv now newId (req : Request) db :
  NextResponse.status (fst (JobsRoute.POST Date_parse now newId req db)) = 400 ->
  exists body, req = inr body /\ nameless body.
Proof.
  destruct req as [e|body]; [by rewrite POST_throws by eauto|].
  destruct (null_or_not body) as [->|Hb]; [by rewrite POST_throws by eauto|].
  rewrite (POST_non_null _ _ _ _ _ Hb).
  destruct (printable (field body "company")) eqn:Hpc; [|done].
  destruct (printable (field body "role")) eqn:Hpr; [|done]. cbn [andb].
  destruct (JS.is_empty (trimmed (field body "company"))) eqn:Hc.
  { apply is_empty_true in Hc. exists body. split; [done|]. unfold nameless. split_and!; auto. }
  destruct (JS.is_empty (trimmed (field body "role"))) eqn:Hr.
  { apply is_empty_true in Hr. exists body. split; [done|]. unfold nameless. split_and!; auto. }
  cbn [orb]. destruct (converts body); [|done]. by destruct (Prisma.create _ _ _ _).
Qed.

Lemma POST_failed_store now newId (req : Request) db :
  NextResponse.status (fst (JobsRoute.POST Date_parse now newId req db)) <> 201 ->
  snd (JobsRoute.POST Date_parse now newId req db) = db.
Proof.
  intros Hne. destruct req as [e|body]; [by rewrite POST_throws by eauto|].
  destruct (null_or_not body) as [->|Hb]; [by rewrite POST_throws by eauto|].
  rewrite (POST_non_null _ _ _ _ _ Hb) in Hne |- *.
  destruct (_ && _); [|done]. destruct (_ || _); [done|].
  destruct (converts body); [|done]. by destruct (Prisma.create _ _ _ _).
Qed.

(** The company and the role of the row POST hands to the store. *)
Lemma post_data_names now newId (body : JS.Value) at_ (k : string) (col : Job.t -> string) :
  (k, col) ∈ name_columns ->
  forall s, field body k = Some (JS.Str s) ->
            trim_of s (col (Prisma.new_row now newId (post_data Date_parse body) at_)).
Proof.
  intros Hin s Hk. unfold name_columns in Hin.
  repeat (apply elem_of_cons in Hin as [[= -> ->]|Hin]); [..|by apply elem_of_nil in Hin];
    cbn; rewrite Hk; apply trim_spec.
Qed.

(** C4 as amended: with a fresh identifier to draw, Create succeeds (201)
    exactly when the payload is not null, its fields convert, company and role
    are not empty once trimmed, and [nextActionAt], when truthy, makes a valid
    date; it answers 400 exactly when the payload is not null, company and
    role convert, and one of them is empty once trimmed; in the remaining
    cases it answers 500.  Unless it succeeds the store is as it was.  The
    created record has the company and the role without the white space around
    them, and the status SAVED whenever the payload has no status or one that
    is not recognized. *)
Theorem C4_create now newId (req : Request) (db : Prisma.Store) :
  db !! newId = None ->
  let out := JobsRoute.POST Date_parse now newId req db in
  (NextResponse.status (fst out) = 201 <-> exists body, req = inr body /\ creatable Date_parse body)
  /\ (NextResponse.status (fst out) = 400 <-> exists body, req = inr body /\ nameless body)
  /\ NextResponse.status (fst out) ∈ [201; 400; 500]
  /\ (NextResponse.status (fst out) <> 201 -> snd out = db)
  /\ (forall body, req = inr body -> NextResponse.status (fst out) = 201 ->
        exists job,
          fst out = NextResponse.json_with (NextResponse.JobOf job) 201
          /\ snd out = <[newId := job]> db
          /\ (forall k col, (k, col) ∈ name_columns ->
                forall s, field body k = Some (JS.Str s) -> trim_of s (col job))
          /\ (field body "status" = None \/ JobsRoute.normalizeStatus (field body "status") = None ->
              Job.status job = Job.SAVED)).
Proof.
  intros Hnew out. split_and!.
  - split.
    + intros H201. destruct (POST_created_inv Date_parse now newId req db (fst out) (snd out))
        as (body & at_ & -> & Hb & Hc & Hr & _ & Hat & _ & _ & Hv);
        [apply surjective_pairing|done|].
      exists body. split; [done|]. unfold creatable. eauto 6 using date_column_inr.
    + intros (body & -> & Hok). subst out.
      by destruct (POST_accepts now newId body db Hnew Hok) as (at_ & _ & ->).
  - split.
    + apply POST_400_inv.
    + intros (body & -> & Hno). subst out. by rewrite POST_nameless.
  - apply POST_status.
  - apply POST_failed_store.
  - intros body -> H201.
    destruct (POST_created_inv Date_parse now newId (inr body) db (fst out) (snd out))
      as (body' & at_ & [= <-] & Hb & Hc & Hr & _ & Hat & Hres & Hdb & _);
      [apply surjective_pairing|done|].
    eexists. split_and!; [exact Hres|exact Hdb|..].
    + intros k col Hin s Hk. by apply (post_data_names _ _ _ _ k).
    + cbn. intros [-> | ->]; reflexivity.
Qed.

End Create.

(** C4 as stated fails: company and role are there, and Create answers 500,
    because the date is invalid; the payload [null], which has neither, gets
    500 and not 400; and so does a payload with an empty company whose role
    cannot be converted. *)
Lemma C4_counterexample :
  trimmed (field create_late "company") = "Acme"
  /\ trimmed (field create_late "role") = "Engineer"
  /\ JobsRoute.POST sample_Date_parse 50 "job3" (inr create_late) db1
     = (error_response "Failed to create job" 500, db1)
  /\ JobsRoute.POST sample_Date_parse 50 "job3" (inr JS.Null) db1
     = (error_response "Failed to create job" 500, db1)
  /\ trimmed (field create_odd "company") = ""
  /\ JobsRoute.POST sample_Date_parse 50 "job3" (inr create_odd) db1
     = (error_response "Failed to create job" 500, db1).
Proof. repeat split; vm_compute; reflexivity. Qed.

Lemma C4_witness :
  db1 !! "job3" = None
  /\ NextResponse.status (fst (JobsRoute.POST sample_Date_parse 50 "job3" create_acme db1)) = 201
  /\ exists body, create_acme = inr body /\ creatable sample_Date_parse body.
Proof.
  assert (db1 !! "job3" = None) as Hfresh by (vm_compute; reflexivity).
  split; [exact Hfresh|]. split; [vm_compute; reflexivity|].
  apply (proj1 (C4_create sample_Date_parse 50 "job3" create_acme db1 Hfresh)).
  vm_compute. reflexivity.
Defined.

Example create_acme_result :
  fst (JobsRoute.POST sample_Date_parse 50 "job3" create_acme db1)
  = NextResponse.json_with (NextResponse.JobOf
      (Job.mk "job3" "Acme" "Engineer" Job.SAVED None None None None None None 50 50)) 201.
Proof. vm_compute. reflexivity. Qed.

(** ** C5: the optimistic stage move *)

Section StageMove.

Import Page.

Lemma pushToast_head uid k title message (st : State) :
  head (toasts (pushToast uid k title message st)) = Some (Toast uid k title message)
  /\ jobs (pushToast uid k title message st) = jobs st.
Proof. done. Qed.

Lemma moveJob_jobs (id : string) (s : Job.Status) (st : State) :
  jobs (fst (moveJob id s st))
  = (fun j => if bool_decide (Job.id j = id) then Job.with_status j s else j) <$> jobs st.
Proof. reflexivity. Qed.

(** C5: [moveJob] leaves, before the fetch settles, a job list in which the
    dropped record has the new stage and every other record is as it was.
    When the fetch settles with a response that is not ok, the list is put
    back to the list [moveJob] started from, whatever happened in between, and
    the failure toast is on top; when the response is ok the list is not
    touched, the success toast is on top, and (nothing else having changed the
    list) the record has the new stage.  A drop with a card being dragged is
    such a move of that card. *)
Theorem C5_optimistic_move (id : string) (s : Job.Status) (st : State) :
  let started := moveJob id s st in
  (forall j, j ∈ jobs st -> Job.id j = id -> Job.with_status j s ∈ jobs (fst started))
  /\ (forall j, j ∈ jobs st -> Job.id j <> id -> j ∈ jobs (fst started))
  /\ (forall j', j' ∈ jobs (fst started) -> Job.id j' = id -> Job.status j' = s)
  /\ length (jobs (fst started)) = length (jobs st)
  /\ toasts (fst started) = toasts st
  /\ (forall (later : State) (uid : string) (res : NextResponse.t),
        let final := moveJob_resume (snd started) uid (Resolved res) later in
        (NextResponse.ok res = false ->
           jobs final = jobs st /\ head (toasts final) = Some (move_failed uid))
        /\ (NextResponse.ok res = true ->
              jobs final = jobs later /\ head (toasts final) = Some (move_done uid s)
              /\ (later = fst started ->
                  forall j', j' ∈ jobs final -> Job.id j' = id -> Job.status j' = s)))
  /\ (dragId st = id -> id <> "" ->
      onDrop s st = (setOverCol None (setDragId "" (fst started)), Some (snd started))
      /\ jobs (fst (onDrop s st)) = jobs (fst started)).
Proof.
  cbv zeta.
  assert (forall j', j' ∈ jobs (fst (moveJob id s st)) -> Job.id j' = id -> Job.status j' = s)
    as Hnew.
  { intros j'. rewrite moveJob_jobs. intros (j & -> & Hj)%list_elem_of_fmap.
    case_bool_decide; [done|]. by intros ?. }
  split_and!.
  - intros j Hj Hid. rewrite moveJob_jobs. apply list_elem_of_fmap.
    exists j. by rewrite bool_decide_eq_true_2.
  - intros j Hj Hid. rewrite moveJob_jobs. apply list_elem_of_fmap.
    exists j. by rewrite bool_decide_eq_false_2.
  - exact Hnew.
  - rewrite moveJob_jobs. apply length_fmap.
  - reflexivity.
  - intros later uid res. unfold moveJob_resume. split.
    + intros ->. cbn [negb]. split; reflexivity.
    + intros ->. cbn [negb]. split_and!; [reflexivity..|].
      intros ->. exact Hnew.
  - intros Hd Hid%is_empty_false. unfold onDrop. rewrite Hd, Hid. done.
Qed.

End StageMove.

(** Acme dropped onto APPLIED: it shows as APPLIED at once; the server's
    answer for a store that holds job1 is ok and the card stays; the answer
    for a store that does not hold it is the 500 response, and the list is
    the one before the drop. *)
Example drop_on_applied :
  Page.jobs (fst (Page.onDrop Job.APPLIED board)) = [Job.with_status acme Job.APPLIED; beta]
  /\ (forall p, snd (Page.onDrop Job.APPLIED board) = Some p ->
      Page.jobs (Page.moveJob_resume p "t1"
                   (Page.Resolved (fst (JobIdRoute.PATCH sample_Date_parse 40 (Page.moved p)
                                          (Page.moveJob_body (Page.newStatus p)) db2)))
                   (fst (Page.onDrop Job.APPLIED board)))
      = [Job.with_status acme Job.APPLIED; beta]
      /\ Page.jobs (Page.moveJob_resume p "t1"
                      (Page.Resolved (fst (JobIdRoute.PATCH sample_Date_parse 40 (Page.moved p)
                                             (Page.moveJob_body (Page.newStatus p)) ∅)))
                      (fst (Page.onDrop Job.APPLIED board)))
         = [acme; beta]).
Proof.
  split; [vm_compute; reflexivity|]. intros p [= <-]. split; vm_compute; reflexivity.
Qed.

(** ** C6: company and role are never empty *)

Section Names.

Variable Date_parse : string -> option Z.




Lemma PATCH_failed_store now id (req : Request) db :
  NextResponse.status (fst (JobIdRoute.PATCH Date_parse now id req db)) <> 200 ->
  snd (JobIdRoute.PATCH Date_parse now id req db) = db.
Proof.
  destruct (decide (id = "")) as [->|Hid]; [done|].
  destruct req as [e|body]; [by rewrite PATCH_throws by eauto|].
  destruct (null_or_not body) as [->|Hb]; [by rewrite PATCH_throws by eauto|].
  rewrite (PATCH_non_null _ _ _ _ _ Hid Hb). cbv zeta.
  destruct (converts body); [|done].
  destruct (JobIdRoute.set_but_empty _); [done|].
  destruct (JobIdRoute.set_but_empty _); [done|].
  by destruct (Prisma.update _ _ _ _).
Qed.













End Names.


(** ** C7: malformed query parameters *)

Section Ordering.

Global Instance before_total (o : Prisma.OrderBy) : Total (Prisma.before o).
Proof.
  destruct o as [[] []]; intros a b; unfold Prisma.before; cbn [Prisma.by_ Prisma.dir];
    try lia; apply (total String.le).
Qed.

Global Instance before_trans (o : Prisma.OrderBy) : Transitive (Prisma.before o).
Proof.
  destruct o as [[] []]; intros a b c; unfold Prisma.before; cbn [Prisma.by_ Prisma.dir];
    try lia; intros; by etrans.
Qed.

(** List hands back its rows in the order asked for. *)
Lemma listed_sorted q status sort (db : Prisma.Store) :
  StronglySorted
    (Prisma.before (JobsRoute.orderBy (JobsRoute.normalizeSort (JobsRoute.searchParam sort))))
    (listed (fst (JobsRoute.GET q status sort db))).
Proof.
  rewrite GET_cases. destruct (JS.is_empty _); cbn [fst listed NextResponse.body
    NextResponse.json NextResponse.unhandled]; [|constructor].
  apply StronglySorted_merge_sort; apply _.
Qed.

Lemma normalizeStatus_unknown (text : string) :
  JS.toUpperCase (JS.trim text) ∉ Job.name <$> Job.values ->
  JobsRoute.normalizeStatus (JobsRoute.searchParam (Some text)) = None.
Proof.
  intros H%of_name_None. unfold JobsRoute.normalizeStatus. cbn [JobsRoute.searchParam JS.or_empty JS.printed].
  rewrite H. by destruct (_ || _).
Qed.

Lemma normalizeSort_unknown (text : string) :
  JS.trim text ∉ JobsRoute.allowed ->
  JobsRoute.normalizeSort (JobsRoute.searchParam (Some text)) = "updated_desc".
Proof.
  intros H. unfold JobsRoute.normalizeSort. cbn [JobsRoute.searchParam JS.or_empty JS.printed].
  by rewrite bool_decide_eq_false_2.
Qed.

(** C7 as amended: a [status] parameter whose trimmed, upper-cased text is
    none of the five enum values restricts nothing (List answers as it does
    without the parameter, and as it does for "all"); a [sort] parameter whose
    trimmed text is none of the six keys gives the answer of "updated_desc",
    which is ordered by [updatedAt], latest first; and neither parameter makes
    List fail: it answers as it does without them, which is 200 unless the
    request carries a search text. *)
Theorem C7_malformed_parameters (q status sort : option string) (db : Prisma.Store) :
  (forall text, status = Some text ->
     JS.toUpperCase (JS.trim text) ∉ Job.name <$> Job.values ->
     JobsRoute.GET q status sort db = JobsRoute.GET q None sort db
     /\ JobsRoute.GET q status sort db = JobsRoute.GET q (Some "all") sort db)
  /\ (forall text, sort = Some text ->
        JS.trim text ∉ JobsRoute.allowed ->
        JobsRoute.GET q status sort db = JobsRoute.GET q status (Some "updated_desc") db
        /\ StronglySorted (fun a b => Job.updatedAt b <= Job.updatedAt a)
             (listed (fst (JobsRoute.GET q status sort db))))
  /\ NextResponse.status (fst (JobsRoute.GET q status sort db))
     = NextResponse.status (fst (JobsRoute.GET q None None db))
  /\ (blank q -> NextResponse.status (fst (JobsRoute.GET q status sort db)) = 200).
Proof.
  split_and!.
  - intros text -> H. rewrite !GET_cases. by rewrite (normalizeStatus_unknown _ H).
  - intros text -> H.
    pose proof (listed_sorted q status (Some text) db) as Hs.
    rewrite (normalizeSort_unknown _ H) in Hs. split; [|exact Hs].
    rewrite !GET_cases. by rewrite (normalizeSort_unknown _ H).
  - by rewrite !GET_status.
  - intros Hq. rewrite GET_status. unfold blank in Hq. by rewrite Hq.
Qed.

End Ordering.

(** C7 as stated fails: a parameter is trimmed (and a status upper-cased)
    before it is looked up.  "applied" is none of the five enum values, and it
    restricts the list to the APPLIED record; " updated_asc " is none of the
    six keys, and the list comes oldest first. *)
Lemma C7_counterexample :
  ("applied" ∉ Job.name <$> Job.values)
  /\ listed (fst (JobsRoute.GET None (Some "applied") None db2)) = [beta]
  /\ listed (fst (JobsRoute.GET None (Some "all") None db2)) = [beta; acme]
  /\ (" updated_asc " ∉ JobsRoute.allowed)
  /\ listed (fst (JobsRoute.GET None None (Some " updated_asc ") db2)) = [acme; beta]
  /\ listed (fst (JobsRoute.GET None None (Some "updated_desc") db2)) = [beta; acme].
Proof.
  split_and!; try (vm_compute; reflexivity).
  - apply of_name_None. vm_compute. reflexivity.
  - apply (bool_decide_eq_false (" updated_asc " ∈ JobsRoute.allowed)). vm_compute. reflexivity.
Qed.

(** ** C8: an Update with a status that is not recognized *)

Section UnrecognisedStatus.

Variable Date_parse : string -> option Z.

Lemma member_without (k k' : string) (ms : list (string * JS.Value)) :
  JS.member k' (filter (fun m => fst m <> k) ms) = if decide (k' = k) then None else JS.member k' ms.
Proof.
  induction ms as [|[k0 v] ms IH]; [by case_decide|].
  rewrite filter_cons. cbn [fst]. destruct (decide (k0 <> k)) as [Hk0|Hk0].
  - cbn [JS.member]. rewrite IH. case_decide as Hk'; [|done].
    subst k'. destruct (String.eqb_spec k k0); [by subst|done].
  - apply dec_stable in Hk0 as ->. rewrite IH. cbn [JS.member].
    case_decide as Hk'; [done|].
    destruct (JS.member k' ms); [done|].
    destruct (String.eqb_spec k' k); [by subst|done].
Qed.

Lemma field_without (k k' : string) (body : JS.Value) :
  field (without k body) k' = if decide (k' = k) then None else field body k'.
Proof.
  destruct body; cbn [without field]; try by case_decide.
  apply member_without.
Qed.

Lemma without_null (k : string) (body : JS.Value) : without k body = JS.Null <-> body = JS.Null.
Proof. by destruct body. Qed.

Lemma patch_data_without_status (body : JS.Value) :
  JobIdRoute.normalizeStatus (field body "status") = None ->
  patch_data Date_parse (without "status" body) = patch_data Date_parse body.
Proof.
  intros Hs. unfold patch_data. rewrite !field_without.
  repeat (case_decide; [discriminate|]). case_decide; [|done].
  rewrite Hs. by destruct (field body "status").
Qed.

Lemma converts_without_status (body : JS.Value) :
  printable (field body "status") = true ->
  converts (without "status" body) = converts body.
Proof.
  intros Hs. unfold converts, payload_keys. cbn [forallb]. rewrite !field_without.
  repeat (case_decide; [discriminate|]). case_decide; [|done]. by rewrite Hs.
Qed.

(** C8 as amended: an Update whose payload carries a status that converts to
    a text [normalizeStatus] does not recognize is answered, and changes the
    store, exactly as the same payload without the status member: no error
    comes from it, and the record under the identifier keeps its status.
    Where the rest of the payload is one the handler accepts and the record is
    there, the update is carried out: the answer is 200 with the updated
    record, which has the status it had and the supplied fields as Update
    sets them.  A status that does not convert makes the Update fail: the
    answer is 500 and the store is as it was. *)
Theorem C8_unrecognised_status now id (body : JS.Value) (v : JS.Value) (db : Prisma.Store) :
  field body "status" = Some v ->
  (JS.unprintable v = false ->
   JobIdRoute.normalizeStatus (Some v) = None ->
   JobIdRoute.PATCH Date_parse now id (inr body) db
   = JobIdRoute.PATCH Date_parse now id (inr (without "status" body)) db
   /\ (forall old j,
         db !! id = Some old ->
         snd (JobIdRoute.PATCH Date_parse now id (inr body) db) !! id = Some j ->
         Job.status j = Job.status old)
   /\ (forall old,
         id <> "" -> db !! id = Some old -> patchable Date_parse (without "status" body) ->
         exists job,
           JobIdRoute.PATCH Date_parse now id (inr body) db
           = (NextResponse.json (NextResponse.JobOf job), <[id := job]> db)
           /\ Job.status job = Job.status old
           /\ updates_only_supplied (without "status" body) old job))
  /\ (JS.unprintable v = true ->
      id <> "" ->
      JobIdRoute.PATCH Date_parse now id (inr body) db
      = (error_response "Failed to update job" 500, db)).
Proof.
  intros Hv.
  assert (body <> JS.Null) as Hb by (by intros ->).
  split.
  2: { intros Hp Hid. rewrite (PATCH_non_null _ _ _ _ _ Hid Hb).
       assert (converts body = false) as ->; [|done].
       apply not_true_is_false. intros Hc%converts_spec.
       assert (printable (field body "status") = true) as Hs.
       { apply Hc. unfold payload_keys. set_solver. }
       rewrite Hv in Hs. cbn [printable] in Hs. by rewrite Hp in Hs. }
  intros Hp Hs. rewrite <- Hv in Hs.
  assert (printable (field body "status") = true) as Hps.
  { rewrite Hv. cbn [printable]. by rewrite Hp. }
  assert (JobIdRoute.PATCH Date_parse now id (inr body) db
          = JobIdRoute.PATCH Date_parse now id (inr (without "status" body)) db) as Heq.
  { destruct (decide (id = "")) as [->|Hid]; [done|].
    rewrite !PATCH_non_null by (done || by rewrite without_null).
    by rewrite converts_without_status, patch_data_without_status. }
  split_and!; [done|..].
  - intros old j Hold Hj.
    destruct (decide (NextResponse.status (fst (JobIdRoute.PATCH Date_parse now id (inr body) db)) = 200))
      as [H200|Hne].
    + destruct (PATCH_ok_inv Date_parse now id (inr body) db
                  (fst (JobIdRoute.PATCH Date_parse now id (inr body) db))
                  (snd (JobIdRoute.PATCH Date_parse now id (inr body) db)))
        as (body' & old' & at_ & [= <-] & _ & _ & Hold' & _ & _ & _ & _ & Hdb' & _);
        [apply surjective_pairing|done|].
      rewrite Hdb', lookup_insert_eq in Hj. injection Hj as <-.
      rewrite Hold in Hold'. injection Hold' as <-.
      unfold Prisma.merged, patch_data. cbn [Job.status Prisma.JobUpdateInput.status].
      rewrite Hs. by destruct (field body "status").
    + rewrite PATCH_failed_store in Hj by done. congruence.
  - intros old Hid Hold Hok. rewrite Heq.
    destruct (PATCH_accepts Date_parse now id _ db old Hid Hold Hok) as (at_ & Hat & ->).
    eexists. split_and!; [reflexivity| |by apply merged_only_supplied].
    unfold Prisma.merged, patch_data. cbn [Job.status Prisma.JobUpdateInput.status].
    by rewrite field_without.
Qed.

End UnrecognisedStatus.

(** C8 as stated fails: a status that is none of the five enum values is not
    always ignored.  The status of this payload is an object that [String]
    cannot convert; the rest of the payload is a note, which the Update
    without the status stores; with the status the answer is 500 and the note
    is not stored. *)
Lemma C8_counterexample :
  field to_odd_status "status" = Some odd
  /\ (forall s, odd <> JS.Str (Job.name s))
  /\ JobIdRoute.normalizeStatus_call (Some odd) = inl JS.TypeError
  /\ JobIdRoute.PATCH sample_Date_parse 40 "job1" (inr to_odd_status) db1
     = (error_response "Failed to update job" 500, db1)
  /\ fst (JobIdRoute.PATCH sample_Date_parse 40 "job1" (inr (without "status" to_odd_status)) db1)
     = NextResponse.json (NextResponse.JobOf
         (Job.mk "job1" "Acme" "Engineer" Job.SAVED None None None (Some "rang them") None None
            10 40)).
Proof. split_and!; try (vm_compute; reflexivity). intros s. discriminate. Qed.

Lemma C8_witness :
  field to_pending "status" = Some (JS.Str "pending")
  /\ (JS.unprintable (JS.Str "pending") = false ->
      JobIdRoute.normalizeStatus (Some (JS.Str "pending")) = None ->
      JobIdRoute.PATCH sample_Date_parse 40 "job1" (inr to_pending) db1
      = JobIdRoute.PATCH sample_Date_parse 40 "job1" (inr (without "status" to_pending)) db1)
  /\ JS.unprintable (JS.Str "pending") = false
  /\ JobIdRoute.normalizeStatus (Some (JS.Str "pending")) = None.
Proof.
  split; [reflexivity|]. split; [|split; reflexivity].
  intros Hp Hs.
  exact (proj1 (proj1 (C8_unrecognised_status sample_Date_parse 40 "job1" to_pending
                         (JS.Str "pending") db1 eq_refl) Hp Hs)).
Defined.

Example to_pending_result :
  fst (JobIdRoute.PATCH sample_Date_parse 40 "job1" (inr to_pending) db1)
  = NextResponse.json (NextResponse.JobOf
      (Job.mk "job1" "Acme" "Engineer" Job.SAVED None None None (Some "rang them") None None 10 40)).
Proof. vm_compute. reflexivity. Qed.

(** ** C10: status inputs are trimmed and upper-cased *)

Section StatusInputs.





End StatusInputs.


(** The inputs "applied" and " Applied " on the three paths. *)
Example applied_inputs :
  listed (fst (JobsRoute.GET None (Some " Applied ") None db2)) = [beta]
  /\ (exists job,
        fst (JobsRoute.POST sample_Date_parse 50 "job3"
               (inr (JS.Obj [("company", JS.Str "Gamma"); ("role", JS.Str "Tester");
                             ("status", JS.Str "applied")])) db2)
        = NextResponse.json_with (NextResponse.JobOf job) 201
        /\ Job.status job = Job.APPLIED)
  /\ (exists job,
        fst (JobIdRoute.PATCH sample_Date_parse 50 "job1"
               (inr (JS.Obj [("status", JS.Str " Applied ")])) db2)
        = NextResponse.json (NextResponse.JobOf job)
        /\ Job.status job = Job.APPLIED).
Proof.
  split_and!; [vm_compute; reflexivity|eexists; split; vm_compute; reflexivity..].
Qed.

(** ** A session

    Create Acme, move it to APPLIED, delete it, list, delete it again. *)

Example session :
  let created := JobsRoute.POST sample_Date_parse 50 "job3" create_acme ∅ in
  let moved := JobIdRoute.PATCH sample_Date_parse 60 "job3" to_applied (snd created) in
  let deleted := JobIdRoute.DELETE "job3" (snd moved) in
  let again := JobIdRoute.DELETE "job3" (snd deleted) in
  fst created
  = NextResponse.json_with (NextResponse.JobOf
      (Job.mk "job3" "Acme" "Engineer" Job.SAVED None None None None None None 50 50)) 201
  /\ fst moved
     = NextResponse.json (NextResponse.JobOf
         (Job.mk "job3" "Acme" "Engineer" Job.APPLIED None None None None None None 50 60))
  /\ fst deleted = NextResponse.json NextResponse.Ok
  /\ listed (fst (JobsRoute.GET None None None (snd deleted))) = []
  /\ fst again = error_response "Failed to delete job" 500.
Proof. cbv zeta. split_and!; vm_compute; reflexivity. Qed.

(** * More of the code: properties *)

(** ** The four handlers together *)

Section Service.

Variable Date_parse : string -> option Z.

Lemma DELETE_failed_store id db :
  NextResponse.status (fst (JobIdRoute.DELETE id db)) <> 200 ->
  snd (JobIdRoute.DELETE id db) = db.
Proof.
  destruct (decide (id = "")) as [->|Hid]; [done|].
  destruct (db !! id) as [old|] eqn:Hold.
  - by rewrite (DELETE_known _ _ _ Hid Hold).
  - by rewrite (DELETE_unknown _ _ Hid Hold).
Qed.

(** X1: the handlers answer with four status codes only: List 200 when the
    request has no search text (none, or white space only) and 500 when it
    has one, Create 201, 400 or 500, Update and Delete 200, 400 or 500.  No
    request gets a 404, or any other code. *)
Theorem status_codes (c : Call) (db : Prisma.Store) :
  NextResponse.status (fst (serve Date_parse c db))
  ∈ match c with
    | CallGET _ _ _ => [200; 500]
    | CallPOST _ _ _ => [201; 400; 500]
    | CallPATCH _ _ _ | CallDELETE _ => [200; 400; 500]
    end
  /\ (forall q status sort, c = CallGET q status sort ->
        (blank q -> NextResponse.status (fst (serve Date_parse c db)) = 200)
        /\ (~ blank q -> NextResponse.status (fst (serve Date_parse c db)) = 500)).
Proof.
  split.
  - destruct c; cbn [serve].
    + rewrite GET_status. destruct (JS.is_empty _); set_solver.
    + apply POST_status.
    + apply PATCH_status.
    + apply (DELETE_status Date_parse).
  - intros q status sort ->. cbn [serve]. rewrite GET_status. unfold blank.
    destruct (JS.trim (default "" q)); cbn [JS.is_empty]; by split.
Qed.

(** X2: a call whose response is not ok (not 2xx) leaves the store exactly as
    it was: no handler writes and then reports a failure. *)
Theorem failure_leaves_store (c : Call) (db : Prisma.Store) :
  NextResponse.ok (fst (serve Date_parse c db)) = false ->
  snd (serve Date_parse c db) = db.
Proof.
  destruct c; cbn [serve]; intros Hok.
  - apply GET_reads_only.
  - apply POST_failed_store. intros H. unfold NextResponse.ok in Hok. by rewrite H in Hok.
  - apply PATCH_failed_store. intros H. unfold NextResponse.ok in Hok. by rewrite H in Hok.
  - apply DELETE_failed_store. intros H. unfold NextResponse.ok in Hok. by rewrite H in Hok.
Qed.

Lemma POST_store now newId (req : Request) db :
  snd (JobsRoute.POST Date_parse now newId req db) = db
  \/ exists job, Job.id job = newId /\ db !! newId = None
                 /\ snd (JobsRoute.POST Date_parse now newId req db) = <[newId := job]> db.
Proof.
  destruct (decide (NextResponse.status (fst (JobsRoute.POST Date_parse now newId req db)) = 201))
    as [H201|Hne]; [|left; by apply POST_failed_store].
  destruct (POST_created_inv Date_parse now newId req db
              (fst (JobsRoute.POST Date_parse now newId req db))
              (snd (JobsRoute.POST Date_parse now newId req db)))
    as (body & at_ & _ & _ & _ & _ & Hnew & _ & _ & -> & _);
    [apply surjective_pairing|done|].
  right. exists (Prisma.new_row now newId (post_data Date_parse body) at_). by split_and!.
Qed.

Lemma PATCH_store now id (req : Request) db :
  snd (JobIdRoute.PATCH Date_parse now id req db) = db
  \/ exists old job, db !! id = Some old /\ Job.id job = Job.id old
                     /\ snd (JobIdRoute.PATCH Date_parse now id req db) = <[id := job]> db.
Proof.
  destruct (decide (NextResponse.status (fst (JobIdRoute.PATCH Date_parse now id req db)) = 200))
    as [H200|Hne]; [|left; by apply PATCH_failed_store].
  destruct (PATCH_ok_inv Date_parse now id req db
              (fst (JobIdRoute.PATCH Date_parse now id req db))
              (snd (JobIdRoute.PATCH Date_parse now id req db)))
    as (body & old & at_ & _ & _ & _ & Hold & _ & _ & _ & _ & -> & _);
    [apply surjective_pairing|done|].
  right. exists old, (Prisma.merged now old (patch_data Date_parse body) at_). by split_and!.
Qed.

Lemma DELETE_store id db :
  snd (JobIdRoute.DELETE id db) = db \/ snd (JobIdRoute.DELETE id db) = delete id db.
Proof.
  destruct (decide (id = "")) as [->|Hid]; [by left|].
  destruct (db !! id) as [old|] eqn:Hold.
  - right. by rewrite (DELETE_known _ _ _ Hid Hold).
  - left. by rewrite (DELETE_unknown _ _ Hid Hold).
Qed.

(** X3: a call touches at most the row of the identifier it names: the rows
    stored under every other identifier are the same after the call, whether
    it succeeds or fails.  List touches none. *)
Theorem other_rows_untouched (c : Call) (db : Prisma.Store) (k : string) :
  target c <> Some k ->
  snd (serve Date_parse c db) !! k = db !! k.
Proof.
  destruct c as [q status sort|now newId req|now id req|id]; cbn [serve target]; intros Hk.
  - by rewrite GET_reads_only.
  - destruct (POST_store now newId req db) as [->|(job & _ & _ & ->)]; [done|].
    apply lookup_insert_ne. congruence.
  - destruct (PATCH_store now id req db) as [->|(old & job & _ & _ & ->)]; [done|].
    apply lookup_insert_ne. congruence.
  - destruct (DELETE_store id db) as [->| ->]; [done|].
    apply lookup_delete_ne. congruence.
Qed.

Lemma keyed_insert (db : Prisma.Store) k (j : Job.t) :
  keyed db -> Job.id j = k -> keyed (<[k := j]> db).
Proof.
  intros Hdb Hj k' j'. rewrite lookup_insert. case_decide; [by intros [= <-]; subst|].
  apply Hdb.
Qed.

Lemma keyed_delete (db : Prisma.Store) k : keyed db -> keyed (delete k db).
Proof. intros Hdb k' j' [_ H]%lookup_delete_Some. by apply Hdb. Qed.

Lemma serve_keyed (c : Call) db : keyed db -> keyed (snd (serve Date_parse c db)).
Proof.
  intros Hdb. destruct c as [q status sort|now newId req|now id req|id]; cbn [serve].
  - by rewrite GET_reads_only.
  - destruct (POST_store now newId req db) as [->|(job & Hid & _ & ->)]; [done|].
    by apply keyed_insert.
  - destruct (PATCH_store now id req db) as [->|(old & job & Hold & Hid & ->)]; [done|].
    apply keyed_insert; [done|]. rewrite Hid. by apply Hdb.
  - destruct (DELETE_store id db) as [->| ->]; [done|]. by apply keyed_delete.
Qed.

Lemma run_keyed (calls : list Call) db : keyed db -> keyed (run Date_parse calls db).
Proof.
  revert db. induction calls as [|c calls IH]; intros db Hdb; [done|].
  apply IH. by apply serve_keyed.
Qed.

Lemma rows_NoDup (db : Prisma.Store) : keyed db -> NoDup (Prisma.rows db).
Proof.
  intros Hdb. unfold Prisma.rows.
  apply (NoDup_fmap_2_strong snd); [|apply NoDup_map_to_list].
  intros [k1 j1] [k2 j2] H1%elem_of_map_to_list H2%elem_of_map_to_list Heq.
  cbn in Heq. subst j2. f_equal. by rewrite <- (Hdb _ _ H1), <- (Hdb _ _ H2).
Qed.

(** X4: after any sequence of calls from the empty store every row sits under
    its own identifier (no Update changes an [id], whatever the payload
    holds); so List never answers with the same record twice, and the record
    it lists for an identifier is the one stored under it. *)
Theorem identifiers_are_keys (calls : list Call) (q status sort : option string) :
  let db := run Date_parse calls ∅ in
  keyed db
  /\ NoDup (listed (fst (JobsRoute.GET q status sort db)))
  /\ (forall j, j ∈ listed (fst (JobsRoute.GET q status sort db)) -> db !! Job.id j = Some j).
Proof.
  cbv zeta.
  assert (keyed (run Date_parse calls ∅)) as Hk.
  { apply run_keyed. intros k j. by rewrite lookup_empty. }
  split; [done|]. split.
  - rewrite GET_cases. destruct (JS.is_empty _);
      cbn [fst listed NextResponse.body NextResponse.json NextResponse.unhandled];
      [|apply NoDup_nil_2].
    rewrite merge_sort_Permutation. apply NoDup_filter. by apply rows_NoDup.
  - intros j. rewrite elem_of_listed. intros (_ & [k Hj] & _). by rewrite (Hk _ _ Hj).
Qed.

End Service.

(** ** Create and Update, field by field *)

Section Fields.

Variable Date_parse : string -> option Z.

Local Arguments text_or_null : simpl never.
Local Arguments date_or_null : simpl never.

Lemma date_or_null_Num (t : Z) :
  t <> 0 -> Z.abs t <= JS.max_time ->
  date_or_null Date_parse (Some (JS.Num t)) = Some (JS.TimeValue t).
Proof.
  intros Ht Hmax. unfold date_or_null. cbn [JS.truthy JS.date_value].
  rewrite (proj2 (Z.eqb_neq t 0) Ht). cbn [negb]. unfold JS.TimeClip.
  by rewrite (proj2 (Z.leb_le _ _) Hmax).
Qed.

Lemma new_row_optional now newId (body : JS.Value) at_ :
  Prisma.date_column (date_or_null Date_parse (field body "nextActionAt")) = inr at_ ->
  optional_columns_of body (Prisma.new_row now newId (post_data Date_parse body) at_).
Proof.
  intros Hat. unfold optional_columns_of. split_and!.
  - intros k col Hin. unfold text_columns in Hin.
    repeat (apply elem_of_cons in Hin as [[= -> ->]|Hin]); [..|by apply elem_of_nil in Hin];
      (split; [intros Hk; cbn; by rewrite Hk|]);
      (split; [intros v Hk Hv; cbn; rewrite Hk; by rewrite (text_or_null_empty _ Hv)|]);
      intros s Hk Hs; exists (JS.trim s); (split; [|apply trim_spec]);
      cbn; rewrite Hk; by rewrite (text_or_null_Str _ Hs).
  - intros Hk. cbn. rewrite Hk in Hat. by injection Hat as <-.
  - intros v Hk Hv. cbn. rewrite Hk, (date_or_null_empty Date_parse _ Hv) in Hat.
    by injection Hat as <-.
  - intros t Hk Ht Hmax. cbn. rewrite Hk, (date_or_null_Num _ Ht Hmax) in Hat.
    by injection Hat as <-.
Qed.

Lemma new_row_text now newId (body : JS.Value) at_ k (col : Job.t -> option string) s :
  (k, col) ∈ text_columns -> field body k = Some (JS.Str s) -> s <> "" ->
  col (Prisma.new_row now newId (post_data Date_parse body) at_) = Some (JS.trim s).
Proof.
  intros Hin Hk Hs. unfold text_columns in Hin.
  repeat (apply elem_of_cons in Hin as [[= -> ->]|Hin]); [..|by apply elem_of_nil in Hin];
    cbn; rewrite Hk; by rewrite (text_or_null_Str _ Hs).
Qed.

Lemma merged_text now (body : JS.Value) (old : Job.t) at_ k (col : Job.t -> option string) s :
  (k, col) ∈ text_columns -> field body k = Some (JS.Str s) -> s <> "" ->
  col (Prisma.merged now old (patch_data Date_parse body) at_) = Some (JS.trim s).
Proof.
  intros Hin Hk Hs. unfold text_columns in Hin.
  repeat (apply elem_of_cons in Hin as [[= -> ->]|Hin]); [..|by apply elem_of_nil in Hin];
    cbn; rewrite Hk; cbn; by rewrite (text_or_null_Str _ Hs).
Qed.

(** X5: a Create that the handler accepts (the payload is not null, its
    fields convert to text, company and role are not blank, the date is
    valid) stores a row under the generated identifier with [createdAt] and
    [updatedAt] both the current time; each of [location], [url], [salary],
    [notes], [nextAction] is null when the payload omits it or has null or
    the empty string there, and the text without the white space around it
    when it has a string; [nextActionAt] is null in the same cases and the
    time value when the payload has a number in range. *)
Theorem create_fields now newId (body : JS.Value) (db : Prisma.Store) :
  db !! newId = None -> creatable Date_parse body ->
  exists job,
    JobsRoute.POST Date_parse now newId (inr body) db
    = (NextResponse.json_with (NextResponse.JobOf job) 201, <[newId := job]> db)
    /\ Job.id job = newId
    /\ Job.createdAt job = now /\ Job.updatedAt job = now
    /\ optional_columns_of body job.
Proof.
  intros Hnew Hok.
  destruct (POST_accepts Date_parse now newId body db Hnew Hok) as (at_ & Hat & HPOST).
  exists (Prisma.new_row now newId (post_data Date_parse body) at_).
  split_and!; [done..|]. by apply new_row_optional.
Qed.

(** X6: an optional text field that the payload fills with white space only
    (any of the ECMAScript white space and line terminator characters) is
    stored as the empty string, not as null, by a Create and by an Update
    that the handler accepts: only null and the empty string itself clear
    the column. *)
Theorem white_text_is_stored_empty now id (body : JS.Value) (db : Prisma.Store)
    (k : string) (col : Job.t -> option string) (s : string) :
  (k, col) ∈ text_columns ->
  field body k = Some (JS.Str s) -> s <> "" -> White s ->
  (db !! id = None -> creatable Date_parse body ->
   exists job,
     JobsRoute.POST Date_parse now id (inr body) db
     = (NextResponse.json_with (NextResponse.JobOf job) 201, <[id := job]> db)
     /\ col job = Some "")
  /\ (forall old, id <> "" -> db !! id = Some old -> patchable Date_parse body ->
      exists job,
        JobIdRoute.PATCH Date_parse now id (inr body) db
        = (NextResponse.json (NextResponse.JobOf job), <[id := job]> db)
        /\ col job = Some "").
Proof.
  intros Hin Hk Hs Hwhite. apply trim_empty in Hwhite. split.
  - intros Hnew Hok.
    destruct (POST_accepts Date_parse now id body db Hnew Hok) as (at_ & Hat & HPOST).
    eexists. split; [exact HPOST|].
    by rewrite (new_row_text now id body at_ k col s Hin Hk Hs), Hwhite.
  - intros old Hid Hold Hok.
    destruct (PATCH_accepts Date_parse now id body db old Hid Hold Hok) as (at_ & Hat & HPATCH).
    eexists. split; [exact HPATCH|].
    by rewrite (merged_text now body old at_ k col s Hin Hk Hs), Hwhite.
Qed.

Lemma fieldless_patch_data (body : JS.Value) :
  fieldless body ->
  patch_data Date_parse body
  = Prisma.JobUpdateInput.mk None None None None None None None None None.
Proof.
  intros [_ H]. unfold patch_data.
  rewrite !H by (unfold payload_keys; set_solver). reflexivity.
Qed.

Lemma fieldless_patchable (body : JS.Value) : fieldless body -> patchable Date_parse body.
Proof.
  intros [Hb H]. unfold patchable. split; [done|]. split.
  - intros k Hk. by rewrite (H k Hk).
  - rewrite !H by (unfold payload_keys; set_solver). by split_and!.
Qed.

(** X7: an Update whose payload has none of the nine fields (the empty
    object, but also a JSON number, string or array) succeeds on a record that
    is there, answers with that record, and changes nothing: the store is as
    it was, [updatedAt] included. *)
Theorem fieldless_update_changes_nothing now id (body : JS.Value) (db : Prisma.Store)
    (old : Job.t) :
  id <> "" -> db !! id = Some old -> fieldless body ->
  JobIdRoute.PATCH Date_parse now id (inr body) db
  = (NextResponse.json (NextResponse.JobOf old), db).
Proof.
  intros Hid Hold Hf.
  destruct (PATCH_accepts Date_parse now id body db old Hid Hold (fieldless_patchable _ Hf))
    as (at_ & Hat & ->).
  rewrite (fieldless_patch_data _ Hf) in Hat |- *.
  rewrite (merged_nothing now old
             (Prisma.JobUpdateInput.mk None None None None None None None None None) at_
             eq_refl Hat).
  by rewrite insert_id.
Qed.

Lemma merged_twice now1 now2 (old : Job.t) data at_ :
  Prisma.JobUpdateInput.is_empty data = false ->
  Prisma.merged now2 (Prisma.merged now1 old data at_) data at_
  = touched (Prisma.merged now1 old data at_) now2.
Proof.
  intros He. unfold Prisma.merged, touched. rewrite He. cbn.
  destruct data as [c r s l u sa n na nat]; cbn.
  by destruct c, r, s, l, u, sa, n, na, at_.
Qed.

(** X8: an accepted Update is idempotent but for the clock: sending the same
    payload again succeeds and leaves the record the first Update left, with
    [updatedAt] refreshed when the payload supplies a field, and the very
    same record when it supplies none. *)
Theorem update_twice now1 now2 id (body : JS.Value) (db : Prisma.Store) (old : Job.t) :
  id <> "" -> db !! id = Some old -> patchable Date_parse body ->
  exists job,
    JobIdRoute.PATCH Date_parse now1 id (inr body) db
    = (NextResponse.json (NextResponse.JobOf job), <[id := job]> db)
    /\ JobIdRoute.PATCH Date_parse now2 id (inr body) (<[id := job]> db)
       = (let job' := if writes Date_parse body then touched job now2 else job in
          (NextResponse.json (NextResponse.JobOf job'), <[id := job']> db)).
Proof.
  intros Hid Hold Hok.
  destruct (PATCH_accepts Date_parse now1 id body db old Hid Hold Hok) as (at_ & Hat & HPATCH).
  eexists. split; [exact HPATCH|].
  destruct (PATCH_accepts Date_parse now2 id body
              (<[id := Prisma.merged now1 old (patch_data Date_parse body) at_]> db)
              (Prisma.merged now1 old (patch_data Date_parse body) at_) Hid
              (lookup_insert_eq _ _ _) Hok) as (at' & Hat' & ->).
  rewrite Hat in Hat'. injection Hat' as <-. cbv zeta. unfold writes.
  destruct (Prisma.JobUpdateInput.is_empty (patch_data Date_parse body)) eqn:He; cbn [negb].
  - by rewrite !(merged_nothing _ _ _ _ He Hat), insert_insert_eq.
  - by rewrite (merged_twice _ _ _ _ _ He), insert_insert_eq.
Qed.

(** X9: Create and then Delete of the created identifier is a round trip: the
    Delete succeeds and the store is exactly the store before the Create. *)
Theorem create_then_delete now newId (req : Request) (db : Prisma.Store) :
  newId <> "" ->
  NextResponse.status (fst (JobsRoute.POST Date_parse now newId req db)) = 201 ->
  JobIdRoute.DELETE newId (snd (JobsRoute.POST Date_parse now newId req db))
  = (NextResponse.json NextResponse.Ok, db).
Proof.
  intros Hid H201.
  destruct (POST_created_inv Date_parse now newId req db
              (fst (JobsRoute.POST Date_parse now newId req db))
              (snd (JobsRoute.POST Date_parse now newId req db)))
    as (body & at_ & _ & _ & _ & _ & Hnew & _ & _ & -> & _);
    [apply surjective_pairing|done|].
  rewrite (DELETE_known newId _ _ Hid (lookup_insert_eq _ _ _)).
  by rewrite delete_insert_id.
Qed.

(** X10: a record that Create has just stored is in the answer of List without
    parameters, and every record List answered with before (whatever the
    parameters) is still in the answer after. *)
Theorem created_is_listed now newId (req : Request) (db : Prisma.Store) (job : Job.t)
    (q status sort : option string) :
  fst (JobsRoute.POST Date_parse now newId req db)
  = NextResponse.json_with (NextResponse.JobOf job) 201 ->
  let db' := snd (JobsRoute.POST Date_parse now newId req db) in
  job ∈ listed (fst (JobsRoute.GET None None sort db'))
  /\ (forall j, j ∈ listed (fst (JobsRoute.GET q status sort db)) ->
                j ∈ listed (fst (JobsRoute.GET q status sort db'))).
Proof.
  intros Hres db'.
  destruct (POST_created_inv Date_parse now newId req db
              (fst (JobsRoute.POST Date_parse now newId req db)) db')
    as (body & at_ & _ & _ & _ & _ & Hnew & _ & Hjob & Hdb' & _);
    [apply surjective_pairing|by rewrite Hres|].
  rewrite Hres in Hjob. injection Hjob as Hjob. rewrite <- Hjob in Hdb'.
  split.
  - apply elem_of_listed. split_and!; [done| |done].
    exists newId. rewrite Hdb'. apply lookup_insert_eq.
  - intros j. rewrite !elem_of_listed. intros (Hq & [k Hk] & Hm). split_and!; [done| |done].
    exists k. rewrite Hdb'. rewrite lookup_insert_ne; [done|]. congruence.
Qed.

End Fields.
(** ** Query parameters *)

Section Parameters.

(** X11: List cannot search.  A request with a search text (a [q] that is
    not white space throughout) is answered 500 by the framework, with no
    list, whatever its [status] and [sort], and the store is left as it was;
    a [q] of white space only gets the answer of a request without [q]. *)
Theorem search_text_is_refused (q : string) (status sort : option string)
    (db : Prisma.Store) :
  (~ White q ->
   JobsRoute.GET (Some q) status sort db = (NextResponse.unhandled, db)
   /\ NextResponse.status (fst (JobsRoute.GET (Some q) status sort db)) = 500
   /\ listed (fst (JobsRoute.GET (Some q) status sort db)) = [])
  /\ (White q ->
      JobsRoute.GET (Some q) status sort db = JobsRoute.GET None status sort db
      /\ NextResponse.status (fst (JobsRoute.GET (Some q) status sort db)) = 200).
Proof.
  rewrite <- trim_empty. rewrite !GET_cases. cbn [default from_option id].
  destruct (JS.trim q) as [|c rest] eqn:E; cbn [JS.is_empty]; split; done.
Qed.

(** X12: the two filters of List act independently, and the sort key decides
    the order only: a record is in the answer for [q] and [status] exactly
    when it is in the answer for [q] alone and in the answer for [status]
    alone, and two requests that differ in [sort] only get the same records,
    reordered. *)
Theorem filters_compose (q status sort sort1 sort2 : option string) (db : Prisma.Store) :
  (forall j,
     j ∈ listed (fst (JobsRoute.GET q status sort db))
     <-> j ∈ listed (fst (JobsRoute.GET q None sort1 db))
         /\ j ∈ listed (fst (JobsRoute.GET None status sort2 db)))
  /\ listed (fst (JobsRoute.GET q status sort1 db))
     ≡ₚ listed (fst (JobsRoute.GET q status sort2 db)).
Proof.
  split.
  - intros j. rewrite !elem_of_listed. split.
    + intros (Hq & Hst & Hs). by split_and!.
    + intros ((Hq & Hst & _) & (_ & _ & Hs)). by split_and!.
  - rewrite !GET_cases. destruct (JS.is_empty _);
      cbn [fst listed NextResponse.body NextResponse.json NextResponse.unhandled]; [|done].
    cbn [JobsRoute.searchParam]. by rewrite !merge_sort_Permutation.
Qed.

Lemma allowed_trimmed (k : string) : k ∈ JobsRoute.allowed -> JS.trim k = k.
Proof.
  unfold JobsRoute.allowed. intros H.
  repeat (apply elem_of_cons in H as [->|H]); [done..|by apply elem_of_nil in H].
Qed.

Lemma normalizeSort_allowed (input : JS.MaybeUndefined) :
  JobsRoute.normalizeSort input ∈ JobsRoute.allowed.
Proof.
  unfold JobsRoute.normalizeSort. case_bool_decide; [done|].
  unfold JobsRoute.allowed. set_solver.
Qed.

Lemma normalizeSort_key (k : string) :
  k ∈ JobsRoute.allowed -> JobsRoute.normalizeSort (Some (JS.Str k)) = k.
Proof.
  intros Hk. unfold JobsRoute.normalizeSort. cbn [JS.or_empty JS.printed].
  rewrite (allowed_trimmed _ Hk). by rewrite bool_decide_eq_true_2.
Qed.

(** X13: [normalizeSort] always answers with one of the six keys; it keeps
    each of the six, also when white space surrounds it; and normalizing
    twice is normalizing once. *)
Theorem normalizeSort_closed (input : JS.MaybeUndefined) :
  JobsRoute.normalizeSort input ∈ JobsRoute.allowed
  /\ JobsRoute.normalizeSort (Some (JS.Str (JobsRoute.normalizeSort input)))
     = JobsRoute.normalizeSort input
  /\ (forall text, JS.trim text ∈ JobsRoute.allowed ->
        JobsRoute.normalizeSort (Some (JS.Str text)) = JS.trim text).
Proof.
  split_and!.
  - apply normalizeSort_allowed.
  - apply normalizeSort_key, normalizeSort_allowed.
  - intros text Hk. unfold JobsRoute.normalizeSort. cbn [JS.or_empty JS.printed].
    by rewrite bool_decide_eq_true_2.
Qed.

Lemma orderBy_key_order (k : string) (a b : Job.t) :
  k ∈ JobsRoute.allowed -> Prisma.before (JobsRoute.orderBy k) a b <-> key_order k a b.
Proof.
  unfold JobsRoute.allowed. intros H.
  repeat (apply elem_of_cons in H as [->|H]); [done..|by apply elem_of_nil in H].
Qed.

Lemma StronglySorted_weaken {A} (R R' : relation A) (l : list A) :
  (forall a b, R a b -> R' a b) -> StronglySorted R l -> StronglySorted R' l.
Proof.
  intros HR. induction 1 as [|a l _ IH Hall]; constructor; [done|].
  eapply Forall_impl; [exact Hall|]. intros b. apply HR.
Qed.

(** X14: for each of the six sort keys, List's answer is in the order the key
    names: whenever one record comes before another in the answer, the pair
    is in that order ([updatedAt] or [createdAt] rising or falling, company
    names in rising or falling byte order). *)
Theorem list_is_ordered (k : string) (q status : option string) (db : Prisma.Store) :
  k ∈ JobsRoute.allowed ->
  StronglySorted (key_order k) (listed (fst (JobsRoute.GET q status (Some k) db))).
Proof.
  intros Hk. eapply StronglySorted_weaken; [|apply listed_sorted].
  intros a b. cbn [JobsRoute.searchParam]. rewrite (normalizeSort_key _ Hk).
  by apply orderBy_key_order.
Qed.

(** X15: the two [normalizeStatus] functions (of the list route and of the
    record route) agree on every input, the test for the empty string and
    "ALL" in the first changing no answer; and an input is taken as a status
    exactly when its trimmed, upper-cased text is the name of that status. *)
Theorem normalizeStatus_agree (input : JS.MaybeUndefined) :
  JobsRoute.normalizeStatus input = JobIdRoute.normalizeStatus input
  /\ (forall s, JobIdRoute.normalizeStatus input = Some s
                <-> JS.toUpperCase (trimmed input) = Job.name s).
Proof.
  split.
  - unfold JobsRoute.normalizeStatus, JobIdRoute.normalizeStatus. cbv zeta.
    destruct (JS.is_empty _) eqn:He; cbn [orb].
    { apply is_empty_true in He. by rewrite He. }
    destruct (String.eqb_spec (JS.toUpperCase (JS.trim (JS.printed (JS.or_empty input)))) "ALL")
      as [->|_]; done.
  - intros s. unfold JobIdRoute.normalizeStatus. fold (trimmed input). cbv zeta. split.
    + apply of_name_Some.
    + intros ->. apply of_name_name.
Qed.

End Parameters.
(** ** The board: columns, statistics, toasts, moves *)

Section BoardFacts.

Import Board.

Variable Date_parse : string -> option Z.

Lemma get_set_eq (m : StatusMap) k v : get (set m k v) k = Some v.
Proof.
  induction m as [|[k' v'] m IH]; cbn; [by rewrite decide_True|].
  destruct (decide (k' = k)) as [->|Hne]; cbn.
  - by rewrite decide_True.
  - by rewrite decide_False.
Qed.

Lemma get_set_ne (m : StatusMap) k k0 v : k <> k0 -> get (set m k v) k0 = get m k0.
Proof.
  intros Hne. induction m as [|[k' v'] m IH]; cbn; [by rewrite decide_False|].
  destruct (decide (k' = k)) as [->|Hne']; cbn.
  - by rewrite !decide_False.
  - destruct (decide (k' = k0)); [done|apply IH].
Qed.

Lemma get_push (m : StatusMap) k (j : Job.t) k0 (l : list Job.t) :
  (forall s, is_Some (get m s)) -> get m k0 = Some l ->
  get (push m k j) k0 = Some (if decide (k = k0) then (l ++ [j])%list else l).
Proof.
  intros Hall Hl. unfold push. destruct (Hall k) as [lk Hlk]. rewrite Hlk.
  destruct (decide (k = k0)) as [->|Hne].
  - rewrite get_set_eq. congruence.
  - by rewrite get_set_ne.
Qed.

Lemma push_total (m : StatusMap) k (j : Job.t) :
  (forall s, is_Some (get m s)) -> forall s, is_Some (get (push m k j) s).
Proof.
  intros Hall s. destruct (Hall s) as [l Hl]. rewrite (get_push _ _ _ _ _ Hall Hl). eauto.
Qed.

(** The loop [for (const j of jobs) m.get(j.status)?.push(j)] appends, to the
    list of each stage, the jobs of that stage in order. *)
Lemma get_fold_push (jobs : list Job.t) (m : StatusMap) k (l : list Job.t) :
  (forall s, is_Some (get m s)) -> get m k = Some l ->
  get (fold_left (fun m j => push m (Job.status j) j) jobs m) k
  = Some (l ++ filter (fun j => Job.status j = k) jobs)%list.
Proof.
  revert m l. induction jobs as [|j jobs IH]; intros m l Hall Hl; cbn [fold_left].
  - by rewrite filter_nil, app_nil_r.
  - rewrite (IH _ _ (push_total _ _ _ Hall) (get_push _ _ _ _ _ Hall Hl)).
    rewrite filter_cons. destruct (decide (Job.status j = k)); [|done].
    by rewrite <- app_assoc.
Qed.

Lemma column_filter (jobs : list Job.t) (k : Job.Status) :
  column jobs k = filter (fun j => Job.status j = k) jobs.
Proof.
  unfold column, grouped. cbv zeta.
  rewrite (get_fold_push jobs _ k []); [done| |by destruct k].
  intros s. by destruct s; eexists.
Qed.

Lemma count_total (jobs : list Job.t) :
  (count Job.SAVED jobs + count Job.APPLIED jobs + count Job.INTERVIEW jobs
   + count Job.OFFER jobs + count Job.REJECTED jobs = length jobs)%nat.
Proof.
  induction jobs as [|j jobs IH]; [done|]. rewrite !count_cons. cbn [length].
  destruct (Job.status j); repeat case_decide; try done; lia.
Qed.

(** X16: the board's columns split the job list by stage: the column of a
    stage shows exactly the jobs of that stage, in the order of the list; so
    every job is in the column of its own stage and in no other, and the
    number of cards in a column is the number the statistics row shows for
    that stage. *)
Theorem columns_partition (jobs : list Job.t) :
  (forall k, column jobs k = filter (fun j => Job.status j = k) jobs)
  /\ (forall j k, j ∈ column jobs k <-> j ∈ jobs /\ Job.status j = k)
  /\ Page.counts (Page.stats jobs)
     = Page.Counts.mk (length (column jobs Job.SAVED)) (length (column jobs Job.APPLIED))
         (length (column jobs Job.INTERVIEW)) (length (column jobs Job.OFFER))
         (length (column jobs Job.REJECTED)).
Proof.
  split_and!.
  - apply column_filter.
  - intros j k. rewrite column_filter, list_elem_of_filter. tauto.
  - rewrite stats_counts, !column_filter. reflexivity.
Qed.

(** X17: the five counters of the statistics add up to the total, which is
    the length of the job list: the counting loop misses no job and counts
    none twice. *)
Theorem counters_add_up (jobs : list Job.t) :
  let c := Page.counts (Page.stats jobs) in
  (Page.Counts.SAVED c + Page.Counts.APPLIED c + Page.Counts.INTERVIEW c
   + Page.Counts.OFFER c + Page.Counts.REJECTED c = Page.total (Page.stats jobs))%nat
  /\ Page.total (Page.stats jobs) = length jobs.
Proof.
  cbv zeta. rewrite stats_counts. cbn. split; [apply count_total|done].
Qed.

Lemma toast_step_length (st : Page.State) (e : ToastEvent) :
  (length (Page.toasts (toast_step st e)) <= 4 `max` length (Page.toasts st))%nat.
Proof.
  destruct e as [uid k title message|id]; cbn.
  - rewrite length_take. lia.
  - etrans; [apply length_filter|]. lia.
Qed.

(** X18: the toast stack never grows past four: after any sequence of pushes
    and dismissals it holds at most four toasts (or as many as it started
    with, if that was more), with the toast pushed last on top; a dismissal
    removes the toasts of that identifier and no other; and none of this
    touches the job list. *)
Theorem toast_stack (events : list ToastEvent) (st : Page.State) :
  (length (Page.toasts (fold_left toast_step events st)) <= 4 `max` length (Page.toasts st))%nat
  /\ Page.jobs (fold_left toast_step events st) = Page.jobs st
  /\ (forall uid k title message,
        Page.toasts (toast_step st (Push uid k title message))
        = Page.Toast uid k title message :: take 3 (Page.toasts st))
  /\ (forall id t, t ∈ Page.toasts (toast_step st (Dismiss id))
                   <-> t ∈ Page.toasts st /\ Page.toast_id t <> id).
Proof.
  split_and!.
  - revert st. induction events as [|e events IH]; intros st; cbn [fold_left]; [lia|].
    etrans; [apply IH|]. pose proof (toast_step_length st e). lia.
  - revert st. induction events as [|e events IH]; intros st; cbn [fold_left]; [done|].
    rewrite IH. by destruct e.
  - done.
  - intros id t. cbn. rewrite list_elem_of_filter. tauto.
Qed.

Lemma with_status_same (j : Job.t) : Job.with_status j (Job.status j) = j.
Proof. by destruct j. Qed.

Lemma count_fmap_move (id : string) (s t : Job.Status) (jobs : list Job.t) :
  count t ((fun j => if bool_decide (Job.id j = id) then Job.with_status j s else j) <$> jobs)
  = (count t (filter (fun j => Job.id j <> id) jobs)
     + if decide (t = s) then length (filter (fun j => Job.id j = id) jobs) else 0)%nat.
Proof.
  induction jobs as [|j jobs IH]; [by case_decide|].
  rewrite fmap_cons, count_cons, IH, !filter_cons.
  destruct (decide (Job.id j = id)) as [Hid|Hid];
    destruct (decide (Job.id j <> id)) as [Hid'|Hid']; try done.
  - rewrite bool_decide_eq_true_2 by done. cbn [Job.with_status Job.status].
    destruct (decide (s = t)) as [->|Hne].
    + rewrite !decide_True by done. cbn [length]. lia.
    + rewrite !decide_False by congruence. lia.
  - rewrite bool_decide_eq_false_2 by done. rewrite count_cons. lia.
Qed.

(** X19: what a move does to the list and to the statistics.  If no job has
    the identifier, or those that have it are in the target stage already, the
    list stays as it is.  In general the jobs of other identifiers keep their
    stage, those of the identifier are all counted in the target stage, and
    the total stays the same. *)
Theorem move_counts (id : string) (s : Job.Status) (st : Page.State) :
  let after := Page.jobs (fst (Page.moveJob id s st)) in
  ((forall j, j ∈ Page.jobs st -> Job.id j = id -> Job.status j = s) -> after = Page.jobs st)
  /\ (forall t,
        count t after
        = (count t (filter (fun j => Job.id j <> id) (Page.jobs st))
           + if decide (t = s)
             then length (filter (fun j => Job.id j = id) (Page.jobs st)) else 0)%nat)
  /\ Page.total (Page.stats after) = Page.total (Page.stats (Page.jobs st)).
Proof.
  cbv zeta. rewrite moveJob_jobs. split_and!.
  - intros H. induction (Page.jobs st) as [|j jobs IH]; [done|].
    rewrite fmap_cons, IH by (intros; apply H; [by right|done]). f_equal.
    case_bool_decide as Hid; [|done].
    rewrite <- (H j (list_elem_of_here _ _) Hid). apply with_status_same.
  - intros t. apply count_fmap_move.
  - cbn. apply length_fmap.
Qed.

Lemma moveJob_body_data (s : Job.Status) :
  patch_data Date_parse (JS.Obj [("status", JS.Str (Job.name s))])
  = Prisma.JobUpdateInput.mk None None (Some s) None None None None None None.
Proof. by destruct s. Qed.

Lemma moveJob_body_converts (s : Job.Status) :
  converts (JS.Obj [("status", JS.Str (Job.name s))]) = true.
Proof. by destruct s. Qed.

Lemma PATCH_move now id (s : Job.Status) db (old : Job.t) :
  id <> "" -> db !! id = Some old ->
  JobIdRoute.PATCH Date_parse now id (Page.moveJob_body s) db
  = (NextResponse.json (NextResponse.JobOf (touched (Job.with_status old s) now)),
     <[id := touched (Job.with_status old s) now]> db).
Proof.
  intros Hid Hold. unfold Page.moveJob_body.
  rewrite (PATCH_non_null _ _ _ _ _ Hid) by done. rewrite moveJob_body_converts. cbv zeta.
  rewrite moveJob_body_data. cbn [JobIdRoute.set_but_empty Prisma.JobUpdateInput.company
                                  Prisma.JobUpdateInput.role].
  by rewrite (update_known now id
                (Prisma.JobUpdateInput.mk None None (Some s) None None None None None None)
                db old None Hold eq_refl).
Qed.

(** X20: the request a move sends is one the server always accepts for a
    record it holds: the answer is ok, the stored record is the old one in the
    new stage with [updatedAt] refreshed (the row the board shows already,
    but for [updatedAt]), and the board keeps the move.  For an identifier
    the server does not hold the answer is not ok and the board goes back to
    the list before the move. *)
Theorem move_round_trip now (id : string) (s : Job.Status) (db : Prisma.Store)
    (st : Page.State) (uid : string) :
  id <> "" ->
  let started := Page.moveJob id s st in
  let out := JobIdRoute.PATCH Date_parse now id (Page.moveJob_body (Page.newStatus (snd started))) db in
  let final := Page.moveJob_resume (snd started) uid (Page.Resolved (fst out)) (fst started) in
  (forall old, db !! id = Some old ->
     out = (NextResponse.json (NextResponse.JobOf (touched (Job.with_status old s) now)),
            <[id := touched (Job.with_status old s) now]> db)
     /\ Page.jobs final = Page.jobs (fst started)
     /\ (old ∈ Page.jobs st -> Job.id old = id ->
         Job.with_status old s ∈ Page.jobs final))
  /\ (db !! id = None -> snd out = db /\ Page.jobs final = Page.jobs st).
Proof.
  intros Hid. cbv zeta. cbn [Page.moveJob snd fst Page.newStatus]. split.
  - intros old Hold. rewrite (PATCH_move now id s db old Hid Hold). split_and!; [done..|].
    intros Hin Hold_id. cbn. apply list_elem_of_fmap. exists old.
    by rewrite bool_decide_eq_true_2.
  - intros Hnone. unfold Page.moveJob_body.
    rewrite (PATCH_non_null _ _ _ _ _ Hid) by done. rewrite moveJob_body_converts. cbv zeta.
    rewrite moveJob_body_data. cbn [JobIdRoute.set_but_empty Prisma.JobUpdateInput.company
                                    Prisma.JobUpdateInput.role].
    destruct (update_unknown now id
                (Prisma.JobUpdateInput.mk None None (Some s) None None None None None None)
                db Hnone) as [e ->].
    done.
Qed.

End BoardFacts.

(** ** Loading the list *)

Section Loading.

Import App.

Lemma sort_text_allowed (k : SortKey) : sort_text k ∈ JobsRoute.allowed.
Proof. destruct k; unfold JobsRoute.allowed; set_solver. Qed.

(** X21: how a load ends.  While the fetch is out the page shows as loading,
    with the error text cleared and the list it had.  An answer that is ok
    puts its jobs in the list; one that is not ok empties the list and sets
    the error text; both end the loading.  A fetch that rejects leaves the
    page loading.  Toasts, busy flag, add form and modals are not touched. *)
Theorem load_settles (st0 st : State) (res : NextResponse.t) :
  let waiting := run (loadJobs st0) [] st in
  let final := run (loadJobs st0) [Page.Resolved res] st in
  let lost := run (loadJobs st0) [Page.Rejected] st in
  sent (loadJobs st0) [] = [reload st0]
  /\ (loading waiting = true /\ errorMsg waiting = "" /\ jobs waiting = jobs st)
  /\ loading final = false
  /\ (jobs final, errorMsg final)
     = (if NextResponse.ok res then (listed res, "") else ([], load_failed))
  /\ (loading lost = true /\ jobs lost = jobs st)
  /\ (toasts final = toasts st /\ busy final = busy st
      /\ same_form final st /\ same_modals final st).
Proof.
  cbv zeta. unfold loadJobs. cbn [run sent]. split; [done|]. split; [done|].
  destruct (NextResponse.ok res); cbn; by split_and!.
Qed.

(** The service's answer to the request [loadJobs] sends. *)
Lemma GET_reload (Date_parse : string -> option Z) (now : Z) (newId : string)
    (st0 : State) (db : Prisma.Store) :
  answer Date_parse now newId (reload st0) db
  = if JS.is_empty (JS.trim (q st0)) then
      (NextResponse.json
         (NextResponse.Jobs
            (merge_sort (Prisma.before (JobsRoute.orderBy (sort_text (sort st0))))
               (filter (fun j => Prisma.matches (Prisma.Where (filterStatus st0) None) j)
                  (Prisma.rows db)))), db)
    else (NextResponse.unhandled, db).
Proof.
  unfold reload, answer. rewrite GET_cases.
  assert (JS.trim (default "" (if JS.is_empty (JS.trim (q st0)) then None
                               else Some (JS.trim (q st0)))) = JS.trim (q st0)) as ->.
  { destruct (JS.is_empty (JS.trim (q st0))) eqn:He; cbn [default from_option id].
    - apply is_empty_true in He. by rewrite He.
    - apply trim_idempotent. }
  assert (JobsRoute.normalizeStatus (JobsRoute.searchParam (Job.name <$> filterStatus st0))
          = filterStatus st0) as ->.
  { destruct (filterStatus st0) as [s|]; [|done]. apply normalizeStatus_name. }
  cbn [JobsRoute.searchParam]. by rewrite (normalizeSort_key _ (sort_text_allowed _)).
Qed.

Lemma elem_of_reload (Date_parse : string -> option Z) (now : Z) (newId : string)
    (st0 : State) (db : Prisma.Store) (j : Job.t) :
  j ∈ listed (fst (answer Date_parse now newId (reload st0) db))
  <-> White (q st0) /\ stored db j /\ (forall s, filterStatus st0 = Some s -> Job.status j = s).
Proof.
  rewrite GET_reload, <- trim_empty.
  destruct (JS.trim (q st0)) as [|c rest]; cbn [JS.is_empty fst listed
    NextResponse.body NextResponse.json NextResponse.unhandled].
  - rewrite merge_sort_Permutation, list_elem_of_filter, elem_of_rows, Is_true_true, matches_spec.
    cbn [Prisma.where_status]. tauto.
  - rewrite elem_of_nil. split; [done|]. by intros [? _].
Qed.

(** X22: the query [loadJobs] sends, and what the service makes of it.  With
    a search box that is blank (empty, or white space only) List answers ok
    with exactly the stored records of the selected stage (all of them, if
    none is selected), and the service's own normalization of the parameters
    loses nothing; with a search text in the box the service answers 500 and
    the page ends with an empty list and the error text.  What the page
    lists is in the order of the selected sort key. *)
Theorem load_query_agrees (st0 st : State) (db : Prisma.Store) :
  exists pq ps psort,
    sent (loadJobs st0) [] = [FetchJobs pq ps psort]
    /\ (let res := fst (JobsRoute.GET pq ps psort db) in
        let final := run (loadJobs st0) [Page.Resolved res] st in
        (White (q st0) ->
           NextResponse.ok res = true /\ errorMsg final = "" /\ jobs final = listed res
           /\ forall j, j ∈ listed res
                 <-> stored db j /\ (forall s, filterStatus st0 = Some s -> Job.status j = s))
        /\ (~ White (q st0) ->
             res = NextResponse.unhandled /\ jobs final = [] /\ errorMsg final = load_failed)
        /\ StronglySorted (key_order (sort_text (sort st0))) (listed res)).
Proof.
  eexists _, _, _. split; [reflexivity|]. cbv zeta.
  change (JobsRoute.GET _ _ _ db) with (answer (fun _ => None) 0 "" (reload st0) db).
  split_and!.
  - intros HW.
    assert (forall j, j ∈ listed (fst (answer (fun _ => None) 0 "" (reload st0) db))
              <-> stored db j /\ (forall s, filterStatus st0 = Some s -> Job.status j = s)) as Hl.
    { intros j. rewrite elem_of_reload. tauto. }
    revert Hl. rewrite GET_reload. apply trim_empty in HW. rewrite HW.
    intros Hl. by split_and!.
  - intros HW. rewrite GET_reload. rewrite <- trim_empty in HW.
    destruct (JS.trim (q st0)) as [|c rest] eqn:E; [done|]. by split_and!.
  - change (answer _ _ _ (reload st0) db)
      with (JobsRoute.GET (if JS.is_empty (JS.trim (q st0)) then None else Some (JS.trim (q st0)))
              (Job.name <$> filterStatus st0) (Some (sort_text (sort st0))) db).
    eapply StronglySorted_weaken; [|apply listed_sorted].
    intros a b. cbn [JobsRoute.searchParam].
    rewrite (normalizeSort_key _ (sort_text_allowed _)).
    apply orderBy_key_order, sort_text_allowed.
Qed.

End Loading.
(** ** Add, edit, delete: confirm, then reload *)

Section Confirmed.

Import App.

Variable Date_parse : string -> option Z.

(** X23: [addJob] with a company or a role that is blank (empty once
    trimmed) sends no request at all: it pushes the warning toast and leaves
    the list, the busy flag, the form and the modals as they are. *)
Theorem add_blank_sends_nothing (uid : string) (st0 st : State) (net : list Page.Settled) :
  JS.trim (company st0) = "" \/ JS.trim (role st0) = "" ->
  sent (addJob uid st0) net = []
  /\ run (addJob uid st0) net st = pushToast uid Page.warning "Missing info"
                                     "Please enter company and role." st
  /\ head (toasts (run (addJob uid st0) net st)) = Some (toast_missing uid)
  /\ jobs (run (addJob uid st0) net st) = jobs st
  /\ busy (run (addJob uid st0) net st) = busy st.
Proof.
  intros H. unfold addJob. cbv zeta.
  assert (JS.is_empty (JS.trim (company st0)) || JS.is_empty (JS.trim (role st0)) = true) as ->.
  { destruct H as [-> | ->]; [done|apply orb_true_r]. }
  by split_and!.
Qed.

Lemma addJob_body_creatable (c r : string) (s : Job.Status) (n : string) :
  JS.trim c <> "" -> JS.trim r <> "" ->
  creatable Date_parse (addJob_body (JS.trim c) (JS.trim r) s n).
Proof.
  intros Hc Hr. unfold creatable, addJob_body. split_and!; [done| | | |done].
  - apply converts_spec. by destruct (JS.is_empty (JS.trim n)).
  - change (trimmed _) with (JS.trim (JS.trim c)). by rewrite trim_idempotent.
  - change (trimmed _) with (JS.trim (JS.trim r)). by rewrite trim_idempotent.
Qed.

Lemma addJob_body_row now newId (c r : string) (s : Job.Status) (n : string) at_ :
  Prisma.date_column
    (date_or_null Date_parse (field (addJob_body (JS.trim c) (JS.trim r) s n) "nextActionAt"))
  = inr at_ ->
  Prisma.new_row now newId (post_data Date_parse (addJob_body (JS.trim c) (JS.trim r) s n)) at_
  = Job.mk newId (JS.trim c) (JS.trim r) s None None None
      (if JS.is_empty (JS.trim n) then None else Some (JS.trim n)) None None now now.
Proof.
  intros Hat. cbn in Hat. injection Hat as <-.
  unfold Prisma.new_row, post_data, addJob_body. cbn [Prisma.JobCreateInput.company
    Prisma.JobCreateInput.role Prisma.JobCreateInput.status Prisma.JobCreateInput.location
    Prisma.JobCreateInput.url Prisma.JobCreateInput.salary Prisma.JobCreateInput.notes
    Prisma.JobCreateInput.nextAction].
  assert (trimmed (field (JS.Obj [("company", JS.Str (JS.trim c)); ("role", JS.Str (JS.trim r));
                                   ("status", JS.Str (Job.name s));
                                   ("notes", if JS.is_empty (JS.trim n) then JS.Null
                                             else JS.Str (JS.trim n))]) "company")
          = JS.trim c) as ->.
  { change (trimmed _) with (JS.trim (JS.trim c)). apply trim_idempotent. }
  assert (trimmed (field (JS.Obj [("company", JS.Str (JS.trim c)); ("role", JS.Str (JS.trim r));
                                   ("status", JS.Str (Job.name s));
                                   ("notes", if JS.is_empty (JS.trim n) then JS.Null
                                             else JS.Str (JS.trim n))]) "role")
          = JS.trim r) as ->.
  { change (trimmed _) with (JS.trim (JS.trim r)). apply trim_idempotent. }
  f_equal.
  - change (field _ "status") with (Some (JS.Str (Job.name s))).
    change (Some (JS.Str (Job.name s))) with (JobsRoute.searchParam (Some (Job.name s))).
    by rewrite normalizeStatus_name.
  - change (field _ "notes")
      with (Some (if JS.is_empty (JS.trim n) then JS.Null else JS.Str (JS.trim n))).
    destruct (JS.is_empty (JS.trim n)) eqn:He; [done|].
    apply is_empty_false in He. rewrite (text_or_null_Str _ He). by rewrite trim_idempotent.
Qed.

Lemma run_Update (f : State -> State) (next : Task) net st :
  run (Update f next) net st = run next net (f st).
Proof. reflexivity. Qed.

Lemma run_against_Update (f : State -> State) (next : Task) env db st :
  run_against Date_parse (Update f next) env db st = run_against Date_parse next env db (f st).
Proof. reflexivity. Qed.

Lemma run_against_loadJobs (st0 : State) (t2 : Task) now newId env db st :
  run_against Date_parse (then_ (loadJobs st0) t2) ((now, newId) :: env) db st
  = let out := answer Date_parse now newId (reload st0) db in
    run_against Date_parse t2 env (snd out)
      (if NextResponse.ok (fst out)
       then setLoading false (setJobs (listed (fst out)) (setErrorMsg "" (setLoading true st)))
       else setLoading false (setErrorMsg load_failed (setJobs []
              (setErrorMsg "" (setLoading true st))))).
Proof.
  unfold loadJobs, reload, load_failed. cbn [then_ run_against]. cbv zeta.
  destruct (NextResponse.ok _); reflexivity.
Qed.

Lemma run_loadJobs (st0 : State) (t2 : Task) res net st :
  run (then_ (loadJobs st0) t2) (Page.Resolved res :: net) st
  = run t2 net
      (if NextResponse.ok res
       then setLoading false (setJobs (listed res) (setErrorMsg "" (setLoading true st)))
       else setLoading false (setErrorMsg load_failed (setJobs []
              (setErrorMsg "" (setLoading true st))))).
Proof.
  unfold loadJobs, load_failed. cbn [then_ run]. destruct (NextResponse.ok res); reflexivity.
Qed.

Lemma sent_loadJobs (st0 : State) (t2 : Task) res net :
  sent (then_ (loadJobs st0) t2) (Page.Resolved res :: net) = reload st0 :: sent t2 net.
Proof.
  unfold loadJobs, reload. cbn [then_ sent]. destruct (NextResponse.ok res); reflexivity.
Qed.

(** X24: an add that passes the page's own check is never turned down by the
    service.  Run against the service with a fresh identifier, [addJob]
    stores a record with the trimmed company and role, the selected stage and
    the trimmed notes (null if blank), empties the form and lowers the busy
    and loading flags.  With a blank search box the page then holds the
    reloaded list, with no error text, and with no stage selected the new
    record is in that list; with a search text in the box the reload fails:
    the list is empty and the error text is shown, though the record is
    stored. *)
Theorem add_round_trip (uid : string) (st0 : State) now newId now2 id2 (db : Prisma.Store) :
  JS.trim (company st0) <> "" -> JS.trim (role st0) <> "" -> db !! newId = None ->
  let job := Job.mk newId (JS.trim (company st0)) (JS.trim (role st0)) (status st0)
               None None None
               (if JS.is_empty (JS.trim (notes st0)) then None else Some (JS.trim (notes st0)))
               None None now now in
  let out := run_against Date_parse (addJob uid st0) [(now, newId); (now2, id2)] db st0 in
  snd out = <[newId := job]> db
  /\ (White (q st0) ->
      jobs (fst out) = listed (fst (answer Date_parse now2 id2 (reload st0) (snd out)))
      /\ errorMsg (fst out) = ""
      /\ (filterStatus st0 = None -> job ∈ jobs (fst out)))
  /\ (~ White (q st0) -> jobs (fst out) = [] /\ errorMsg (fst out) = load_failed)
  /\ busy (fst out) = false /\ loading (fst out) = false
  /\ (company (fst out), role (fst out), notes (fst out), status (fst out))
     = ("", "", "", Job.APPLIED).
Proof.
  intros Hc Hr Hnew. cbv zeta.
  pose proof (addJob_body_creatable (company st0) (role st0) (status st0) (notes st0) Hc Hr) as Hok.
  destruct (POST_accepts Date_parse now newId _ db Hnew Hok) as (at_ & Hat & HPOST).
  rewrite (addJob_body_row now newId _ _ _ _ at_ Hat) in HPOST.
  pose proof (elem_of_reload Date_parse now2 id2 st0) as Hin.
  rewrite <- !trim_empty in *.
  destruct (JS.trim (q st0)) as [|c rest] eqn:Hq.
  - eassert (run_against Date_parse (addJob uid st0) [(now, newId); (now2, id2)] db st0 = _) as ->.
    { unfold addJob. cbv zeta.
      rewrite (proj2 (is_empty_false _) Hc), (proj2 (is_empty_false _) Hr). cbn [orb].
      cbn [run_against answer]. rewrite HPOST.
      cbn [fst snd NextResponse.ok NextResponse.status NextResponse.json_with
           Z.leb Z.compare Pos.compare Pos.compare_cont andb negb].
      rewrite !run_against_Update, run_against_loadJobs. cbv zeta.
      rewrite !GET_reload, Hq. cbn [JS.is_empty].
      cbn [fst snd NextResponse.ok NextResponse.status NextResponse.json
           Z.leb Z.compare Pos.compare Pos.compare_cont andb negb].
      rewrite run_against_Update. cbn [run_against listed NextResponse.body NextResponse.json].
      reflexivity. }
    cbn [fst snd]. rewrite GET_reload, Hq.
    cbn [JS.is_empty fst listed NextResponse.body NextResponse.json].
    split_and!; try reflexivity; [|done].
    intros _. split_and!; try reflexivity. intros Hf.
    match goal with
    | |- ?j ∈ jobs (setBusy _ (setLoading _ (setJobs ?l _))) => change (j ∈ l)
    end.
    rewrite merge_sort_Permutation, list_elem_of_filter, elem_of_rows, Is_true_true, matches_spec.
    split; [by rewrite Hf|]. exists newId. apply lookup_insert_eq.
  - eassert (run_against Date_parse (addJob uid st0) [(now, newId); (now2, id2)] db st0 = _) as ->.
    { unfold addJob. cbv zeta.
      rewrite (proj2 (is_empty_false _) Hc), (proj2 (is_empty_false _) Hr). cbn [orb].
      cbn [run_against answer]. rewrite HPOST.
      cbn [fst snd NextResponse.ok NextResponse.status NextResponse.json_with
           Z.leb Z.compare Pos.compare Pos.compare_cont andb negb].
      rewrite !run_against_Update, run_against_loadJobs. cbv zeta.
      rewrite !GET_reload, Hq. cbn [JS.is_empty].
      cbn [fst snd NextResponse.ok NextResponse.status NextResponse.unhandled
           Z.leb Z.compare Pos.compare Pos.compare_cont andb negb].
      rewrite run_against_Update. cbn [run_against].
      reflexivity. }
    cbn [fst snd]. split_and!; try reflexivity; [done|]. intros _. by split.
Qed.

(** X25: an add is not optimistic.  While the request is out the busy flag is
    up and the list is the one before; an answer that is not ok pushes the
    failure toast, keeps the form as typed and the list as it was, lowers the
    busy flag, and no reload is sent; a fetch that rejects leaves the busy
    flag up. *)
Theorem add_refused (uid : string) (st0 st : State) (res : NextResponse.t) :
  JS.trim (company st0) <> "" -> JS.trim (role st0) <> "" ->
  NextResponse.ok res = false ->
  let waiting := run (addJob uid st0) [] st in
  let final := run (addJob uid st0) [Page.Resolved res] st in
  let lost := run (addJob uid st0) [Page.Rejected] st in
  (busy waiting = true /\ jobs waiting = jobs st)
  /\ sent (addJob uid st0) [Page.Resolved res]
     = [FetchCreate (addJob_body (JS.trim (company st0)) (JS.trim (role st0))
                       (status st0) (notes st0))]
  /\ head (toasts final) = Some (toast_failed uid "Could not add job. Please try again.")
  /\ busy final = false /\ jobs final = jobs st /\ same_form final st
  /\ busy lost = true.
Proof.
  intros Hc%is_empty_false Hr%is_empty_false Hres. cbv zeta. unfold addJob. cbv zeta.
  rewrite Hc, Hr. cbn [orb]. rewrite !run_Update. cbn [run sent]. rewrite Hres.
  cbn [negb]. rewrite !run_Update. cbn [run sent].
  split_and!; try reflexivity. unfold same_form. split_and!; reflexivity.
Qed.

(** X26: [saveEdit] with no job being edited does nothing.  Otherwise it
    sends the payload as an Update of the edited job, with the busy flag up
    and the list untouched; an answer that is not ok pushes the failure toast,
    leaves the modal open and the list as it was, lowers the busy flag and
    sends no reload; an answer that is ok closes the modal, sends the reload
    and, once that is answered, holds the reloaded list with the busy flag
    down. *)
Theorem save_settles (uid : string) (updated : JS.Value) (st0 st : State)
    (res res2 : NextResponse.t) :
  (editJob st0 = None ->
   forall net, sent (saveEdit uid updated st0) net = [] /\ run (saveEdit uid updated st0) net st = st)
  /\ (forall job, editJob st0 = Some job ->
      let waiting := run (saveEdit uid updated st0) [] st in
      let final := run (saveEdit uid updated st0) [Page.Resolved res; Page.Resolved res2] st in
      (busy waiting = true /\ jobs waiting = jobs st)
      /\ (NextResponse.ok res = false ->
          sent (saveEdit uid updated st0) [Page.Resolved res; Page.Resolved res2]
          = [FetchUpdate (Job.id job) updated]
          /\ head (toasts final) = Some (toast_failed uid "Could not save changes.")
          /\ busy final = false /\ jobs final = jobs st /\ same_modals final st)
      /\ (NextResponse.ok res = true ->
          sent (saveEdit uid updated st0) [Page.Resolved res; Page.Resolved res2]
          = [FetchUpdate (Job.id job) updated; reload st0]
          /\ (editOpen final, editJob final) = (false, None)
          /\ (jobs final, errorMsg final) = reloaded res2
          /\ busy final = false /\ loading final = false)).
Proof.
  split.
  - intros H net. unfold saveEdit. by rewrite H.
  - intros job H. cbv zeta. unfold saveEdit. rewrite H. rewrite !run_Update. cbn [run sent].
    split; [split; reflexivity|]. split.
    + intros ->. cbn [negb]. rewrite !run_Update. cbn [run sent].
      split_and!; try reflexivity. unfold same_modals. split_and!; reflexivity.
    + intros ->. cbn [negb]. rewrite !run_Update. cbn [sent].
      rewrite run_loadJobs, sent_loadJobs, run_Update. cbn [run sent]. unfold reloaded.
      destruct (NextResponse.ok res2); split_and!; reflexivity.
Qed.

(** X27: [confirmDelete] with no job to delete does nothing.  Otherwise it
    sends the Delete of that job, with the busy flag up and the list
    untouched: the card stays on the board until the service has answered.
    An answer that is not ok pushes the failure toast, leaves the modal open
    and the list as it was, and lowers the busy flag; an answer that is ok
    closes the modal, sends the reload and, once that is answered, holds the
    reloaded list with the busy flag down. *)
Theorem delete_settles (uid : string) (st0 st : State) (res res2 : NextResponse.t) :
  (confirmJob st0 = None ->
   forall net, sent (confirmDelete uid st0) net = [] /\ run (confirmDelete uid st0) net st = st)
  /\ (forall job, confirmJob st0 = Some job ->
      let waiting := run (confirmDelete uid st0) [] st in
      let final := run (confirmDelete uid st0) [Page.Resolved res; Page.Resolved res2] st in
      (busy waiting = true /\ jobs waiting = jobs st)
      /\ (NextResponse.ok res = false ->
          sent (confirmDelete uid st0) [Page.Resolved res; Page.Resolved res2]
          = [FetchDelete (Job.id job)]
          /\ head (toasts final) = Some (toast_failed uid "Could not delete job.")
          /\ busy final = false /\ jobs final = jobs st /\ same_modals final st)
      /\ (NextResponse.ok res = true ->
          sent (confirmDelete uid st0) [Page.Resolved res; Page.Resolved res2]
          = [FetchDelete (Job.id job); reload st0]
          /\ (confirmOpen final, confirmJob final) = (false, None)
          /\ (jobs final, errorMsg final) = reloaded res2
          /\ busy final = false /\ loading final = false)).
Proof.
  split.
  - intros H net. unfold confirmDelete. by rewrite H.
  - intros job H. cbv zeta. unfold confirmDelete. rewrite H. rewrite !run_Update. cbn [run sent].
    split; [split; reflexivity|]. split.
    + intros ->. cbn [negb]. rewrite !run_Update. cbn [run sent].
      split_and!; try reflexivity. unfold same_modals. split_and!; reflexivity.
    + intros ->. cbn [negb]. rewrite !run_Update. cbn [sent].
      rewrite run_loadJobs, sent_loadJobs, run_Update. cbn [run sent]. unfold reloaded.
      destruct (NextResponse.ok res2); split_and!; reflexivity.
Qed.

Lemma GET_reads_reload now newId (st0 : State) (db : Prisma.Store) :
  snd (answer Date_parse now newId (reload st0) db) = db.
Proof. apply GET_reads_only. Qed.

(** X28: a confirmed delete, run against a service whose rows sit under their
    identifiers.  If the service holds the job, the row is deleted, the modal
    closes and the reloaded list has no record with that identifier; if it
    does not, the store is as it was, the modal stays open and the list stays
    as it was. *)
Theorem delete_round_trip (uid : string) (job : Job.t) (st : State)
    now now2 id1 id2 (db : Prisma.Store) :
  keyed db -> Job.id job <> "" ->
  let st0 := askDelete job st in
  let out := run_against Date_parse (confirmDelete uid st0) [(now, id1); (now2, id2)] db st0 in
  (is_Some (db !! Job.id job) ->
   snd out = delete (Job.id job) db
   /\ (forall j, j ∈ jobs (fst out) -> Job.id j <> Job.id job)
   /\ confirmOpen (fst out) = false /\ busy (fst out) = false)
  /\ (db !! Job.id job = None ->
      snd out = db /\ jobs (fst out) = jobs st
      /\ confirmOpen (fst out) = true /\ busy (fst out) = false).
Proof.
  intros Hkeyed Hid. cbv zeta. split.
  - intros [old Hold].
    eassert (run_against Date_parse (confirmDelete uid (askDelete job st))
               [(now, id1); (now2, id2)] db (askDelete job st) = _) as ->.
    { unfold confirmDelete. cbn [askDelete confirmJob setConfirmOpen setConfirmJob].
      rewrite run_against_Update. cbn [run_against answer].
      rewrite (DELETE_known _ _ _ Hid Hold).
      cbn [fst snd NextResponse.ok NextResponse.status NextResponse.json
           Z.leb Z.compare Pos.compare Pos.compare_cont andb negb].
      rewrite !run_against_Update.
      change (setConfirmOpen true (setConfirmJob (Some job) st)) with (askDelete job st).
      rewrite run_against_loadJobs. cbv zeta.
      rewrite (surjective_pairing (answer _ _ _ _ _)), GET_reads_reload.
      reflexivity. }
    cbn [fst snd]. split_and!; [reflexivity| |by destruct (NextResponse.ok _)..].
    intros j Hj.
    assert (j ∈ listed (fst (answer Date_parse now2 id2 (reload (askDelete job st))
                                (delete (Job.id job) db)))) as Hin.
    { destruct (NextResponse.ok _); [exact Hj|]. by apply elem_of_nil in Hj. }
    apply elem_of_reload in Hin as (_ & [k Hk] & _). intros Heq.
    apply lookup_delete_Some in Hk as [Hne Hk]. apply Hkeyed in Hk. congruence.
  - intros Hnone.
    eassert (run_against Date_parse (confirmDelete uid (askDelete job st))
               [(now, id1); (now2, id2)] db (askDelete job st) = _) as ->.
    { unfold confirmDelete. cbn [askDelete confirmJob setConfirmOpen setConfirmJob].
      rewrite run_against_Update. cbn [run_against answer].
      rewrite (DELETE_unknown _ _ Hid Hnone). unfold error_response.
      cbn [fst snd NextResponse.ok NextResponse.status NextResponse.json
           NextResponse.json_with Z.leb Z.compare Pos.compare Pos.compare_cont andb negb].
      rewrite !run_against_Update. cbn [run_against]. reflexivity. }
    cbn [fst snd]. split_and!; reflexivity.
Qed.

End Confirmed.

(** ** Drag and drop *)

Section Dragging.

(** X29: a drag followed by a drop starts one move, of the dragged card to
    the column it was dropped on, with the list before the move as its
    snapshot, and clears the drag state; a further drop with no new drag
    starts no move and changes nothing. *)
Theorem drag_then_drop (id : string) (col col' : Job.Status) (st : App.State) :
  id <> "" ->
  let dropped := Page.onDrop col (App.board (App.onDragStart id st)) in
  snd dropped = Some (Page.mkPending (App.jobs st) id col)
  /\ fst dropped
     = Page.setOverCol None (Page.setDragId "" (fst (Page.moveJob id col (App.board st))))
  /\ Page.onDrop col' (fst dropped) = (fst dropped, None).
Proof.
  intros Hid%is_empty_false. cbv zeta.
  assert (Page.onDrop col (App.board (App.onDragStart id st))
          = (Page.setOverCol None (Page.setDragId ""
               (fst (Page.moveJob id col (App.board st)))),
             Some (Page.mkPending (App.jobs st) id col))) as ->.
  { unfold Page.onDrop, App.onDragStart.
    change (Page.dragId (App.board (App.setBoard (Page.setDragId id (App.board st)) st)))
      with id.
    rewrite Hid. reflexivity. }
  split; [reflexivity|]. split; [reflexivity|]. reflexivity.
Qed.

End Dragging.

(** ** The properties at sample inputs *)

Lemma failure_leaves_store_witness :
  NextResponse.ok (fst (serve sample_Date_parse (CallDELETE "job9") db1)) = false
  /\ snd (serve sample_Date_parse (CallDELETE "job9") db1) = db1.
Proof.
  assert (NextResponse.ok (fst (serve sample_Date_parse (CallDELETE "job9") db1)) = false) as H
    by (vm_compute; reflexivity).
  exact (conj H (failure_leaves_store sample_Date_parse (CallDELETE "job9") db1 H)).
Defined.

Lemma other_rows_untouched_witness :
  target (CallPATCH 40 "job1" to_applied) <> Some "job2"
  /\ snd (serve sample_Date_parse (CallPATCH 40 "job1" to_applied) db2) !! "job2"
     = db2 !! "job2".
Proof.
  assert (target (CallPATCH 40 "job1" to_applied) <> Some "job2") as H by discriminate.
  exact (conj H (other_rows_untouched sample_Date_parse _ db2 "job2" H)).
Defined.

Lemma create_fields_witness :
  db1 !! "job3" = None
  /\ creatable sample_Date_parse
       (JS.Obj [("company", JS.Str " Acme "); ("role", JS.Str "Engineer");
                ("notes", JS.Str " Referral ")])
  /\ exists job,
       JobsRoute.POST sample_Date_parse 50 "job3"
         (inr (JS.Obj [("company", JS.Str " Acme "); ("role", JS.Str "Engineer");
                       ("notes", JS.Str " Referral ")])) db1
       = (NextResponse.json_with (NextResponse.JobOf job) 201, <["job3" := job]> db1)
       /\ Job.id job = "job3" /\ Job.createdAt job = 50 /\ Job.updatedAt job = 50.
Proof.
  assert (db1 !! "job3" = None) as Hfresh by (vm_compute; reflexivity).
  assert (creatable sample_Date_parse
            (JS.Obj [("company", JS.Str " Acme "); ("role", JS.Str "Engineer");
                     ("notes", JS.Str " Referral ")])) as Hok.
  { split; [discriminate|]. split; [by apply converts_spec|].
    repeat split; vm_compute; discriminate. }
  split; [exact Hfresh|]. split; [exact Hok|].
  destruct (create_fields sample_Date_parse 50 "job3" _ db1 Hfresh Hok)
    as (job & H1 & H2 & H3 & H4 & _).
  exists job. exact (conj H1 (conj H2 (conj H3 H4))).
Defined.

Lemma white_text_is_stored_empty_witness :
  ("notes", Job.notes) ∈ text_columns
  /\ White "  "
  /\ exists job,
       JobIdRoute.PATCH sample_Date_parse 40 "job1"
         (inr (JS.Obj [("notes", JS.Str "  ")])) db1
       = (NextResponse.json (NextResponse.JobOf job), <["job1" := job]> db1)
       /\ Job.notes job = Some "".
Proof.
  assert (("notes", Job.notes) ∈ text_columns) as Hcol.
  { unfold text_columns. do 3 apply list_elem_of_further. apply list_elem_of_here. }
  assert (White "  ") as Hw by (by apply trim_empty).
  split; [exact Hcol|]. split; [exact Hw|].
  apply (proj2 (white_text_is_stored_empty sample_Date_parse 40 "job1"
                  (JS.Obj [("notes", JS.Str "  ")]) db1 "notes" Job.notes "  "
                  Hcol eq_refl ltac:(discriminate) Hw) acme).
  - discriminate.
  - vm_compute. reflexivity.
  - split; [discriminate|]. split; [by apply converts_spec|].
    repeat split; try discriminate; vm_compute; reflexivity.
Defined.

Lemma fieldless_update_changes_nothing_witness :
  "job1" <> "" /\ db1 !! "job1" = Some acme /\ fieldless (JS.Obj [])
  /\ JobIdRoute.PATCH sample_Date_parse 40 "job1" (inr (JS.Obj [])) db1
     = (NextResponse.json (NextResponse.JobOf acme), db1).
Proof.
  assert (fieldless (JS.Obj [])) as Hf.
  { split; [discriminate|]. intros k _. reflexivity. }
  split; [discriminate|]. split; [vm_compute; reflexivity|]. split; [exact Hf|].
  apply (fieldless_update_changes_nothing sample_Date_parse 40 "job1" (JS.Obj []) db1 acme).
  - discriminate.
  - vm_compute. reflexivity.
  - exact Hf.
Defined.

Lemma update_twice_witness :
  "job1" <> "" /\ db1 !! "job1" = Some acme /\ patchable sample_Date_parse clear_notes
  /\ exists job,
       JobIdRoute.PATCH sample_Date_parse 40 "job1" (inr clear_notes) db1
       = (NextResponse.json (NextResponse.JobOf job), <["job1" := job]> db1)
       /\ JobIdRoute.PATCH sample_Date_parse 60 "job1" (inr clear_notes) (<["job1" := job]> db1)
          = (let job' := if writes sample_Date_parse clear_notes then touched job 60 else job in
             (NextResponse.json (NextResponse.JobOf job'), <["job1" := job']> db1)).
Proof.
  assert (patchable sample_Date_parse clear_notes) as Hp.
  { split; [discriminate|]. split; [by apply converts_spec|].
    repeat split; try discriminate; vm_compute; reflexivity. }
  split; [discriminate|]. split; [vm_compute; reflexivity|]. split; [exact Hp|].
  apply (update_twice sample_Date_parse 40 60 "job1" clear_notes db1 acme).
  - discriminate.
  - vm_compute. reflexivity.
  - exact Hp.
Defined.

Lemma create_then_delete_witness :
  "job3" <> ""
  /\ NextResponse.status (fst (JobsRoute.POST sample_Date_parse 50 "job3" create_acme db1)) = 201
  /\ JobIdRoute.DELETE "job3" (snd (JobsRoute.POST sample_Date_parse 50 "job3" create_acme db1))
     = (NextResponse.json NextResponse.Ok, db1).
Proof.
  assert (NextResponse.status
            (fst (JobsRoute.POST sample_Date_parse 50 "job3" create_acme db1)) = 201) as H
    by (vm_compute; reflexivity).
  split; [discriminate|]. split; [exact H|].
  apply (create_then_delete sample_Date_parse 50 "job3" create_acme db1); [discriminate|exact H].
Defined.

Lemma created_is_listed_witness :
  fst (JobsRoute.POST sample_Date_parse 50 "job3" create_acme db1)
  = NextResponse.json_with
      (NextResponse.JobOf
         (Job.mk "job3" "Acme" "Engineer" Job.SAVED None None None None None None 50 50)) 201
  /\ Job.mk "job3" "Acme" "Engineer" Job.SAVED None None None None None None 50 50
     ∈ listed (fst (JobsRoute.GET None None (Some "company_asc")
                      (snd (JobsRoute.POST sample_Date_parse 50 "job3" create_acme db1)))).
Proof.
  assert (fst (JobsRoute.POST sample_Date_parse 50 "job3" create_acme db1)
          = NextResponse.json_with
              (NextResponse.JobOf
                 (Job.mk "job3" "Acme" "Engineer" Job.SAVED None None None None None None 50 50))
              201) as H by (vm_compute; reflexivity).
  split; [exact H|].
  exact (proj1 (created_is_listed sample_Date_parse 50 "job3" create_acme db1 _
                  None None (Some "company_asc") H)).
Defined.

Lemma list_is_ordered_witness :
  "company_asc" ∈ JobsRoute.allowed
  /\ StronglySorted (key_order "company_asc")
       (listed (fst (JobsRoute.GET None None (Some "company_asc") db2))).
Proof.
  assert ("company_asc" ∈ JobsRoute.allowed) as H.
  { unfold JobsRoute.allowed.
    repeat first [apply list_elem_of_here | apply list_elem_of_further]. }
  exact (conj H (list_is_ordered "company_asc" None None db2 H)).
Defined.

Lemma move_round_trip_witness :
  "job1" <> "" /\ db1 !! "job1" = Some acme
  /\ JobIdRoute.PATCH sample_Date_parse 40 "job1" (Page.moveJob_body Job.APPLIED) db1
     = (NextResponse.json (NextResponse.JobOf (touched (Job.with_status acme Job.APPLIED) 40)),
        <["job1" := touched (Job.with_status acme Job.APPLIED) 40]> db1).
Proof.
  assert (db1 !! "job1" = Some acme) as Hold by (vm_compute; reflexivity).
  split; [discriminate|]. split; [exact Hold|].
  exact (proj1 (proj1 (move_round_trip sample_Date_parse 40 "job1" Job.APPLIED db1 board "t1"
                         ltac:(discriminate)) acme Hold)).
Defined.

Lemma add_blank_sends_nothing_witness :
  (JS.trim (App.company App.init) = "" \/ JS.trim (App.role App.init) = "")
  /\ App.sent (App.addJob "t1" App.init) [] = []
  /\ App.jobs (App.run (App.addJob "t1" App.init) [] App.init) = App.jobs App.init.
Proof.
  assert (JS.trim (App.company App.init) = "" \/ JS.trim (App.role App.init) = "") as H
    by (left; reflexivity).
  split; [exact H|].
  destruct (add_blank_sends_nothing "t1" App.init App.init [] H) as (H1 & _ & _ & H2 & _).
  exact (conj H1 H2).
Defined.

Lemma add_round_trip_witness :
  JS.trim " Acme " <> "" /\ JS.trim "Engineer" <> "" /\ db1 !! "job3" = None
  /\ snd (run_against sample_Date_parse
            (App.addJob "t1" (App.setCompany " Acme " (App.setRole "Engineer" App.init)))
            [(50, "job3"); (60, "job4")] db1
            (App.setCompany " Acme " (App.setRole "Engineer" App.init)))
     = <["job3" := Job.mk "job3" "Acme" "Engineer" Job.APPLIED None None None None None None
                     50 50]> db1.
Proof.
  assert (JS.trim " Acme " <> "") as Hc by (vm_compute; discriminate).
  assert (JS.trim "Engineer" <> "") as Hr by (vm_compute; discriminate).
  assert (db1 !! "job3" = None) as Hfresh by (vm_compute; reflexivity).
  split; [exact Hc|]. split; [exact Hr|]. split; [exact Hfresh|].
  exact (proj1 (add_round_trip sample_Date_parse "t1"
                  (App.setCompany " Acme " (App.setRole "Engineer" App.init))
                  50 "job3" 60 "job4" db1 Hc Hr Hfresh)).
Defined.

Lemma add_refused_witness :
  NextResponse.ok (error_response "Failed to create job" 500) = false
  /\ App.busy (App.run
                 (App.addJob "t1" (App.setCompany " Acme " (App.setRole "Engineer" App.init)))
                 [Page.Resolved (error_response "Failed to create job" 500)] App.init)
     = false.
Proof.
  split; [reflexivity|].
  destruct (add_refused "t1" (App.setCompany " Acme " (App.setRole "Engineer" App.init))
              App.init (error_response "Failed to create job" 500)) as (_ & _ & _ & H & _).
  - vm_compute. discriminate.
  - vm_compute. discriminate.
  - reflexivity.
  - exact H.
Defined.

Lemma delete_round_trip_witness :
  keyed db1 /\ Job.id acme <> ""
  /\ snd (run_against sample_Date_parse
            (App.confirmDelete "t1" (App.askDelete acme App.init))
            [(50, "job3"); (60, "job4")] db1 (App.askDelete acme App.init))
     = delete (Job.id acme) db1.
Proof.
  assert (keyed db1) as Hk.
  { intros k j H. unfold db1 in H. apply lookup_singleton_Some in H as [<- <-]. reflexivity. }
  split; [exact Hk|]. split; [discriminate|].
  apply (proj1 (delete_round_trip sample_Date_parse "t1" acme App.init 50 60 "job3" "job4" db1
                  Hk ltac:(discriminate))).
  exists acme. vm_compute. reflexivity.
Defined.

Lemma drag_then_drop_witness :
  "job1" <> ""
  /\ snd (Page.onDrop Job.APPLIED (App.board (App.onDragStart "job1" App.init)))
     = Some (Page.mkPending [] "job1" Job.APPLIED).
Proof.
  split; [discriminate|].
  exact (proj1 (drag_then_drop "job1" Job.APPLIED Job.OFFER App.init ltac:(discriminate))).
Defined.

